(** * AT command manager (at.c): a shallow embedding and its properties

    The development follows [src/src/at.c] function by function.  The
    single static context [at_ctx] becomes an explicit record that is
    threaded through every operation together with the bytes handed to the
    transport ([AT_HW_API_write]) and the notifications raised to the
    scheduler.  Behaviour that C leaves undefined (a null pointer that is
    dereferenced, an array cell outside its object, a conversion that does
    not fit) is an explicit [Fault]. *)

From Stdlib Require Import Ascii String.
From Stdlib Require Import List Bool Arith ZArith Lia Permutation.
Import ListNotations.

(** ** Characters and C strings *)

Definition NUL : ascii := "000"%char.
Definition CR : ascii := "013"%char.
Definition LF : ascii := "010"%char.

(** A [char *] is either null or designates the bytes of the pointed
    object from the pointer on; a string literal carries its terminator. *)
Abbreviation c_ptr := (option (list ascii)).

Definition text_of (s : string) : list ascii := list_ascii_of_string s.

Definition c_str (s : string) : c_ptr := Some (text_of s ++ [NUL]).

(** ** at.h: enumerations *)

Inductive AT_status_t :=
| AT_SUCCESS
| AT_ERROR_INTERNAL_COMMAND_PARSING
| AT_ERROR_INTERNAL_COMMAND_NOT_FOUND
| AT_ERROR_INTERNAL_COMMAND_MARKER_NOT_DEFINED
| AT_ERROR_INTERNAL_COMMAND_EXECUTION_NOT_DEFINED
| AT_ERROR_INTERNAL_COMMAND_WRITE_NOT_DEFINED
| AT_ERROR_INTERNAL_COMMAND_READ_NOT_DEFINED
| AT_ERROR_EXTERNAL_COMMAND_BAD_PARAMETER_NUMBER
| AT_ERROR_EXTERNAL_COMMAND_BAD_PARAMETER_PARSING
| AT_ERROR_EXTERNAL_COMMAND_BAD_PARAMETER_VALUE
| AT_ERROR_EXTERNAL_COMMAND_CORE_ERROR
| AT_ERROR_NULL_PARAMETER
| AT_ERROR_WRITE_CALLBACK_WITHOUT_PARAMETER
| AT_ERROR_COMMAND_TYPE
| AT_ERROR_COMMAND_ALREADY_REGISTERED
| AT_ERROR_COMMANDS_LIST_FULL
| AT_ERROR_COMMAND_NOT_REGISTERED
| AT_ERROR_TX_BUFFER_SIZE
| AT_ERROR_AT_HW_API
| AT_ERROR_LAST.

(** The integer value of an enumerator, as printed by ["%d"]. *)
Definition AT_status_value (s : AT_status_t) : Z :=
  match s with
  | AT_SUCCESS => 0
  | AT_ERROR_INTERNAL_COMMAND_PARSING => 1
  | AT_ERROR_INTERNAL_COMMAND_NOT_FOUND => 2
  | AT_ERROR_INTERNAL_COMMAND_MARKER_NOT_DEFINED => 3
  | AT_ERROR_INTERNAL_COMMAND_EXECUTION_NOT_DEFINED => 4
  | AT_ERROR_INTERNAL_COMMAND_WRITE_NOT_DEFINED => 5
  | AT_ERROR_INTERNAL_COMMAND_READ_NOT_DEFINED => 6
  | AT_ERROR_EXTERNAL_COMMAND_BAD_PARAMETER_NUMBER => 7
  | AT_ERROR_EXTERNAL_COMMAND_BAD_PARAMETER_PARSING => 8
  | AT_ERROR_EXTERNAL_COMMAND_BAD_PARAMETER_VALUE => 9
  | AT_ERROR_EXTERNAL_COMMAND_CORE_ERROR => 10
  | AT_ERROR_NULL_PARAMETER => 11
  | AT_ERROR_WRITE_CALLBACK_WITHOUT_PARAMETER => 12
  | AT_ERROR_COMMAND_TYPE => 13
  | AT_ERROR_COMMAND_ALREADY_REGISTERED => 14
  | AT_ERROR_COMMANDS_LIST_FULL => 15
  | AT_ERROR_COMMAND_NOT_REGISTERED => 16
  | AT_ERROR_TX_BUFFER_SIZE => 17
  | AT_ERROR_AT_HW_API => 18
  | AT_ERROR_LAST => 19
  end%Z.

Definition is_success (s : AT_status_t) : bool :=
  match s with AT_SUCCESS => true | _ => false end.

Inductive AT_command_type_t :=
| AT_COMMAND_TYPE_BASIC
| AT_COMMAND_TYPE_EXTENDED
| AT_COMMAND_TYPE_DEBUG
| AT_COMMAND_TYPE_LAST.

Definition AT_command_type_index (t : AT_command_type_t) : nat :=
  match t with
  | AT_COMMAND_TYPE_BASIC => 0
  | AT_COMMAND_TYPE_EXTENDED => 1
  | AT_COMMAND_TYPE_DEBUG => 2
  | AT_COMMAND_TYPE_LAST => 3
  end.

Definition AT_command_type_eqb (a b : AT_command_type_t) : bool :=
  AT_command_type_index a =? AT_command_type_index b.

(** ** at.c: local macros *)

Definition AT_BUFFER_SIZE : nat := 128.
Definition AT_COMMAND_LIST_SIZE : nat := 64.
Definition AT_HEADER : c_ptr := c_str "AT".
Definition AT_COMMAND_MARKER_END : ascii := CR.
Definition AT_COMMAND_MARKER_EXECUTION : ascii := NUL.
Definition AT_COMMAND_MARKER_READ_HELP : ascii := "?"%char.
Definition AT_COMMAND_MARKER_WRITE : ascii := "="%char.
Definition AT_COMMAND_HEADER_BASIC : ascii := NUL.
Definition AT_COMMAND_HEADER_EXTENDED : ascii := "$"%char.
Definition AT_COMMAND_HEADER_DEBUG : ascii := "!"%char.
Definition AT_COMMAND_HEADER_HELP : c_ptr := c_str "        -> ".
Definition AT_COMMAND_PARAMETER_SEPARATOR : ascii := ","%char.
Definition AT_COMMAND_PARAMETER_MAX_NUMBER : nat := 10.
Definition AT_REPLY_END : list ascii := [CR; LF].

(** ** Undefined behaviour and results *)

Inductive AT_fault :=
| NullDereference
| OutOfBounds
| Unrepresentable.

Inductive AT_result (A : Type) :=
| Ok (a : A)
| Fault (f : AT_fault).

Arguments Ok {A} a.
Arguments Fault {A} f.

(** ** at.c: local structures *)

Record AT_flags_t := mk_flags {
  process : bool;
  pending : bool;
  quiet : bool;
  verbose : bool;
  echo : bool
}.

(** A registered descriptor is known by its address only.  The three
    built-in descriptors are objects of at.c; every other address belongs
    to the application. *)
Inductive AT_builtin := BUILTIN_ECHO | BUILTIN_VERBOSE | BUILTIN_QUIET.

Inductive AT_command_ref :=
| Builtin (b : AT_builtin)
| User (n : nat).

Definition AT_builtin_eqb (a b : AT_builtin) : bool :=
  match a, b with
  | BUILTIN_ECHO, BUILTIN_ECHO
  | BUILTIN_VERBOSE, BUILTIN_VERBOSE
  | BUILTIN_QUIET, BUILTIN_QUIET => true
  | _, _ => false
  end.

Definition AT_command_ref_eqb (a b : AT_command_ref) : bool :=
  match a, b with
  | Builtin x, Builtin y => AT_builtin_eqb x y
  | User n, User m => n =? m
  | _, _ => false
  end.

(** Pointer comparison [p == q] on descriptor pointers. *)
Definition ptr_eqb (p q : option AT_command_ref) : bool :=
  match p, q with
  | None, None => true
  | Some a, Some b => AT_command_ref_eqb a b
  | _, _ => false
  end.

(** The scheduler's hook is a code address; calling it is recorded. *)
Definition AT_process_cb_t := nat.

Record AT_context_t := mk_ctx {
  process_callback : option AT_process_cb_t;
  flags : AT_flags_t;
  rx_buffer : list ascii;
  rx_buffer_size : nat;
  current_command : option AT_command_ref;
  commands_list : list (option AT_command_ref);
  commands_count : list Z
}.

(** The context, the bytes handed to [AT_HW_API_write] so far, and the
    hooks called so far. *)
Record AT_world := mk_world {
  at_ctx : AT_context_t;
  hw_tx : list ascii;
  notified : list AT_process_cb_t
}.

(** ** Computations over the world *)

Definition M (A : Type) : Type := AT_world -> AT_result (A * AT_world).

Definition ret {A} (a : A) : M A := fun w => Ok (a, w).

Definition bind {A B} (m : M A) (f : A -> M B) : M B :=
  fun w => match m w with
           | Ok (a, w') => f a w'
           | Fault e => Fault e
           end.

Definition fault {A} (e : AT_fault) : M A := fun _ => Fault e.

Definition lift {A} (r : AT_result A) : M A :=
  fun w => match r with Ok a => Ok (a, w) | Fault e => Fault e end.

Definition get_ctx : M AT_context_t := fun w => Ok (at_ctx w, w).

Definition modify_ctx (f : AT_context_t -> AT_context_t) : M unit :=
  fun w => Ok (tt, mk_world (f (at_ctx w)) (hw_tx w) (notified w)).

Declare Scope at_scope.
Delimit Scope at_scope with atcmd.
Notation "x <- m ;; k" := (bind m (fun x => k))
  (at level 61, m at next level, right associativity) : at_scope.
Notation "m ;; k" := (bind m (fun _ => k))
  (at level 61, right associativity) : at_scope.
(** [status = m; if (status != AT_SUCCESS) goto errors; k] where the
    label returns [status]. *)
Notation "'check' m ;; k" :=
  (bind m (fun status => if is_success status then k else ret status))
  (at level 61, m at next level, right associativity) : at_scope.
Open Scope at_scope.

(** *** Field updates *)

Definition set_process (b : bool) (f : AT_flags_t) : AT_flags_t :=
  mk_flags b (pending f) (quiet f) (verbose f) (echo f).
Definition set_pending (b : bool) (f : AT_flags_t) : AT_flags_t :=
  mk_flags (process f) b (quiet f) (verbose f) (echo f).
Definition set_quiet (b : bool) (f : AT_flags_t) : AT_flags_t :=
  mk_flags (process f) (pending f) b (verbose f) (echo f).
Definition set_verbose (b : bool) (f : AT_flags_t) : AT_flags_t :=
  mk_flags (process f) (pending f) (quiet f) b (echo f).
Definition set_echo (b : bool) (f : AT_flags_t) : AT_flags_t :=
  mk_flags (process f) (pending f) (quiet f) (verbose f) b.

Definition with_process_callback (v : option AT_process_cb_t) (c : AT_context_t) :=
  mk_ctx v (flags c) (rx_buffer c) (rx_buffer_size c)
         (current_command c) (commands_list c) (commands_count c).
Definition with_flags (v : AT_flags_t) (c : AT_context_t) :=
  mk_ctx (process_callback c) v (rx_buffer c) (rx_buffer_size c)
         (current_command c) (commands_list c) (commands_count c).
Definition with_rx_buffer (v : list ascii) (c : AT_context_t) :=
  mk_ctx (process_callback c) (flags c) v (rx_buffer_size c)
         (current_command c) (commands_list c) (commands_count c).
Definition with_rx_buffer_size (v : nat) (c : AT_context_t) :=
  mk_ctx (process_callback c) (flags c) (rx_buffer c) v
         (current_command c) (commands_list c) (commands_count c).
Definition with_current_command (v : option AT_command_ref) (c : AT_context_t) :=
  mk_ctx (process_callback c) (flags c) (rx_buffer c) (rx_buffer_size c)
         v (commands_list c) (commands_count c).
Definition with_commands_list (v : list (option AT_command_ref)) (c : AT_context_t) :=
  mk_ctx (process_callback c) (flags c) (rx_buffer c) (rx_buffer_size c)
         (current_command c) v (commands_count c).
Definition with_commands_count (v : list Z) (c : AT_context_t) :=
  mk_ctx (process_callback c) (flags c) (rx_buffer c) (rx_buffer_size c)
         (current_command c) (commands_list c) v.

Definition modify_flags (f : AT_flags_t -> AT_flags_t) : M unit :=
  modify_ctx (fun c => with_flags (f (flags c)) c).

(** *** Array cells: [a[i]] and [a[i] = v] fault outside the object. *)

Definition load {A} (a : list A) (i : nat) : AT_result A :=
  match nth_error a i with
  | Some v => Ok v
  | None => Fault OutOfBounds
  end.

Fixpoint store {A} (a : list A) (i : nat) (v : A) : AT_result (list A) :=
  match a, i with
  | [], _ => Fault OutOfBounds
  | _ :: t, O => Ok (v :: t)
  | h :: t, S j =>
      match store t j v with
      | Ok t' => Ok (h :: t')
      | Fault e => Fault e
      end
  end.

(** [strlen]: the number of bytes before the first terminator. *)
Fixpoint strlen (s : list ascii) : AT_result nat :=
  match s with
  | [] => Fault OutOfBounds
  | c :: t =>
      if Ascii.eqb c NUL then Ok 0
      else match strlen t with
           | Ok n => Ok (S n)
           | Fault e => Fault e
           end
  end.

(** [memcmp(a, b, n) == 0], as the byte loop that stops at the first
    difference. *)
Fixpoint memcmp_eq (a b : list ascii) (n : nat) {struct n} : AT_result bool :=
  match n with
  | O => Ok true
  | S m =>
      match a, b with
      | x :: a', y :: b' =>
          if Ascii.eqb x y then memcmp_eq a' b' m else Ok false
      | _, _ => Fault OutOfBounds
      end
  end.

(** ** at.h: callbacks and descriptors

    A callback runs in the world and may fault.  It receives the value
    stored in [*error_code] on entry and returns the value it leaves
    there.  [argv] is the ten-cell array of the dispatcher; the cells of a
    present argument designate the token and its terminator. *)

Definition AT_command_execution_cb_t := Z -> M (AT_status_t * Z).
Definition AT_command_read_cb_t := Z -> M (AT_status_t * Z).
Definition AT_command_write_cb_t := nat -> list c_ptr -> Z -> M (AT_status_t * Z).
Definition AT_command_error_enum_to_str_cb_t := Z -> c_ptr.

Record AT_config_t := mk_config {
  default_quiet_flag : Z;
  default_verbose_flag : Z;
  default_echo_flag : Z;
  config_process_callback : option AT_process_cb_t
}.

Record AT_command_t := mk_command {
  syntax : c_ptr;
  type : AT_command_type_t;
  help : c_ptr;
  execution_callback : option AT_command_execution_cb_t;
  execution_help : c_ptr;
  read_callback : option AT_command_read_cb_t;
  read_help : c_ptr;
  write_callback : option AT_command_write_cb_t;
  write_arguments : c_ptr;
  write_help : c_ptr;
  enum_to_str_callback : option AT_command_error_enum_to_str_cb_t
}.

(** ** libc: [sscanf(s, "%d", &v)] and the [snprintf] conversions

    Modelled from the C library: leading white space, an optional sign,
    then at least one decimal digit.  [None] stands for a return value
    other than 1.  A value outside [int] is not representable. *)

Definition isspace (c : ascii) : bool :=
  let n := nat_of_ascii c in (n =? 32) || ((9 <=? n) && (n <=? 13)).

Definition isdigit (c : ascii) : bool :=
  let n := nat_of_ascii c in (48 <=? n) && (n <=? 57).

Definition digit_value (c : ascii) : Z := Z.of_nat (nat_of_ascii c - 48).

Fixpoint scan_digits (s : list ascii) (acc : option Z) : AT_result (option Z) :=
  match s with
  | [] => Fault OutOfBounds
  | c :: t =>
      if isdigit c then
        scan_digits t
          (Some (10 * match acc with Some v => v | None => 0 end + digit_value c)%Z)
      else Ok acc
  end.

Fixpoint skip_spaces (s : list ascii) : list ascii :=
  match s with
  | c :: t => if isspace c then skip_spaces t else s
  | [] => []
  end.

Definition INT_MIN : Z := (- 2 ^ 31)%Z.
Definition INT_MAX : Z := (2 ^ 31 - 1)%Z.

Definition sscanf_d (s : list ascii) : AT_result (option Z) :=
  let s1 := skip_spaces s in
  let '(negative, s2) :=
    match s1 with
    | c :: t =>
        if Ascii.eqb c "-"%char then (true, t)
        else if Ascii.eqb c "+"%char then (false, t)
        else (false, s1)
    | [] => (false, s1)
    end in
  match scan_digits s2 None with
  | Fault e => Fault e
  | Ok None => Ok None
  | Ok (Some v) =>
      let v' := if negative then (- v)%Z else v in
      if ((INT_MIN <=? v') && (v' <=? INT_MAX))%Z then Ok (Some v')
      else Fault Unrepresentable
  end.

Definition digit_char (upper : bool) (d : N) : ascii :=
  if (d <? 10)%N then ascii_of_N (48 + d)
  else ascii_of_N ((if upper then 55 else 87) + d).

Fixpoint digits_rev (base : N) (upper : bool) (fuel : nat) (n : N) : list ascii :=
  match fuel with
  | O => []
  | S f =>
      if (n <? base)%N then [digit_char upper n]
      else digit_char upper (n mod base) :: digits_rev base upper f (n / base)
  end.

Definition digits (base : N) (upper : bool) (n : N) : list ascii :=
  rev (digits_rev base upper (S (N.to_nat (N.size n))) n).

(** ["%d"] and ["%ld"]. *)
Definition format_d (v : Z) : list ascii :=
  if (v <? 0)%Z then "-"%char :: digits 10 false (Z.to_N (- v))
  else digits 10 false (Z.to_N v).

(** ["%02X"] of [(unsigned int) v]. *)
Definition format_02X (v : Z) : list ascii :=
  let d := digits 16 true (Z.to_N (v mod 2 ^ 32)) in
  repeat "0"%char (2 - length d) ++ d.

(** [snprintf(tx_buffer, AT_BUFFER_SIZE, ...)] into a zeroed buffer: the
    buffer afterwards and the returned length of the whole text. *)
Definition snprintf (text : list ascii) : list ascii * nat :=
  let kept := firstn (AT_BUFFER_SIZE - 1) text in
  (kept ++ repeat NUL (AT_BUFFER_SIZE - length kept), length text).

(** ** at.c: local functions *)

Definition notify (h : AT_process_cb_t) : M unit :=
  fun w => Ok (tt, mk_world (at_ctx w) (hw_tx w) (notified w ++ [h])).

Definition _rx_irq_callback (data : ascii) : M unit :=
  ctx <- get_ctx ;;
  (* Ignore null data and if processing pending. *)
  if Ascii.eqb data NUL || pending (flags ctx) then ret tt
  else if Ascii.eqb data AT_COMMAND_MARKER_END then
    modify_flags (set_process true) ;;
    modify_flags (set_pending true) ;;
    match process_callback ctx with
    | Some h => notify h
    | None => ret tt
    end
  else
    buf <- lift (store (rx_buffer ctx) (rx_buffer_size ctx) data) ;;
    modify_ctx (with_rx_buffer buf) ;;
    modify_ctx (with_rx_buffer_size ((rx_buffer_size ctx + 1) mod AT_BUFFER_SIZE)).

(** The result carries the value of [*bit] on return. *)
Definition _parse_bit (argc : nat) (argv : list c_ptr) (bit : Z)
  : AT_result (AT_status_t * Z) :=
  if negb (argc =? 1) then
    Ok (AT_ERROR_EXTERNAL_COMMAND_BAD_PARAMETER_NUMBER, bit)
  else
    match load argv 0 with
    | Fault e => Fault e
    | Ok None => Fault NullDereference
    | Ok (Some s) =>
        match sscanf_d s with
        | Fault e => Fault e
        | Ok None => Ok (AT_ERROR_EXTERNAL_COMMAND_BAD_PARAMETER_PARSING, bit)
        | Ok (Some tmp_int) =>
            if (tmp_int >? 1)%Z then
              Ok (AT_ERROR_EXTERNAL_COMMAND_BAD_PARAMETER_VALUE, bit)
            else
              (* *bit = (uint8_t) tmp_int *)
              Ok (AT_SUCCESS, (tmp_int mod 256)%Z)
        end
    end.

(** Assignment of a [uint8_t] to a one-bit field keeps the low bit. *)
Definition bitfield1 (v : Z) : bool := Z.odd v.

Definition _echo_execution_callback : AT_command_execution_cb_t :=
  fun _ => modify_flags (set_echo false) ;; ret (AT_SUCCESS, 0%Z).

Definition _echo_write_callback : AT_command_write_cb_t :=
  fun argc argv _ =>
    r <- lift (_parse_bit argc argv 0) ;;
    if is_success (fst r) then
      modify_flags (set_echo (bitfield1 (snd r))) ;; ret (AT_SUCCESS, 0%Z)
    else ret (fst r, 0%Z).

Definition _verbose_execution_callback : AT_command_execution_cb_t :=
  fun _ => modify_flags (set_verbose false) ;; ret (AT_SUCCESS, 0%Z).

Definition _verbose_write_callback : AT_command_write_cb_t :=
  fun argc argv _ =>
    r <- lift (_parse_bit argc argv 0) ;;
    if is_success (fst r) then
      modify_flags (set_verbose (bitfield1 (snd r))) ;; ret (AT_SUCCESS, 0%Z)
    else ret (fst r, 0%Z).

Definition _quiet_execution_callback : AT_command_execution_cb_t :=
  fun _ => modify_flags (set_quiet false) ;; ret (AT_SUCCESS, 0%Z).

Definition _quiet_write_callback : AT_command_write_cb_t :=
  fun argc argv _ =>
    r <- lift (_parse_bit argc argv 0) ;;
    if is_success (fst r) then
      modify_flags (set_quiet (bitfield1 (snd r))) ;; ret (AT_SUCCESS, 0%Z)
    else ret (fst r, 0%Z).

(** *** at.c: local global variables *)

Definition AT_COMMAND_HEADER (t : AT_command_type_t) : AT_result ascii :=
  load [AT_COMMAND_HEADER_BASIC; AT_COMMAND_HEADER_EXTENDED; AT_COMMAND_HEADER_DEBUG]
       (AT_command_type_index t).

Definition AT_COMMAND_ECHO : AT_command_t := {|
  syntax := c_str "E";
  type := AT_COMMAND_TYPE_BASIC;
  help := c_str "Interface echo control";
  execution_callback := Some _echo_execution_callback;
  execution_help := c_str "Disable echo";
  read_callback := None;
  read_help := None;
  write_callback := Some _echo_write_callback;
  write_arguments := c_str "<enable>";
  write_help := c_str "Enable (1) or disable (0) echo";
  enum_to_str_callback := None
|}.

Definition AT_COMMAND_VERBOSE : AT_command_t := {|
  syntax := c_str "V";
  type := AT_COMMAND_TYPE_BASIC;
  help := c_str "Interface verbosity level";
  execution_callback := Some _verbose_execution_callback;
  execution_help := c_str "Disable verbose mode";
  read_callback := None;
  read_help := None;
  write_callback := Some _verbose_write_callback;
  write_arguments := c_str "<enable>";
  write_help := c_str "Enable (1) or disable (0) verbose mode";
  enum_to_str_callback := None
|}.

Definition AT_COMMAND_QUIET : AT_command_t := {|
  syntax := c_str "Q";
  type := AT_COMMAND_TYPE_BASIC;
  help := c_str "Interface quiet mode control";
  execution_callback := Some _quiet_execution_callback;
  execution_help := c_str "Disable quiet mode";
  read_callback := None;
  read_help := None;
  write_callback := Some _quiet_write_callback;
  write_arguments := c_str "<enable>";
  write_help := c_str "Enable (1) or disable (0) quiet mode";
  enum_to_str_callback := None
|}.

Definition at_ctx_initial : AT_context_t := {|
  process_callback := None;
  flags := mk_flags false false false false false;
  rx_buffer := repeat NUL AT_BUFFER_SIZE;
  rx_buffer_size := 0;
  current_command := None;
  commands_list := repeat None AT_COMMAND_LIST_SIZE;
  commands_count := [0; 0; 0]%Z
|}.

(** ** Example data

    A transport that accepts every write, an application without
    descriptors and one whose descriptors are all the same plain command,
    the context that [AT_init] leaves, and worlds built on it. *)

Definition hw_ok : list ascii -> AT_status_t := fun _ => AT_SUCCESS.

Definition absent_command : AT_command_t :=
  mk_command None AT_COMMAND_TYPE_LAST None None None None None None None None None.

Definition no_user_commands : nat -> AT_command_t := fun _ => absent_command.

Definition named_command (name : string) : AT_command_t := {|
  syntax := c_str name;
  type := AT_COMMAND_TYPE_EXTENDED;
  help := c_str "Example command";
  execution_callback := None;
  execution_help := None;
  read_callback := None;
  read_help := None;
  write_callback := None;
  write_arguments := None;
  write_help := None;
  enum_to_str_callback := None
|}.

Definition plain_command : AT_command_t := named_command "X".

Definition plain_user_commands : nat -> AT_command_t := fun _ => plain_command.

(** Two Extended commands whose syntaxes are ["A"] and ["AB"]. *)
Definition prefix_user_commands : nat -> AT_command_t :=
  fun n => match n with 0 => named_command "A" | _ => named_command "AB" end.

(** An Extended command whose syntax pointer is null, and one whose
    error names are 110 characters long. *)
Definition nameless_command : AT_command_t :=
  mk_command None AT_COMMAND_TYPE_EXTENDED None None None None None None None
             None None.

Definition nameless_user_commands : nat -> AT_command_t := fun _ => nameless_command.

Definition long_name : list ascii := repeat "x"%char 110 ++ [NUL].

Definition long_name_command : AT_command_t :=
  mk_command (c_str "X") AT_COMMAND_TYPE_EXTENDED (c_str "Example command")
             None None None None None None None (Some (fun _ => Some long_name)).

Definition long_name_user_commands : nat -> AT_command_t :=
  fun _ => long_name_command.

Definition builtin_slots : list (option AT_command_ref) :=
  Some (Builtin BUILTIN_ECHO) :: Some (Builtin BUILTIN_VERBOSE)
  :: Some (Builtin BUILTIN_QUIET) :: repeat None (AT_COMMAND_LIST_SIZE - 3).

(** The line buffer that holds the characters of [line]. *)
Definition line_cells (line : string) : list ascii :=
  text_of line ++ repeat NUL (AT_BUFFER_SIZE - length (text_of line)).

(** After [AT_init] with the given quiet, verbose and echo flags. *)
Definition idle_world (q v e : bool) : AT_world :=
  mk_world
    (mk_ctx (Some 0) (mk_flags false false q v e) (repeat NUL AT_BUFFER_SIZE) 0
            None builtin_slots [3; 0; 0]%Z)
    [] [].

(** The same once [line] and its terminator have been received. *)
Definition ready_world (q v e : bool) (line : string) : AT_world :=
  mk_world
    (mk_ctx (Some 0) (mk_flags true true q v e) (line_cells line)
            (length (text_of line)) None builtin_slots [3; 0; 0]%Z)
    [] [0].

(** The world [w] once the Extended descriptor at application address 0
    has been registered after the built-in commands. *)
Definition user_slots : list (option AT_command_ref) :=
  Some (Builtin BUILTIN_ECHO) :: Some (Builtin BUILTIN_VERBOSE)
  :: Some (Builtin BUILTIN_QUIET) :: Some (User 0)
  :: repeat None (AT_COMMAND_LIST_SIZE - 4).

Definition with_user_command (w : AT_world) : AT_world :=
  mk_world (with_commands_count [3; 1; 0]%Z (with_commands_list user_slots (at_ctx w)))
           (hw_tx w) (notified w).

(** Every slot holds an application descriptor. *)
Definition full_world : AT_world :=
  mk_world
    (mk_ctx None (mk_flags false false false false false)
            (repeat NUL AT_BUFFER_SIZE) 0 None
            (map (fun n => Some (User n)) (seq 0 AT_COMMAND_LIST_SIZE))
            [0; 64; 0]%Z)
    [] [].

(** The worlds that differ from [w] in the flags, in the current command
    or in the line buffer only. *)
Definition world_with_flags (f : AT_flags_t -> AT_flags_t) (w : AT_world) : AT_world :=
  mk_world (with_flags (f (flags (at_ctx w))) (at_ctx w)) (hw_tx w) (notified w).

Definition world_with_current (c : option AT_command_ref) (w : AT_world) : AT_world :=
  mk_world (with_current_command c (at_ctx w)) (hw_tx w) (notified w).

Definition world_with_buffer (b : list ascii) (w : AT_world) : AT_world :=
  mk_world (with_rx_buffer b (at_ctx w)) (hw_tx w) (notified w).

Ltac list_arith :=
  unfold AT_COMMAND_PARAMETER_MAX_NUMBER in *;
  repeat rewrite ?length_app, ?repeat_length in *;
  cbn [length] in *; lia.

Ltac run_monad :=
  unfold bind, ret, lift, fault, get_ctx, modify_flags, modify_ctx, notify in *;
  simpl in *.

Section AT.

(** ** at_hw_api.h and the application

    The hardware layer and the application's descriptors are not part
    of at.c.  The status returned by [AT_HW_API_write] for given bytes,
    the statuses returned by [AT_HW_API_init] and [AT_HW_API_de_init],
    and the descriptor stored at each application address are
    parameters. *)

Variable AT_HW_API_write_status : list ascii -> AT_status_t.
Variable AT_HW_API_init_status : AT_status_t.
Variable AT_HW_API_de_init_status : AT_status_t.
Variable user_commands : nat -> AT_command_t.

Definition AT_HW_API_write (data : list ascii) : M AT_status_t :=
  fun w => Ok (AT_HW_API_write_status data,
               mk_world (at_ctx w) (hw_tx w ++ data) (notified w)).

Definition AT_HW_API_init : M AT_status_t := ret AT_HW_API_init_status.

Definition AT_HW_API_de_init : M AT_status_t := ret AT_HW_API_de_init_status.

(** [command->...]: the descriptor behind a non-null pointer. *)
Definition AT_deref (r : AT_command_ref) : AT_command_t :=
  match r with
  | Builtin BUILTIN_ECHO => AT_COMMAND_ECHO
  | Builtin BUILTIN_VERBOSE => AT_COMMAND_VERBOSE
  | Builtin BUILTIN_QUIET => AT_COMMAND_QUIET
  | User n => user_commands n
  end.

(** *** Printing *)

Definition _print_tab (tab : list ascii) (tab_size : nat) : M AT_status_t :=
  ctx <- get_ctx ;;
  (* Check quiet flag. *)
  if quiet (flags ctx) || (tab_size =? 0) then ret AT_SUCCESS
  else if tab_size <=? length tab then AT_HW_API_write (firstn tab_size tab)
  else fault OutOfBounds.

Definition _print (text : c_ptr) : M AT_status_t :=
  match text with
  | None => fault NullDereference
  | Some s => n <- lift (strlen s) ;; _print_tab s n
  end.

Definition _end_line : M AT_status_t := _print_tab AT_REPLY_END 2.

Definition _print_line (line : c_ptr) : M AT_status_t :=
  check _print line ;;
  _end_line.

(** The text that [snprintf] formats for a failure in verbose mode. *)
Definition status_text (at_status : AT_status_t) (error_code : Z)
  : M (list ascii) :=
  match at_status with
  | AT_ERROR_INTERNAL_COMMAND_PARSING => ret (text_of "COMMAND_PARSING")
  | AT_ERROR_INTERNAL_COMMAND_NOT_FOUND => ret (text_of "COMMAND_NOT_FOUND")
  | AT_ERROR_INTERNAL_COMMAND_MARKER_NOT_DEFINED => ret (text_of "COMMAND_MARKER_NOT_DEFINED")
  | AT_ERROR_INTERNAL_COMMAND_EXECUTION_NOT_DEFINED => ret (text_of "COMMAND_EXECUTION_NOT_DEFINED")
  | AT_ERROR_INTERNAL_COMMAND_WRITE_NOT_DEFINED => ret (text_of "COMMAND_WRITE_NOT_DEFINED")
  | AT_ERROR_INTERNAL_COMMAND_READ_NOT_DEFINED => ret (text_of "COMMAND_READ_NOT_DEFINED")
  | AT_ERROR_EXTERNAL_COMMAND_BAD_PARAMETER_NUMBER =>
      ret (text_of "COMMAND_BAD_PARAMETER_NUMBER:" ++ format_d error_code)
  | AT_ERROR_EXTERNAL_COMMAND_BAD_PARAMETER_PARSING =>
      ret (text_of "COMMAND_BAD_PARAMETER_PARSING:" ++ format_d error_code)
  | AT_ERROR_EXTERNAL_COMMAND_BAD_PARAMETER_VALUE =>
      ret (text_of "COMMAND_BAD_PARAMETER_VALUE:" ++ format_d error_code)
  | AT_ERROR_EXTERNAL_COMMAND_CORE_ERROR =>
      ctx <- get_ctx ;;
      match current_command ctx with
      | None => fault NullDereference
      | Some r =>
          match enum_to_str_callback (AT_deref r) with
          | Some cb =>
              match cb (error_code mod 2 ^ 32)%Z with
              | None => fault NullDereference
              | Some s =>
                  n <- lift (strlen s) ;;
                  ret (text_of "COMMAND_CORE_ERROR:" ++ firstn n s)
              end
          | None =>
              ret (text_of "COMMAND_CORE_ERROR:0x" ++ format_02X error_code)
          end
      end
  | _ =>
      ret (text_of "UNKNOWN:" ++ format_d (AT_status_value at_status))
  end.

Definition _print_command_status (at_status : AT_status_t) (error_code : Z)
  : M unit :=
  ctx <- get_ctx ;;
  (* tx_buffer and reply_size *)
  formatted <-
    (if negb (verbose (flags ctx)) then
       (* Print status as numerical value. *)
       ret (snprintf (format_d (AT_status_value at_status)))
     else if is_success at_status then
       _print (c_str "OK") ;; ret (repeat NUL AT_BUFFER_SIZE, 0)
     else
       _print (c_str "ERROR:") ;;
       text <- status_text at_status error_code ;;
       ret (snprintf text)) ;;
  _print_tab (fst formatted) (snd formatted) ;;
  _end_line ;;
  ret tt.

(** *** Tokenizer: [strtok_r] and the argument loops *)

Definition is_separator (c : ascii) : bool :=
  Ascii.eqb c AT_COMMAND_PARAMETER_SEPARATOR.

(** The characters of a token, the cell that ends it, and what follows. *)
Fixpoint strtok_token (s : list ascii)
  : AT_result (list ascii * ascii * list ascii) :=
  match s with
  | [] => Fault OutOfBounds
  | c :: t =>
      if is_separator c || Ascii.eqb c NUL then Ok ([], c, t)
      else match strtok_token t with
           | Ok (tok, d, rest) => Ok (c :: tok, d, rest)
           | Fault e => Fault e
           end
  end.

(** [strtok_r(content, separators, &content)] on the cells from
    [content] on: the token if any, the cells left behind [content]
    (a separator that ends the token is overwritten by a terminator), and
    the cells from the new [content] on.  The save pointer is left on the
    terminator when the token ends the string, as the GNU C library
    leaves it. *)
Fixpoint strtok_r (s : list ascii)
  : AT_result (option (list ascii) * list ascii * list ascii) :=
  match s with
  | [] => Fault OutOfBounds
  | c :: t =>
      if is_separator c then
        match strtok_r t with
        | Ok (tok, behind, rest) => Ok (tok, c :: behind, rest)
        | Fault e => Fault e
        end
      else if Ascii.eqb c NUL then Ok (None, [], s)
      else
        match strtok_token s with
        | Ok (tok, d, rest) =>
            if Ascii.eqb d NUL then Ok (Some tok, tok, d :: rest)
            else Ok (Some tok, tok ++ [NUL], rest)
        | Fault e => Fault e
        end
  end.

(** The loop that stores a null argument for every separator found at
    [content] and steps over it. *)
Fixpoint skip_separators (argv : list c_ptr) (argc : nat) (s : list ascii)
  : AT_result (list c_ptr * nat * list ascii * list ascii) :=
  match s with
  | [] => Fault OutOfBounds
  | c :: t =>
      if is_separator c then
        match store argv argc None with
        | Ok argv' =>
            match skip_separators argv' (S argc) t with
            | Ok (a, n, behind, rest) => Ok (a, n, c :: behind, rest)
            | Fault e => Fault e
            end
        | Fault e => Fault e
        end
      else Ok (argv, argc, [], s)
  end.

(** The loop over [strtok_r] with its inner separator loop.  Every round
    consumes a cell, so a [fuel] above the number of cells is never used
    up. *)
Fixpoint parse_parameters (fuel : nat) (argv : list c_ptr) (argc : nat)
         (behind s : list ascii) : AT_result (list c_ptr * nat * list ascii) :=
  match fuel with
  | O => Fault OutOfBounds
  | S f =>
      match strtok_r s with
      | Fault e => Fault e
      | Ok (None, b, rest) => Ok (argv, argc, behind ++ b ++ rest)
      | Ok (Some parameter, b, rest) =>
          match store argv argc (Some (parameter ++ [NUL])) with
          | Fault e => Fault e
          | Ok argv1 =>
              match skip_separators argv1 (S argc) rest with
              | Fault e => Fault e
              | Ok (argv2, argc2, b2, rest2) =>
                  parse_parameters f argv2 argc2 (behind ++ b ++ b2) rest2
              end
          end
      end
  end.

(** The argument array, the argument count and the cells after the
    loops, for the cells from [content] on. *)
Definition tokenize (s : list ascii) : AT_result (list c_ptr * nat * list ascii) :=
  match skip_separators (repeat None AT_COMMAND_PARAMETER_MAX_NUMBER) 0 s with
  | Fault e => Fault e
  | Ok (argv, argc, behind, rest) =>
      parse_parameters (S (length rest)) argv argc behind rest
  end.

(** *** Dispatcher *)

(** The search loop of [_parse_and_execute_command] over the slots in
    index order: the first descriptor found and the length of its
    syntax ([command_size]). *)
Fixpoint search_command (input_command : list ascii) (t : AT_command_type_t)
         (slots : list (option AT_command_ref))
  : AT_result (option (AT_command_ref * nat)) :=
  match slots with
  | [] => Ok None
  | None :: rest => search_command input_command t rest
  | Some r :: rest =>
      if negb (AT_command_type_eqb (type (AT_deref r)) t) then
        search_command input_command t rest
      else
        match syntax (AT_deref r) with
        | None => Fault NullDereference
        | Some s =>
            match strlen s with
            | Fault e => Fault e
            | Ok command_size =>
                match memcmp_eq input_command s command_size with
                | Fault e => Fault e
                | Ok true => Ok (Some (r, command_size))
                | Ok false => search_command input_command t rest
                end
            end
        end
  end.

(** [input_command] is [&at_ctx.rx_buffer[start]].  The result carries
    the value left in [*command_return_code]. *)
Definition _parse_and_execute_command (start : nat) (t : AT_command_type_t)
           (command_return_code : Z) : M (AT_status_t * Z) :=
  (* Reset current command. *)
  modify_ctx (with_current_command None) ;;
  ctx <- get_ctx ;;
  let input_command := skipn start (rx_buffer ctx) in
  (* Search command in list. *)
  found <- lift (search_command input_command t (commands_list ctx)) ;;
  match found with
  | None => ret (AT_ERROR_INTERNAL_COMMAND_NOT_FOUND, command_return_code)
  | Some (r, command_size) =>
      modify_ctx (with_current_command (Some r)) ;;
      (* Check marker. *)
      marker <- lift (load input_command command_size) ;;
      if Ascii.eqb marker AT_COMMAND_MARKER_EXECUTION then
        match execution_callback (AT_deref r) with
        | None =>
            ret (AT_ERROR_INTERNAL_COMMAND_EXECUTION_NOT_DEFINED, command_return_code)
        | Some cb => cb command_return_code
        end
      else if Ascii.eqb marker AT_COMMAND_MARKER_READ_HELP then
        match read_callback (AT_deref r) with
        | None =>
            ret (AT_ERROR_INTERNAL_COMMAND_READ_NOT_DEFINED, command_return_code)
        | Some cb => cb command_return_code
        end
      else if Ascii.eqb marker AT_COMMAND_MARKER_WRITE
              || AT_command_type_eqb t AT_COMMAND_TYPE_BASIC then
        match write_callback (AT_deref r) with
        | None =>
            ret (AT_ERROR_INTERNAL_COMMAND_WRITE_NOT_DEFINED, command_return_code)
        | Some cb =>
            let content :=
              if AT_command_type_eqb t AT_COMMAND_TYPE_BASIC
              then start + command_size
              else start + command_size + 1 in
            (* Search parameters, parse parameter. *)
            parsed <- lift (tokenize (skipn content (rx_buffer ctx))) ;;
            let '(command_argv, command_argc, cells) := parsed in
            modify_ctx (with_rx_buffer (firstn content (rx_buffer ctx) ++ cells)) ;;
            (* Execute command. *)
            cb command_argc command_argv command_return_code
        end
      else ret (AT_ERROR_INTERNAL_COMMAND_MARKER_NOT_DEFINED, command_return_code)
  end.

(** *** Help *)

Definition _print_command_header (t : AT_command_type_t) : M AT_status_t :=
  match t with
  | AT_COMMAND_TYPE_LAST => ret AT_ERROR_COMMAND_TYPE
  | _ =>
      c <- lift (AT_COMMAND_HEADER t) ;;
      _print (Some [c; NUL])
  end.

(** The lines of [_print_help] for one call form: the header, ["AT"],
    the kind character, the syntax, the marker if any, the arguments if
    any, [" : "] and the help text. *)
Definition print_help_form (d : AT_command_t) (t : AT_command_type_t)
           (marker : option ascii) (arguments : option c_ptr) (text : c_ptr)
  : M AT_status_t :=
  check _print AT_COMMAND_HEADER_HELP ;;
  check _print AT_HEADER ;;
  check _print_command_header t ;;
  check _print (syntax d) ;;
  check (match marker with
         | Some m => _print (Some [m; NUL])
         | None => ret AT_SUCCESS
         end) ;;
  check (match arguments with
         | Some a => _print a
         | None => ret AT_SUCCESS
         end) ;;
  check _print (c_str " : ") ;;
  _print_line text.

(** The body of the commands loop of [_print_help] for one slot. *)
Definition print_help_slot (t : AT_command_type_t) (slot : option AT_command_ref)
  : M AT_status_t :=
  match slot with
  | None => ret AT_SUCCESS
  | Some r =>
      let d := AT_deref r in
      if negb (AT_command_type_eqb (type d) t) then ret AT_SUCCESS
      else
        (* Print common syntax. *)
        check _print (c_str "    ") ;;
        check _print (syntax d) ;;
        check _print (c_str " : ") ;;
        check _print_line (help d) ;;
        (* Execution callback. *)
        check (match execution_callback d with
               | Some _ => print_help_form d t None None (execution_help d)
               | None => ret AT_SUCCESS
               end) ;;
        (* Write callback. *)
        check (match write_callback d with
               | Some _ =>
                   print_help_form d t
                     (if AT_command_type_eqb t AT_COMMAND_TYPE_BASIC then None
                      else Some AT_COMMAND_MARKER_WRITE)
                     (Some (write_arguments d)) (write_help d)
               | None => ret AT_SUCCESS
               end) ;;
        (* Read callback. *)
        match read_callback d with
        | Some _ =>
            print_help_form d t (Some AT_COMMAND_MARKER_READ_HELP) None (read_help d)
        | None => ret AT_SUCCESS
        end
  end.

Fixpoint print_help_loop (t : AT_command_type_t)
         (slots : list (option AT_command_ref)) : M AT_status_t :=
  match slots with
  | [] => ret AT_SUCCESS
  | slot :: rest =>
      check print_help_slot t slot ;;
      print_help_loop t rest
  end.

Definition _print_help (t : AT_command_type_t) : M AT_status_t :=
  ctx <- get_ctx ;;
  count <- lift (load (commands_count ctx) (AT_command_type_index t)) ;;
  (* Check number of registered commands. *)
  if (count =? 0)%Z then _print_line (c_str "    None")
  else print_help_loop t (commands_list ctx).

(** *** Registry *)

(** The first loop of [AT_register_command]: is the pointer in a slot? *)
Fixpoint is_registered (command : option AT_command_ref)
         (slots : list (option AT_command_ref)) : bool :=
  match slots with
  | [] => false
  | slot :: rest => if ptr_eqb slot command then true else is_registered command rest
  end.

(** The second loop: the slots with the pointer in the first free one,
    or nothing when the loop ends without finding one. *)
Fixpoint fill_first_free (command : option AT_command_ref)
         (slots : list (option AT_command_ref))
  : option (list (option AT_command_ref)) :=
  match slots with
  | [] => None
  | None :: rest => Some (command :: rest)
  | Some r :: rest =>
      match fill_first_free command rest with
      | Some rest' => Some (Some r :: rest')
      | None => None
      end
  end.

(** [commands_count[t]++] and [commands_count[t]--] on [uint8_t]. *)
Definition count_add (delta : Z) (t : AT_command_type_t) (counts : list Z)
  : AT_result (list Z) :=
  match load counts (AT_command_type_index t) with
  | Fault e => Fault e
  | Ok c => store counts (AT_command_type_index t) ((c + delta) mod 256)%Z
  end.

Definition AT_register_command (command : option AT_command_ref) : M AT_status_t :=
  match command with
  | None => ret AT_ERROR_NULL_PARAMETER
  | Some r =>
      let d := AT_deref r in
      match write_callback d, write_arguments d with
      | Some _, None => ret AT_ERROR_WRITE_CALLBACK_WITHOUT_PARAMETER
      | _, _ =>
          match type d with
          | AT_COMMAND_TYPE_LAST => ret AT_ERROR_COMMAND_TYPE
          | t =>
              ctx <- get_ctx ;;
              (* Check if command is already registered. *)
              if is_registered command (commands_list ctx) then
                ret AT_ERROR_COMMAND_ALREADY_REGISTERED
              else
                (* Search free location in list. *)
                match fill_first_free command (commands_list ctx) with
                | Some slots =>
                    modify_ctx (with_commands_list slots) ;;
                    counts <- lift (count_add 1 t (commands_count ctx)) ;;
                    modify_ctx (with_commands_count counts) ;;
                    ret AT_SUCCESS
                | None =>
                    (* The loop ends; the function returns AT_SUCCESS. *)
                    ret AT_SUCCESS
                end
          end
      end
  end.

(** The loop of [AT_unregister_command]: the slots with the first slot
    that holds the pointer released, or nothing when none holds it. *)
Fixpoint release_first (command : option AT_command_ref)
         (slots : list (option AT_command_ref))
  : option (list (option AT_command_ref)) :=
  match slots with
  | [] => None
  | slot :: rest =>
      if ptr_eqb slot command then Some (None :: rest)
      else match release_first command rest with
           | Some rest' => Some (slot :: rest')
           | None => None
           end
  end.

Definition AT_unregister_command (command : option AT_command_ref) : M AT_status_t :=
  ctx <- get_ctx ;;
  match release_first command (commands_list ctx) with
  | Some slots =>
      (* Release index and exit. *)
      modify_ctx (with_commands_list slots) ;;
      match command with
      | None => fault NullDereference
      | Some r =>
          counts <- lift (count_add (-1) (type (AT_deref r)) (commands_count ctx)) ;;
          modify_ctx (with_commands_count counts) ;;
          ret AT_SUCCESS
      end
  | None => ret AT_ERROR_COMMAND_NOT_REGISTERED
  end.

Definition AT_init (config : AT_config_t) : M AT_status_t :=
  match config_process_callback config with
  | None => ret AT_ERROR_NULL_PARAMETER
  | Some h =>
      (* Init context. *)
      modify_flags (set_quiet (negb (default_quiet_flag config =? 0)%Z)) ;;
      modify_flags (set_verbose (negb (default_verbose_flag config =? 0)%Z)) ;;
      modify_flags (set_echo (negb (default_echo_flag config =? 0)%Z)) ;;
      modify_ctx (with_process_callback (Some h)) ;;
      (* Init hardware interface. *)
      check AT_HW_API_init ;;
      (* Register basic commands. *)
      check AT_register_command (Some (Builtin BUILTIN_ECHO)) ;;
      check AT_register_command (Some (Builtin BUILTIN_VERBOSE)) ;;
      check AT_register_command (Some (Builtin BUILTIN_QUIET)) ;;
      ret AT_SUCCESS
  end.

Definition AT_de_init : M AT_status_t :=
  (* Release hardware interface. *)
  status <- AT_HW_API_de_init ;;
  ret status.

(** *** Processing pass *)

Definition command_start_idx : nat := 2.

(** The part of [AT_process] between the echo and the [errors] label:
    the status and the command return code with which the label is
    reached. *)
Definition AT_process_line : M (AT_status_t * Z) :=
  let command_return_code := 0%Z in
  let returning (m : M AT_status_t) : M (AT_status_t * Z) :=
    status <- m ;; ret (status, command_return_code) in
  ctx <- get_ctx ;;
  (* Check header. *)
  header <- lift (match AT_HEADER with
                  | Some h => memcmp_eq (rx_buffer ctx) h command_start_idx
                  | None => Fault NullDereference
                  end) ;;
  if header then
    (* Check marker. *)
    marker <- lift (load (rx_buffer ctx) command_start_idx) ;;
    if Ascii.eqb marker AT_COMMAND_MARKER_EXECUTION then
      ret (AT_SUCCESS, command_return_code)
    else if Ascii.eqb marker AT_COMMAND_MARKER_READ_HELP then
      next <- lift (load (rx_buffer ctx) (command_start_idx + 1)) ;;
      if Ascii.eqb next AT_COMMAND_MARKER_EXECUTION then
        returning (
          check _print_line (c_str "Basic commands") ;;
          check _print_help AT_COMMAND_TYPE_BASIC ;;
          check _print_line (c_str "Extended commands") ;;
          check _print_help AT_COMMAND_TYPE_EXTENDED ;;
          check _print_line (c_str "Debug commands") ;;
          _print_help AT_COMMAND_TYPE_DEBUG)
      else ret (AT_ERROR_INTERNAL_COMMAND_PARSING, command_return_code)
    else if Ascii.eqb marker AT_COMMAND_HEADER_EXTENDED then
      _parse_and_execute_command (command_start_idx + 1)
        AT_COMMAND_TYPE_EXTENDED command_return_code
    else if Ascii.eqb marker AT_COMMAND_HEADER_DEBUG then
      _parse_and_execute_command (command_start_idx + 1)
        AT_COMMAND_TYPE_DEBUG command_return_code
    else
      _parse_and_execute_command command_start_idx
        AT_COMMAND_TYPE_BASIC command_return_code
  else ret (AT_ERROR_INTERNAL_COMMAND_PARSING, command_return_code).

(** After the [errors] label: the status line, then the reset.  The
    loop over the [AT_BUFFER_SIZE] cells of the array leaves all of them
    zero. *)
Definition AT_process_end (status : AT_status_t) (command_return_code : Z)
  : M AT_status_t :=
  (* Print status. *)
  _print_command_status status command_return_code ;;
  modify_flags (set_pending false) ;;
  (* Reset buffer. *)
  modify_ctx (with_rx_buffer (repeat NUL AT_BUFFER_SIZE)) ;;
  modify_ctx (with_rx_buffer_size 0) ;;
  ret status.

(** The pass from the cleared flag to the [errors] label. *)
Definition AT_process_body : M (AT_status_t * Z) :=
  ctx <- get_ctx ;;
  (* Clear flag. *)
  modify_flags (set_process false) ;;
  (* Echo; the status of the call is dropped. *)
  (if echo (flags ctx) then _print_line (Some (rx_buffer ctx)) ;; ret tt
   else ret tt) ;;
  AT_process_line.

Definition AT_process : M AT_status_t :=
  ctx <- get_ctx ;;
  (* Check process flag. *)
  if negb (process (flags ctx)) then ret AT_SUCCESS
  else
    r <- AT_process_body ;;
    AT_process_end (fst r) (snd r).

Definition AT_send_reply (command : option AT_command_ref) (reply : c_ptr)
  : M AT_status_t :=
  match reply with
  | None => ret AT_ERROR_NULL_PARAMETER
  | Some s =>
      first <- lift (load s 0) ;;
      if Ascii.eqb first NUL then ret AT_ERROR_NULL_PARAMETER
      else
        ctx <- get_ctx ;;
        (* Update current command pointer. *)
        let command_ptr :=
          match command with Some _ => command | None => current_command ctx end in
        check (match command_ptr with
               | Some r =>
                   (* Print header. *)
                   check _print_command_header (type (AT_deref r)) ;;
                   check _print (syntax (AT_deref r)) ;;
                   _print (c_str ":")
               | None => ret AT_SUCCESS
               end) ;;
        check _print reply ;;
        check _end_line ;;
        ret AT_SUCCESS
  end.

(** The transport delivers the bytes one by one. *)
Fixpoint AT_receive (bytes : list ascii) : M unit :=
  match bytes with
  | [] => ret tt
  | b :: rest => _rx_irq_callback b ;; AT_receive rest
  end.

(** A line arrives with its terminator and the scheduler runs the pass. *)
Definition AT_run (line : list ascii) : M AT_status_t :=
  AT_receive (line ++ [AT_COMMAND_MARKER_END]) ;; AT_process.

(** ** Vocabulary of the properties *)




(** The wording of the specification for the call form: the character
    [m] after the matched prefix of length [n] of descriptor [r] chooses
    the callback; the write callback receives the tokenized remainder. *)
Definition call_form (start : nat) (t : AT_command_type_t) (code : Z)
           (r : AT_command_ref) (n : nat) (m : ascii) : M (AT_status_t * Z) :=
  fun w =>
    let input := skipn start (rx_buffer (at_ctx w)) in
    let d := AT_deref r in
    let w1 := world_with_current (Some r) w in
    if Ascii.eqb m NUL then
      match execution_callback d with
      | Some cb => cb code w1
      | None => Ok ((AT_ERROR_INTERNAL_COMMAND_EXECUTION_NOT_DEFINED, code), w1)
      end
    else if Ascii.eqb m "?"%char then
      match read_callback d with
      | Some cb => cb code w1
      | None => Ok ((AT_ERROR_INTERNAL_COMMAND_READ_NOT_DEFINED, code), w1)
      end
    else if Ascii.eqb m "="%char || AT_command_type_eqb t AT_COMMAND_TYPE_BASIC then
      match write_callback d with
      | Some cb =>
          let skipped := if AT_command_type_eqb t AT_COMMAND_TYPE_BASIC then n else S n in
          match tokenize (skipn skipped input) with
          | Ok (argv, argc, cells) =>
              cb argc argv code
                 (world_with_buffer
                    (firstn (start + skipped) (rx_buffer (at_ctx w)) ++ cells) w1)
          | Fault e => Fault e
          end
      | None => Ok ((AT_ERROR_INTERNAL_COMMAND_WRITE_NOT_DEFINED, code), w1)
      end
    else Ok ((AT_ERROR_INTERNAL_COMMAND_MARKER_NOT_DEFINED, code), w1).

(** The wording of the specification: the positions of an argument
    string are its fields between separators; an empty field is an
    omitted argument; nothing follows the last separator when the last
    field is empty, and no slot stands for it. *)
Fixpoint split_fields (s : list ascii) : list (list ascii) :=
  match s with
  | [] => [[]]
  | c :: t =>
      if is_separator c then [] :: split_fields t
      else match split_fields t with
           | f :: fs => (c :: f) :: fs
           | [] => [[c]]
           end
  end.

Fixpoint drop_last_empty (fields : list (list ascii)) : list (list ascii) :=
  match fields with
  | [] => []
  | f :: rest =>
      match rest with
      | [] => match f with [] => [] | _ => [f] end
      | _ => f :: drop_last_empty rest
      end
  end.

Definition slot_of_field (f : list ascii) : c_ptr :=
  match f with
  | [] => None
  | _ => Some (f ++ [NUL])
  end.

Definition argument_slots (s : list ascii) : list c_ptr :=
  map slot_of_field (drop_last_empty (split_fields s)).

(** The argument array that holds [slots] in its first cells. *)
Definition argv_of (slots : list c_ptr) : list c_ptr :=
  slots ++ repeat None (AT_COMMAND_PARAMETER_MAX_NUMBER - length slots).

Definition separator_free (s : list ascii) : Prop :=
  forall c, In c s -> is_separator c = false.

(** A computation that only prints: the context and the notifications
    stay, bytes are appended to the transport, and none when the quiet
    flag is set. *)
Definition prints {A} (m : M A) : Prop :=
  forall w a w', m w = Ok (a, w') ->
    at_ctx w' = at_ctx w /\ notified w' = notified w
    /\ exists out, hw_tx w' = hw_tx w ++ out
                   /\ (quiet (flags (at_ctx w)) = true -> out = []).

(** A callback that hands no byte to the transport when it is entered
    with the quiet flag set: it prints through the formatter. *)
Definition callback_silent (cb : M (AT_status_t * Z)) : Prop :=
  forall w a w', quiet (flags (at_ctx w)) = true -> cb w = Ok (a, w') ->
                 hw_tx w' = hw_tx w.

Definition callbacks_silent (d : AT_command_t) : Prop :=
  (forall cb code, execution_callback d = Some cb -> callback_silent (cb code))
  /\ (forall cb code, read_callback d = Some cb -> callback_silent (cb code))
  /\ (forall cb argc argv code,
         write_callback d = Some cb -> callback_silent (cb argc argv code)).

(** Two contexts that differ at most in the current command. *)
Definition ctx_eqv (c d : AT_context_t) : Prop :=
  with_current_command None c = with_current_command None d.

(** Two runs agree: the same fault, or the same value, related contexts
    and the same bytes handed to the transport. *)
Definition agree (R : AT_context_t -> AT_context_t -> Prop) {A}
           (w v : AT_world) (r s : AT_result (A * AT_world)) : Prop :=
  match r, s with
  | Ok (a, w'), Ok (b, v') =>
      a = b /\ R (at_ctx w') (at_ctx v')
      /\ exists out, hw_tx w' = hw_tx w ++ out /\ hw_tx v' = hw_tx v ++ out
  | Fault e, Fault f => e = f
  | _, _ => False
  end.

(** A computation whose outcome is a function of the context, up to [R]. *)
Definition respects (R : AT_context_t -> AT_context_t -> Prop) {A} (m : M A) : Prop :=
  forall w v, R (at_ctx w) (at_ctx v) -> agree R w v (m w) (m v).

Definition callbacks_local (d : AT_command_t) : Prop :=
  (forall cb code, execution_callback d = Some cb -> respects eq (cb code))
  /\ (forall cb code, read_callback d = Some cb -> respects eq (cb code))
  /\ (forall cb argc argv code,
         write_callback d = Some cb -> respects eq (cb argc argv code)).

(** The agreement of two passes at the [errors] label: the contexts are
    equal, or they differ at most in the current command, which both
    passes have left alone. *)
Definition agree_line (w v : AT_world)
           (r s : AT_result ((AT_status_t * Z) * AT_world)) : Prop :=
  match r, s with
  | Ok (a, w'), Ok (b, v') =>
      a = b
      /\ (exists out, hw_tx w' = hw_tx w ++ out /\ hw_tx v' = hw_tx v ++ out)
      /\ (at_ctx w' = at_ctx v'
          \/ (ctx_eqv (at_ctx w') (at_ctx v')
              /\ current_command (at_ctx w') = current_command (at_ctx w)
              /\ current_command (at_ctx v') = current_command (at_ctx v)))
  | Fault e, Fault f => e = f
  | _, _ => False
  end.

Definition line_rel (m : M (AT_status_t * Z)) : Prop :=
  forall w v, ctx_eqv (at_ctx w) (at_ctx v) -> agree_line w v (m w) (m v).

(** The world after [data] has been handed to the transport. *)
Definition transmit (data : list ascii) (w : AT_world) : AT_world :=
  mk_world (at_ctx w) (hw_tx w ++ data) (notified w).

Definition world_with_ctx (c : AT_context_t) (w : AT_world) : AT_world :=
  mk_world c (hw_tx w) (notified w).

(** What reaches the transport when [text] is printed in world [w],
    and the status of that print: the transport's, when it is called. *)
Definition audible (w : AT_world) (text : list ascii) : list ascii :=
  if quiet (flags (at_ctx w)) then [] else text.

Definition print_status (w : AT_world) (text : list ascii) : AT_status_t :=
  match audible w text with
  | [] => AT_SUCCESS
  | data => AT_HW_API_write_status data
  end.

(** The characters of a string: the cells before the first terminator. *)
Fixpoint until_nul (s : list ascii) : list ascii :=
  match s with
  | [] => []
  | c :: t => if Ascii.eqb c NUL then [] else c :: until_nul t
  end.

(** The bytes that the accumulator stores: all but the null ones. *)
Definition stored_bytes (bytes : list ascii) : list ascii :=
  filter (fun c => negb (Ascii.eqb c NUL)) bytes.

(** The line buffer [buf] with [data] written from cell [size] on. *)
Definition buffer_with (buf : list ascii) (size : nat) (data : list ascii)
  : list ascii :=
  firstn size buf ++ data ++ skipn (size + length data) buf.

(** The context once a line is complete: both flags raised. *)
Definition line_ready (c : AT_context_t) : AT_context_t :=
  with_flags (set_pending true (set_process true (flags c))) c.

(** The context that the end of a pass leaves. *)
Definition line_reset (c : AT_context_t) : AT_context_t :=
  with_rx_buffer_size 0
    (with_rx_buffer (repeat NUL AT_BUFFER_SIZE)
       (with_flags (set_pending false (flags c)) c)).

(** The descriptors held by the slots, in slot order. *)
Fixpoint registered (slots : list (option AT_command_ref)) : list AT_command_ref :=
  match slots with
  | [] => []
  | Some r :: rest => r :: registered rest
  | None :: rest => registered rest
  end.

Definition has_kind (t : AT_command_type_t) (r : AT_command_ref) : bool :=
  AT_command_type_eqb (type (AT_deref r)) t.

(** The number of slots that hold a descriptor of kind [t]. *)
Definition count_kind (t : AT_command_type_t)
           (slots : list (option AT_command_ref)) : nat :=
  length (filter (has_kind t) (registered slots)).

(** The three counters after [delta] has been added to the one of kind
    [t], on [uint8_t]. *)
Definition counted (delta : Z) (t : AT_command_type_t) (b e d : Z) : list Z :=
  match t with
  | AT_COMMAND_TYPE_BASIC => [(b + delta) mod 256; e; d]
  | AT_COMMAND_TYPE_EXTENDED => [b; (e + delta) mod 256; d]
  | _ => [b; e; (d + delta) mod 256]
  end%Z.

(** The registry as the two operations keep it: all the slots of the
    array, no descriptor in two slots, descriptors of a valid kind only,
    and counters that tell how many descriptors of each kind it holds. *)
Definition registry_ok (c : AT_context_t) : Prop :=
  length (commands_list c) = AT_COMMAND_LIST_SIZE
  /\ NoDup (registered (commands_list c))
  /\ (forall r, In (Some r) (commands_list c) ->
                type (AT_deref r) <> AT_COMMAND_TYPE_LAST)
  /\ commands_count c
     = [Z.of_nat (count_kind AT_COMMAND_TYPE_BASIC (commands_list c));
        Z.of_nat (count_kind AT_COMMAND_TYPE_EXTENDED (commands_list c));
        Z.of_nat (count_kind AT_COMMAND_TYPE_DEBUG (commands_list c))].

(** The character that [_print_command_header] prints for a kind: none
    for Basic, whose header is the terminator. *)
Definition header_text (t : AT_command_type_t) : list ascii :=
  match t with
  | AT_COMMAND_TYPE_EXTENDED => [AT_COMMAND_HEADER_EXTENDED]
  | AT_COMMAND_TYPE_DEBUG => [AT_COMMAND_HEADER_DEBUG]
  | _ => []
  end.

(** What [AT_send_reply] prints before the reply for a descriptor. *)
Definition reply_prefix (target : option AT_command_ref) : list ascii :=
  match target with
  | None => []
  | Some r =>
      header_text (type (AT_deref r))
      ++ match syntax (AT_deref r) with
         | Some s => until_nul s
         | None => []
         end
      ++ text_of ":"
  end.

(** A cell of the line buffer after the tokenizer: the cell before, or
    a terminator in the place of a separator. *)
Definition overwritten (before after : ascii) : Prop :=
  after = before \/ (is_separator before = true /\ after = NUL).

(** The text of an argument slot and the argument string that a list
    of slots stands for. *)
Definition argument_text (a : c_ptr) : list ascii :=
  match a with
  | Some s => until_nul s
  | None => []
  end.

Fixpoint join_arguments (slots : list c_ptr) : list ascii :=
  match slots with
  | [] => []
  | a :: rest =>
      match rest with
      | [] => argument_text a
      | _ => argument_text a ++ AT_COMMAND_PARAMETER_SEPARATOR :: join_arguments rest
      end
  end.

(** The status line for a status whose text is [text], in verbose and
    in numeric mode. *)
Definition status_line (v : bool) (st : AT_status_t) (text : list ascii)
  : list ascii :=
  (if v then
     if is_success st then text_of "OK" else text_of "ERROR:" ++ text
   else format_d (AT_status_value st)) ++ AT_REPLY_END.

(** What a pass without dispatch hands to the transport: the echoed
    line if echo is on, then the status line; nothing in quiet mode. *)
Definition transcript (f : AT_flags_t) (line : list ascii) (st : AT_status_t)
           (text : list ascii) : list ascii :=
  if quiet f then []
  else (if echo f then line ++ AT_REPLY_END else [])
       ++ status_line (verbose f) st text.

(** The three mode commands: the write callback and the flag it sets. *)
Definition mode_write_callbacks
  : list (AT_command_write_cb_t * (bool -> AT_flags_t -> AT_flags_t)) :=
  [(_echo_write_callback, set_echo);
   (_verbose_write_callback, set_verbose);
   (_quiet_write_callback, set_quiet)].

(** ** Properties *)

(** *** Inversion of the computations *)

Lemma bind_ok :
  forall A B (m : M A) (f : A -> M B) w b w',
    bind m f w = Ok (b, w') ->
    exists a w1, m w = Ok (a, w1) /\ f a w1 = Ok (b, w').
Proof.
  intros A B m f w b w' H. unfold bind in H.
  destruct (m w) as [[a w1]|e]; [eauto|discriminate].
Qed.

Lemma lift_ok :
  forall A (r : AT_result A) w a w', lift r w = Ok (a, w') -> r = Ok a /\ w' = w.
Proof.
  intros A [x|e] w a w' H; simpl in H; [|discriminate].
  inversion H; subst. auto.
Qed.

Lemma get_ctx_ok :
  forall w a w', get_ctx w = Ok (a, w') -> a = at_ctx w /\ w' = w.
Proof. intros w a w' H. inversion H; subst. auto. Qed.

Lemma ret_ok :
  forall A (x : A) w a w', ret x w = Ok (a, w') -> a = x /\ w' = w.
Proof. intros A x w a w' H. inversion H; subst. auto. Qed.

(** *** Receive accumulator *)

(** C7: while [pending] is set every received byte, the terminator
    included, is dropped: after any sequence of bytes the context (line
    buffer, fill length, all flags), the transport and the list of
    notifications are the ones before, so the line in flight stays the
    only one. *)
Theorem rx_dropped_while_pending :
  forall (bytes : list ascii) (w : AT_world),
    pending (flags (at_ctx w)) = true ->
    AT_receive bytes w = Ok (tt, w).
Proof.
  induction bytes as [|b rest IH]; intros w Hp; simpl.
  - reflexivity.
  - unfold bind at 1. unfold _rx_irq_callback. run_monad.
    rewrite Hp, orb_true_r. apply IH, Hp.
Qed.

(** *** Registry *)

Lemma ptr_eqb_refl : forall p, ptr_eqb p p = true.
Proof.
  intros [[[]|n]|]; simpl; auto using Nat.eqb_refl.
Qed.

Lemma ptr_eqb_eq : forall p q, ptr_eqb p q = true -> p = q.
Proof.
  intros [[a|n]|] [[b|m]|]; simpl; try discriminate; auto.
  - destruct a, b; simpl; try discriminate; auto.
  - intros H. apply Nat.eqb_eq in H. subst. reflexivity.
Qed.

Lemma release_first_free :
  forall slots, In None slots -> exists slots', release_first None slots = Some slots'.
Proof.
  induction slots as [|s rest IH]; intros Hin; simpl in *.
  - contradiction.
  - destruct (ptr_eqb s None) eqn:E; eauto.
    destruct Hin as [->|Hin]; [discriminate|].
    destruct (IH Hin) as [x ->]. eauto.
Qed.

(** C9: [AT_unregister_command] does not test its argument: with a free
    slot in the list, a null pointer compares equal to that slot and is
    then dereferenced for its type; the call ends in undefined behaviour
    and returns no status. *)
Theorem unregister_null_dereferences :
  forall w : AT_world,
    In None (commands_list (at_ctx w)) ->
    AT_unregister_command None w = Fault NullDereference.
Proof.
  intros w Hin. unfold AT_unregister_command. run_monad.
  destruct (release_first_free _ Hin) as [slots ->]. reflexivity.
Qed.

Lemma fill_first_free_full :
  forall command slots,
    ~ In None slots -> fill_first_free command slots = None.
Proof.
  induction slots as [|s rest IH]; intros Hfull; simpl.
  - reflexivity.
  - destruct s as [r|].
    + rewrite IH; [reflexivity|]. intros H. apply Hfull. now right.
    + exfalso. apply Hfull. now left.
Qed.

(** C1, as the code behaves: with every slot occupied, registering a
    valid descriptor that is not in the list leaves the slots and the
    counts as they are, but returns [AT_SUCCESS] instead of the list-full
    error: the status set to [AT_ERROR_COMMANDS_LIST_FULL] at the top of
    the function is not the value returned after the loop. *)
Theorem register_on_full_list_returns_success :
  forall (r : AT_command_ref) (w : AT_world),
    ~ In None (commands_list (at_ctx w)) ->
    is_registered (Some r) (commands_list (at_ctx w)) = false ->
    type (AT_deref r) <> AT_COMMAND_TYPE_LAST ->
    (write_callback (AT_deref r) <> None -> write_arguments (AT_deref r) <> None) ->
    AT_register_command (Some r) w = Ok (AT_SUCCESS, w).
Proof.
  intros r w Hfull Hnew Htype Hargs. unfold AT_register_command.
  assert (Hgo : forall X (a b : X),
             match write_callback (AT_deref r), write_arguments (AT_deref r) with
             | Some _, None => a
             | _, _ => b
             end = b).
  { intros X a b. destruct (write_callback (AT_deref r)); [|reflexivity].
    destruct (write_arguments (AT_deref r)); [reflexivity|].
    exfalso. apply Hargs; congruence. }
  rewrite Hgo.
  destruct (type (AT_deref r)); try congruence;
    run_monad; rewrite Hnew, (fill_first_free_full _ _ Hfull); reflexivity.
Qed.

(** *** Built-in mode commands *)

Lemma _parse_bit_negative :
  forall (s : list ascii) (n : Z) (rest : list c_ptr) (bit : Z),
    sscanf_d s = Ok (Some n) -> (n < 0)%Z ->
    _parse_bit 1 (Some s :: rest) bit = Ok (AT_SUCCESS, (n mod 256)%Z).
Proof.
  intros s n rest bit Hs Hn. unfold _parse_bit. simpl. rewrite Hs.
  destruct (Z.gtb_spec n 1) as [H|H]; [lia|reflexivity].
Qed.

(** C10: the write form of E, V and Q rejects only arguments above 1.
    When the single argument reads as a negative integer [n], the call
    returns [AT_SUCCESS] with return code 0 and the mode bit becomes the
    low-order bit of [n] reduced modulo 2^8. *)
Theorem mode_write_accepts_negative :
  forall (s : list ascii) (n : Z) (rest : list c_ptr) (code : Z) (w : AT_world),
    sscanf_d s = Ok (Some n) -> (n < 0)%Z ->
    let b := bitfield1 (n mod 256) in
    _echo_write_callback 1 (Some s :: rest) code w
      = Ok ((AT_SUCCESS, 0%Z), world_with_flags (set_echo b) w)
    /\ _verbose_write_callback 1 (Some s :: rest) code w
      = Ok ((AT_SUCCESS, 0%Z), world_with_flags (set_verbose b) w)
    /\ _quiet_write_callback 1 (Some s :: rest) code w
      = Ok ((AT_SUCCESS, 0%Z), world_with_flags (set_quiet b) w).
Proof.
  intros s n rest code w Hs Hn b.
  unfold _echo_write_callback, _verbose_write_callback, _quiet_write_callback.
  run_monad. rewrite (_parse_bit_negative s n rest 0 Hs Hn). simpl.
  repeat split.
Qed.

(** *** Dispatcher: the search *)

Lemma AT_command_type_eqb_eq :
  forall a b, AT_command_type_eqb a b = true <-> a = b.
Proof.
  intros a b. unfold AT_command_type_eqb. rewrite Nat.eqb_eq.
  split; [|now intros ->]. destruct a, b; simpl; congruence.
Qed.

Lemma ascii_eqb_false : forall a b, Ascii.eqb a b = false <-> a <> b.
Proof.
  intros a b. destruct (Ascii.eqb_spec a b); split; congruence.
Qed.

(** What [strlen] returns: the cell at that index is the first
    terminator. *)
Lemma strlen_spec :
  forall s n, strlen s = Ok n ->
    exists rest, s = firstn n s ++ NUL :: rest /\ ~ In NUL (firstn n s)
                 /\ length (firstn n s) = n.
Proof.
  induction s as [|c t IH]; intros n H; simpl in H.
  - discriminate.
  - destruct (Ascii.eqb_spec c NUL) as [->|Hc].
    + inversion H; subst. exists t. simpl. auto.
    + destruct (strlen t) as [m|] eqn:E; [|discriminate].
      inversion H; subst. destruct (IH m eq_refl) as (rest & H1 & H2 & H3).
      exists rest. simpl. repeat split.
      * now rewrite <- H1.
      * intros [Hin|Hin]; [congruence|auto].
      * now rewrite H3.
Qed.

Lemma strlen_terminated :
  forall a rest, ~ In NUL a -> strlen (a ++ NUL :: rest) = Ok (length a).
Proof.
  induction a as [|c t IH]; intros rest Hn; simpl.
  - reflexivity.
  - destruct (Ascii.eqb_spec c NUL) as [->|Hc].
    + exfalso. apply Hn. now left.
    + rewrite IH; [reflexivity|]. intros H. apply Hn. now right.
Qed.




(** *** Dispatcher: the call form *)

(** C5: once a descriptor is selected, the character that follows the
    matched prefix chooses the call form.  End of line runs the execute
    callback, ['?'] the read callback, and ['='] or the Basic kind the
    write callback on the tokenized remainder (what follows ['='] for
    Extended and Debug, what follows the prefix for Basic); a missing
    callback gives the matching "not defined" status and any other
    character [AT_ERROR_INTERNAL_COMMAND_MARKER_NOT_DEFINED]. *)
Theorem call_form_follows_marker :
  forall (w : AT_world) (start : nat) (t : AT_command_type_t) (code : Z)
         (r : AT_command_ref) (n : nat) (m : ascii),
    search_command (skipn start (rx_buffer (at_ctx w))) t (commands_list (at_ctx w))
    = Ok (Some (r, n)) ->
    load (skipn start (rx_buffer (at_ctx w))) n = Ok m ->
    _parse_and_execute_command start t code w = call_form start t code r n m w.
Proof.
  intros w start t code r n m Hfound Hm.
  unfold _parse_and_execute_command, call_form. run_monad.
  rewrite Hfound, Hm.
  unfold AT_COMMAND_MARKER_EXECUTION, AT_COMMAND_MARKER_READ_HELP,
    AT_COMMAND_MARKER_WRITE.
  destruct (Ascii.eqb m NUL).
  { destruct (execution_callback (AT_deref r)); reflexivity. }
  destruct (Ascii.eqb m "?").
  { destruct (read_callback (AT_deref r)); reflexivity. }
  destruct (Ascii.eqb m "=" || AT_command_type_eqb t AT_COMMAND_TYPE_BASIC);
    [|reflexivity].
  destruct (write_callback (AT_deref r)) as [cb|]; [|reflexivity].
  assert (Hcontent :
            (if AT_command_type_eqb t AT_COMMAND_TYPE_BASIC
             then start + n else start + n + 1)
            = start + (if AT_command_type_eqb t AT_COMMAND_TYPE_BASIC then n else S n)).
  { destruct (AT_command_type_eqb t AT_COMMAND_TYPE_BASIC); lia. }
  rewrite Hcontent, skipn_skipn.
  rewrite (Nat.add_comm _ start).
  destruct (tokenize _) as [[[argv argc] cells]|e]; reflexivity.
Qed.

(** *** Tokenizer *)

Lemma is_separator_true : forall c, is_separator c = true -> c = ","%char.
Proof. intros c H. now apply Ascii.eqb_eq in H. Qed.

Lemma split_fields_not_nil : forall s, split_fields s <> [].
Proof.
  destruct s as [|c t]; simpl; [discriminate|].
  destruct (is_separator c); [discriminate|].
  destruct (split_fields t); discriminate.
Qed.

Lemma drop_last_empty_cons :
  forall f rest, rest <> [] -> drop_last_empty (f :: rest) = f :: drop_last_empty rest.
Proof. intros f [|g rest] H; [congruence|reflexivity]. Qed.

Lemma split_fields_token :
  forall tok, separator_free tok -> split_fields tok = [tok].
Proof.
  induction tok as [|c t IH]; intros Hfree; simpl.
  - reflexivity.
  - rewrite (Hfree c (or_introl eq_refl)), IH; [reflexivity|].
    intros x Hx. apply Hfree. now right.
Qed.

Lemma split_fields_token_sep :
  forall tok x, separator_free tok ->
    split_fields (tok ++ ","%char :: x) = tok :: split_fields x.
Proof.
  induction tok as [|c t IH]; intros x Hfree; simpl.
  - reflexivity.
  - rewrite (Hfree c (or_introl eq_refl)), IH; [reflexivity|].
    intros y Hy. apply Hfree. now right.
Qed.

Lemma argument_slots_nil : argument_slots [] = [].
Proof. reflexivity. Qed.

Lemma argument_slots_sep :
  forall x, argument_slots (","%char :: x) = None :: argument_slots x.
Proof.
  intros x. unfold argument_slots.
  change (split_fields (","%char :: x)) with ([] :: split_fields x).
  rewrite drop_last_empty_cons by apply split_fields_not_nil. reflexivity.
Qed.

Lemma argument_slots_seps :
  forall k x, argument_slots (repeat ","%char k ++ x) = repeat None k ++ argument_slots x.
Proof.
  induction k as [|k IH]; intros x; simpl.
  - reflexivity.
  - change (","%char :: repeat ","%char k ++ x)
      with (","%char :: (repeat ","%char k ++ x)).
    rewrite argument_slots_sep, IH. reflexivity.
Qed.

Lemma argument_slots_token :
  forall tok, tok <> [] -> separator_free tok ->
    argument_slots tok = [Some (tok ++ [NUL])].
Proof.
  intros tok Hne Hfree. unfold argument_slots.
  rewrite split_fields_token by assumption.
  destruct tok; [congruence|reflexivity].
Qed.

Lemma argument_slots_token_sep :
  forall tok x, tok <> [] -> separator_free tok ->
    argument_slots (tok ++ ","%char :: x) = Some (tok ++ [NUL]) :: argument_slots x.
Proof.
  intros tok x Hne Hfree. unfold argument_slots.
  rewrite split_fields_token_sep by assumption.
  rewrite drop_last_empty_cons by apply split_fields_not_nil.
  destruct tok; [congruence|reflexivity].
Qed.

Lemma drop_last_empty_length :
  forall fields, length (drop_last_empty fields) <= length fields.
Proof.
  induction fields as [|f rest IH]; simpl; [lia|].
  destruct rest as [|g rest'].
  - destruct f; simpl; lia.
  - simpl in *. lia.
Qed.

Lemma drop_last_empty_keeps :
  forall fields, last fields [] <> [] -> drop_last_empty fields = fields.
Proof.
  induction fields as [|f rest IH]; intros H; [reflexivity|].
  destruct rest as [|g rest'].
  - simpl in *. destruct f; [congruence|reflexivity].
  - change (drop_last_empty (f :: g :: rest'))
      with (f :: drop_last_empty (g :: rest')).
    rewrite IH; [reflexivity|exact H].
Qed.

Lemma argument_slots_length :
  forall s, length (argument_slots s) <= length (split_fields s).
Proof.
  intros s. unfold argument_slots. rewrite length_map.
  apply drop_last_empty_length.
Qed.

(** Every string is a run of separators followed by a string that does
    not start with one. *)
Lemma leading_separators :
  forall x, exists k y,
    x = repeat ","%char k ++ y
    /\ (y = [] \/ exists c y', y = c :: y' /\ is_separator c = false).
Proof.
  induction x as [|c t IH].
  - exists 0, []. auto.
  - destruct (is_separator c) eqn:E.
    + destruct IH as (k & y & -> & Hy). exists (S k), y.
      apply is_separator_true in E. subst c. auto.
    + exists 0, (c :: t). split; [reflexivity|]. right. eauto.
Qed.

Lemma store_append :
  forall (slots rest : list c_ptr) (old x : c_ptr),
    store (slots ++ old :: rest) (length slots) x = Ok (slots ++ x :: rest).
Proof.
  induction slots as [|a t IH]; intros rest old x; simpl.
  - reflexivity.
  - now rewrite IH.
Qed.

Lemma store_argv_of :
  forall (slots : list c_ptr) (x : c_ptr),
    length slots < AT_COMMAND_PARAMETER_MAX_NUMBER ->
    store (argv_of slots) (length slots) x = Ok (argv_of (slots ++ [x])).
Proof.
  intros slots x Hlt. unfold argv_of.
  unfold AT_COMMAND_PARAMETER_MAX_NUMBER in *.
  replace (10 - length slots) with (S (10 - length (slots ++ [x])))
    by (rewrite length_app; cbn [length]; lia).
  simpl repeat. rewrite store_append, <- app_assoc. reflexivity.
Qed.

(** The separator loop in front of cells that do not start with a
    separator: one null argument per separator. *)
Lemma skip_separators_run :
  forall (k : nat) (slots : list c_ptr) (c : ascii) (y : list ascii),
    is_separator c = false ->
    length slots + k <= AT_COMMAND_PARAMETER_MAX_NUMBER ->
    skip_separators (argv_of slots) (length slots) (repeat ","%char k ++ c :: y)
    = Ok (argv_of (slots ++ repeat None k), length slots + k,
          repeat ","%char k, c :: y).
Proof.
  induction k as [|k IH]; intros slots c y Hc Hle; simpl.
  - rewrite Hc, app_nil_r, Nat.add_0_r. reflexivity.
  - assert (Hlt : length slots < AT_COMMAND_PARAMETER_MAX_NUMBER) by list_arith.
    rewrite store_argv_of by assumption.
    replace (S (length slots)) with (length (slots ++ [None])) by list_arith.
    rewrite IH; [|assumption|list_arith].
    rewrite <- app_assoc. simpl.
    replace (length (slots ++ [None]) + k) with (length slots + S k) by list_arith.
    reflexivity.
Qed.

(** The token at the head of a terminated string and the cell that
    ends it. *)
Lemma strtok_token_split :
  forall r, ~ In NUL r ->
    exists tok, separator_free tok /\
      ((r = tok /\ forall junk,
           strtok_token (r ++ NUL :: junk) = Ok (tok, NUL, junk))
       \/ (exists r', r = tok ++ ","%char :: r' /\ forall junk,
           strtok_token (r ++ NUL :: junk) = Ok (tok, ","%char, r' ++ NUL :: junk))).
Proof.
  induction r as [|c t IH]; intros Hn.
  - exists []. split; [intros x []|]. left. split; [reflexivity|].
    intros junk. reflexivity.
  - assert (Hn' : ~ In NUL t) by (intros H; apply Hn; now right).
    assert (Hc : Ascii.eqb c NUL = false).
    { apply ascii_eqb_false. intros ->. apply Hn. now left. }
    destruct (is_separator c) eqn:E.
    + exists []. split; [intros x []|]. right. exists t.
      pose proof (is_separator_true _ E). subst c.
      split; [reflexivity|]. intros junk. reflexivity.
    + destruct (IH Hn') as (tok & Hfree & Hcases).
      exists (c :: tok). split.
      { intros x [<-|Hx]; auto. }
      destruct Hcases as [[-> Hrun]|(r' & -> & Hrun)].
      * left. split; [reflexivity|]. intros junk. simpl.
        rewrite E, Hc. simpl. now rewrite Hrun.
      * right. exists r'. split; [reflexivity|]. intros junk. simpl.
        rewrite E, Hc. simpl. now rewrite Hrun.
Qed.

(** The parameter loop on a terminated string that does not start with
    a separator stores the slots of the specification after the slots
    it finds in the array. *)
Lemma parse_parameters_slots :
  forall (fuel : nat) (r : list ascii) (slots : list c_ptr)
         (behind junk : list ascii),
    length r < fuel ->
    ~ In NUL r ->
    (r = [] \/ exists c r', r = c :: r' /\ is_separator c = false) ->
    length slots + length (argument_slots r) <= AT_COMMAND_PARAMETER_MAX_NUMBER ->
    exists cells,
      parse_parameters fuel (argv_of slots) (length slots) behind (r ++ NUL :: junk)
      = Ok (argv_of (slots ++ argument_slots r),
            length slots + length (argument_slots r), cells).
Proof.
  induction fuel as [|f IH]; intros r slots behind junk Hfuel Hn Hhead Hle.
  - lia.
  - destruct Hhead as [->|(c & r' & -> & Hc)].
    + simpl. rewrite app_nil_r, Nat.add_0_r. eauto.
    + assert (Hcn : Ascii.eqb c NUL = false).
      { apply ascii_eqb_false. intros ->. apply Hn. now left. }
      destruct (strtok_token_split (c :: r') Hn) as (tok & Hfree & Hcases).
      assert (Htok : tok <> []).
      { intros ->. destruct Hcases as [[H _]|(x & H & _)]; [discriminate|].
        simpl in H. inversion H. subst c. discriminate. }
      cbn [parse_parameters app strtok_r]. rewrite Hc, Hcn.
      change (c :: r' ++ NUL :: junk) with ((c :: r') ++ NUL :: junk).
      destruct Hcases as [[Hr Hrun]|(x & Hr & Hrun)]; rewrite Hrun, Hr in *.
      * (* the token ends the string *)
        rewrite argument_slots_token in * by assumption. simpl in Hle.
        rewrite Ascii.eqb_refl, store_argv_of by lia.
        simpl skip_separators.
        replace (S (length slots)) with (length (slots ++ [Some (tok ++ [NUL])]))
          by (rewrite length_app; simpl; lia).
        assert (Hf : 0 < f) by (destruct tok; [congruence|simpl in Hfuel; lia]).
        destruct (IH [] (slots ++ [Some (tok ++ [NUL])]) (behind ++ tok ++ []) junk)
          as [cells Hcells]; simpl; auto.
        { rewrite length_app. simpl. lia. }
        change ([] ++ NUL :: junk) with (NUL :: junk) in Hcells.
        rewrite argument_slots_nil, Nat.add_0_r in Hcells.
        rewrite (app_nil_r (slots ++ [Some (tok ++ [NUL])])) in Hcells.
        exists cells. etransitivity; [exact Hcells|].
        repeat f_equal. list_arith.
      * (* a separator ends the token *)
        rewrite argument_slots_token_sep in * by assumption. simpl in Hle.
        change (Ascii.eqb ","%char NUL) with false. cbv iota.
        rewrite store_argv_of by lia.
        destruct (leading_separators x) as (k & y & -> & Hy).
        rewrite argument_slots_seps, length_app, repeat_length in Hle.
        rewrite argument_slots_seps.
        assert (Hrun2 :
                  skip_separators (argv_of (slots ++ [Some (tok ++ [NUL])]))
                    (S (length slots)) ((repeat ","%char k ++ y) ++ NUL :: junk)
                  = Ok (argv_of ((slots ++ [Some (tok ++ [NUL])]) ++ repeat None k),
                        S (length slots) + k, repeat ","%char k, y ++ NUL :: junk)).
        { replace (S (length slots)) with (length (slots ++ [Some (tok ++ [NUL])]))
            by (rewrite length_app; simpl; lia).
          rewrite <- app_assoc.
          destruct Hy as [->|(c' & y' & -> & Hc')].
          - apply skip_separators_run; [reflexivity|].
            rewrite length_app. simpl. lia.
          - apply skip_separators_run; [assumption|].
            rewrite length_app. simpl. lia. }
        rewrite Hrun2.
        assert (Hlen : length ((slots ++ [Some (tok ++ [NUL])]) ++ repeat None k)
                       = S (length slots) + k).
        { rewrite !length_app, repeat_length. simpl. lia. }
        rewrite <- Hlen.
        destruct (IH y ((slots ++ [Some (tok ++ [NUL])]) ++ repeat None k)
                     (behind ++ (tok ++ [NUL]) ++ repeat ","%char k) junk)
          as [cells Hcells].
        { rewrite length_app in Hfuel. simpl in Hfuel.
          rewrite length_app, repeat_length in Hfuel. lia. }
        { intros H. apply Hn. rewrite in_app_iff. right. right.
          rewrite in_app_iff. now right. }
        { exact Hy. }
        { rewrite Hlen. lia. }
        rewrite Hcells. exists cells. rewrite Hlen.
        rewrite <- !app_assoc. simpl. rewrite length_app, repeat_length.
        repeat f_equal. lia.
Qed.

Lemma tokenize_slots :
  forall (s junk : list ascii),
    ~ In NUL s ->
    length (argument_slots s) <= AT_COMMAND_PARAMETER_MAX_NUMBER ->
    exists cells,
      tokenize (s ++ NUL :: junk)
      = Ok (argv_of (argument_slots s), length (argument_slots s), cells).
Proof.
  intros s junk Hn Hle. unfold tokenize.
  destruct (leading_separators s) as (k & y & -> & Hy).
  rewrite argument_slots_seps in *. rewrite length_app, repeat_length in Hle.
  assert (Hrun :
            skip_separators (argv_of []) (length (@nil c_ptr))
              ((repeat ","%char k ++ y) ++ NUL :: junk)
            = Ok (argv_of ([] ++ repeat None k), length (@nil c_ptr) + k,
                  repeat ","%char k, y ++ NUL :: junk)).
  { rewrite <- app_assoc.
    destruct Hy as [->|(c & y' & -> & Hc)];
      (apply skip_separators_run; [auto|simpl; lia]). }
  change (repeat None AT_COMMAND_PARAMETER_MAX_NUMBER) with (argv_of (@nil c_ptr)).
  change 0 with (length (@nil c_ptr)) at 1.
  rewrite Hrun. simpl app. simpl length at 1. simpl Nat.add.
  assert (Hlen : length (repeat (@None (list ascii)) k) = k) by apply repeat_length.
  destruct (parse_parameters_slots (S (length (y ++ NUL :: junk))) y
              (repeat None k) (repeat ","%char k) junk) as [cells Hcells].
  - rewrite length_app. simpl. lia.
  - intros H. apply Hn. rewrite in_app_iff. now right.
  - exact Hy.
  - rewrite Hlen. exact Hle.
  - rewrite Hlen in Hcells. rewrite Hcells. exists cells.
    rewrite length_app, Hlen. reflexivity.
Qed.

(** C6: for an argument string of at most ten comma-separated positions
    the tokenizer stores the arguments in order in the first cells of
    the argument array; a position left empty by consecutive separators
    or by a leading separator is a null cell, not an empty string, and
    the other cells of the array stay null.  The slots are the fields
    between the separators, one for one, when the last field is not
    empty.  In particular ["1,,3"] gives three slots: ["1"], omitted,
    ["3"]. *)
Theorem tokenizer_keeps_positions :
  forall (s junk : list ascii),
    ~ In NUL s ->
    length (split_fields s) <= AT_COMMAND_PARAMETER_MAX_NUMBER ->
    (exists cells,
        tokenize (s ++ NUL :: junk)
        = Ok (argv_of (argument_slots s), length (argument_slots s), cells))
    /\ (last (split_fields s) [] <> [] ->
        argument_slots s = map slot_of_field (split_fields s))
    /\ argument_slots (text_of "1,,3")
       = [Some (text_of "1" ++ [NUL]); None; Some (text_of "3" ++ [NUL])].
Proof.
  intros s junk Hn Hle. split; [|split; [|reflexivity]].
  - apply tokenize_slots; [assumption|].
    pose proof (argument_slots_length s). lia.
  - intros Hlast. unfold argument_slots.
    now rewrite drop_last_empty_keeps.
Qed.

(** The fuel of the parameter loop is never used up: any two amounts
    above the number of cells give the same result. *)
Lemma skip_separators_rest :
  forall s argv argc a n b rest,
    skip_separators argv argc s = Ok (a, n, b, rest) -> length rest <= length s.
Proof.
  induction s as [|c t IH]; intros argv argc a n b rest H; simpl in H.
  - discriminate.
  - destruct (is_separator c).
    + destruct (store argv argc None) as [argv'|]; [|discriminate].
      destruct (skip_separators argv' (S argc) t) as [[[[a' n'] b'] rest']|] eqn:E;
        [|discriminate].
      inversion H; subst. apply IH in E. simpl. lia.
    + inversion H; subst. simpl. lia.
Qed.

Lemma strtok_token_rest :
  forall s tok d rest,
    strtok_token s = Ok (tok, d, rest) -> length s = length tok + 1 + length rest.
Proof.
  induction s as [|c t IH]; intros tok d rest H; simpl in H.
  - discriminate.
  - destruct (is_separator c || Ascii.eqb c NUL).
    + inversion H; subst. reflexivity.
    + destruct (strtok_token t) as [[[tok' d'] rest']|]; [|discriminate].
      inversion H; subst. specialize (IH _ _ _ eq_refl). simpl. lia.
Qed.

Lemma strtok_r_rest :
  forall s tok b rest,
    strtok_r s = Ok (Some tok, b, rest) -> length rest < length s.
Proof.
  induction s as [|c t IH]; intros tok b rest H.
  - discriminate.
  - cbn [strtok_r] in H. destruct (is_separator c) eqn:Ec.
    + destruct (strtok_r t) as [[[tok' b'] rest']|]; [|discriminate].
      inversion H; subst. specialize (IH _ _ _ eq_refl). simpl. lia.
    + destruct (Ascii.eqb c NUL) eqn:En; [discriminate|].
      destruct (strtok_token (c :: t)) as [[[tok' d] rest']|] eqn:E; [|discriminate].
      pose proof (strtok_token_rest _ _ _ _ E) as Hlen.
      assert (Htok : 0 < length tok').
      { simpl in E. rewrite Ec, En in E. simpl in E.
        destruct (strtok_token t) as [[[x y] z]|]; [|discriminate].
        inversion E; subst. simpl. lia. }
      destruct (Ascii.eqb d NUL); inversion H; subst; simpl in *; lia.
Qed.

Lemma parse_parameters_fuel :
  forall f1 f2 argv argc behind s,
    length s < f1 -> length s < f2 ->
    parse_parameters f1 argv argc behind s = parse_parameters f2 argv argc behind s.
Proof.
  induction f1 as [|f1 IH]; intros f2 argv argc behind s H1 H2; [lia|].
  destruct f2 as [|f2]; [lia|]. simpl.
  destruct (strtok_r s) as [[[[tok|] b] rest]|] eqn:E; try reflexivity.
  apply strtok_r_rest in E.
  destruct (store argv argc (Some (tok ++ [NUL]))) as [argv1|]; [|reflexivity].
  destruct (skip_separators argv1 (S argc) rest) as [[[[a n] b2] rest2]|] eqn:E2;
    [|reflexivity].
  apply skip_separators_rest in E2. apply IH; lia.
Qed.

(** *** Formatter: what printing does to the world *)

Lemma prints_ret : forall A (a : A), prints (ret a).
Proof.
  intros A a w b w' H. inversion H; subst. repeat split.
  exists []. now rewrite app_nil_r.
Qed.

Lemma prints_fault : forall A e, prints (@fault A e).
Proof. intros A e w a w' H. discriminate. Qed.

Lemma prints_lift : forall A (r : AT_result A), prints (lift r).
Proof.
  intros A [a|e] w b w' H; [|discriminate]. exact (prints_ret A a w b w' H).
Qed.

Lemma prints_get_ctx : prints get_ctx.
Proof.
  intros w a w' H. inversion H; subst. exact (prints_ret _ tt w' tt w' eq_refl).
Qed.

Lemma prints_bind :
  forall A B (m : M A) (f : A -> M B),
    prints m -> (forall a, prints (f a)) -> prints (bind m f).
Proof.
  intros A B m f Hm Hf w b w' H. unfold bind in H.
  destruct (m w) as [[a w1]|e] eqn:E; [|discriminate].
  destruct (Hm _ _ _ E) as (C1 & N1 & out1 & T1 & Q1).
  destruct (Hf a _ _ _ H) as (C2 & N2 & out2 & T2 & Q2).
  repeat split; try congruence.
  exists (out1 ++ out2). split.
  - now rewrite T2, T1, app_assoc.
  - intros Hq. rewrite (Q1 Hq), Q2; [reflexivity|rewrite C1; exact Hq].
Qed.

Lemma prints_check :
  forall (m k : M AT_status_t),
    prints m -> prints k ->
    prints (bind m (fun status => if is_success status then k else ret status)).
Proof.
  intros m k Hm Hk. apply prints_bind; [assumption|].
  intros st. destruct (is_success st); [assumption|apply prints_ret].
Qed.

Lemma prints__print_tab : forall tab n, prints (_print_tab tab n).
Proof.
  intros tab n w a w' H. unfold _print_tab in H. run_monad.
  destruct (quiet (flags (at_ctx w))) eqn:Q; simpl in H.
  - inversion H; subst. repeat split. exists []. now rewrite app_nil_r.
  - destruct (n =? 0).
    { inversion H; subst. repeat split. exists []. now rewrite app_nil_r. }
    destruct (n <=? length tab); [|discriminate].
    unfold AT_HW_API_write in H. inversion H; subst; simpl.
    repeat split. eexists. split; [reflexivity|congruence].
Qed.

Create HintDb prints.
#[local] Hint Resolve prints_ret prints_fault prints_lift prints_get_ctx
  prints__print_tab : prints.

Ltac prints_auto :=
  repeat first
    [ solve [auto with prints]
    | apply prints_check
    | apply prints_bind; [|intro]
    | match goal with
      | |- prints (match ?x with _ => _ end) => destruct x
      end ].

Lemma prints__print : forall text, prints (_print text).
Proof. intros text. unfold _print. prints_auto. Qed.

Lemma prints__end_line : prints _end_line.
Proof. apply prints__print_tab. Qed.

#[local] Hint Resolve prints__print prints__end_line : prints.

Lemma prints__print_line : forall line, prints (_print_line line).
Proof. intros line. unfold _print_line. prints_auto. Qed.

#[local] Hint Resolve prints__print_line : prints.

Lemma prints_status_text : forall st code, prints (status_text st code).
Proof. intros st code. unfold status_text. prints_auto. Qed.

(** The end of a line outside quiet mode. *)
Lemma _end_line_appends :
  forall w a w', quiet (flags (at_ctx w)) = false ->
    _end_line w = Ok (a, w') -> hw_tx w' = hw_tx w ++ AT_REPLY_END.
Proof.
  intros w a w' Q H. unfold _end_line, _print_tab in H. run_monad.
  rewrite Q in H. simpl in H. unfold AT_HW_API_write in H.
  inversion H; subst. reflexivity.
Qed.

(** The status line: nothing in quiet mode, otherwise one text closed
    by the line terminator; the context is not touched. *)
Lemma _print_command_status_line :
  forall st code w w',
    _print_command_status st code w = Ok (tt, w') ->
    at_ctx w' = at_ctx w /\ notified w' = notified w
    /\ (if quiet (flags (at_ctx w)) then hw_tx w' = hw_tx w
        else exists text, hw_tx w' = hw_tx w ++ text ++ AT_REPLY_END).
Proof.
  intros st code w w' H. unfold _print_command_status in H.
  unfold bind at 1 in H. unfold get_ctx at 1 in H.
  unfold bind at 1 in H.
  match type of H with
  | match ?m w with _ => _ end = _ =>
      destruct (m w) as [[formatted w1]|e] eqn:E1
  end; [|discriminate].
  assert (P1 : at_ctx w1 = at_ctx w /\ notified w1 = notified w
               /\ exists out, hw_tx w1 = hw_tx w ++ out
                              /\ (quiet (flags (at_ctx w)) = true -> out = [])).
  { revert E1. destruct (negb (verbose (flags (at_ctx w)))).
    - apply prints_ret.
    - destruct (is_success st).
      + apply prints_bind; [apply prints__print|]. intros _. apply prints_ret.
      + apply prints_bind; [apply prints__print|]. intros _.
        apply prints_bind; [apply prints_status_text|]. intros text.
        apply prints_ret. }
  destruct P1 as (C1 & N1 & out1 & T1 & Q1).
  unfold bind at 1 in H.
  destruct (_print_tab (fst formatted) (snd formatted) w1) as [[a2 w2]|e] eqn:E2;
    [|discriminate].
  destruct (prints__print_tab _ _ _ _ _ E2) as (C2 & N2 & out2 & T2 & Q2).
  unfold bind at 1 in H.
  destruct (_end_line w2) as [[a3 w3]|e] eqn:E3; [|discriminate].
  inversion H; subst w'.
  destruct (prints__end_line _ _ _ E3) as (C3 & N3 & out3 & T3 & Q3).
  repeat split; try congruence.
  destruct (quiet (flags (at_ctx w))) eqn:Q.
  - rewrite T3, T2, T1, Q1, Q2, Q3, !app_nil_r; congruence.
  - exists (out1 ++ out2).
    rewrite (_end_line_appends w2 a3 w3) by (congruence || assumption).
    rewrite T2, T1, !app_assoc. reflexivity.
Qed.

(** *** Processing pass *)


(** *** Quiet mode *)

Lemma prints__print_command_header : forall t, prints (_print_command_header t).
Proof. intros t. unfold _print_command_header. prints_auto. Qed.

#[local] Hint Resolve prints__print_command_header : prints.

Lemma prints_print_help_form :
  forall d t marker arguments text,
    prints (print_help_form d t marker arguments text).
Proof. intros. unfold print_help_form. prints_auto. Qed.

#[local] Hint Resolve prints_print_help_form : prints.

Lemma prints_print_help_slot : forall t slot, prints (print_help_slot t slot).
Proof. intros. unfold print_help_slot. prints_auto. Qed.

#[local] Hint Resolve prints_print_help_slot : prints.

Lemma prints_print_help_loop : forall t slots, prints (print_help_loop t slots).
Proof.
  intros t. induction slots as [|slot rest IH]; simpl; prints_auto.
Qed.

#[local] Hint Resolve prints_print_help_loop : prints.

Lemma prints__print_help : forall t, prints (_print_help t).
Proof. intros t. unfold _print_help. prints_auto. Qed.

#[local] Hint Resolve prints__print_help : prints.

Lemma prints_AT_send_reply :
  forall command reply, prints (AT_send_reply command reply).
Proof.
  intros command [s|]; unfold AT_send_reply; [|apply prints_ret].
  apply prints_bind; [apply prints_lift|]. intros first.
  destruct (Ascii.eqb first NUL); [apply prints_ret|].
  apply prints_bind; [apply prints_get_ctx|]. intros ctx. cbv zeta.
  prints_auto.
Qed.

Lemma search_command_in :
  forall input t slots r n,
    search_command input t slots = Ok (Some (r, n)) -> In (Some r) slots.
Proof.
  intros input t. induction slots as [|slot rest IH]; intros r n H; simpl in H.
  - discriminate.
  - destruct slot as [r0|]; [|right; eauto].
    destruct (negb _); [right; eauto|].
    destruct (syntax (AT_deref r0)) as [s|]; [|discriminate].
    destruct (strlen s) as [k|]; [|discriminate].
    destruct (memcmp_eq input s k) as [[|]|]; try discriminate.
    + inversion H; subst. now left.
    + right; eauto.
Qed.

Lemma _parse_and_execute_command_silent :
  forall start t code w a w',
    quiet (flags (at_ctx w)) = true ->
    (forall r, In (Some r) (commands_list (at_ctx w)) -> callbacks_silent (AT_deref r)) ->
    _parse_and_execute_command start t code w = Ok (a, w') ->
    hw_tx w' = hw_tx w.
Proof.
  intros start t code w a w' Q Hcb H. unfold _parse_and_execute_command in H.
  apply bind_ok in H as ([] & w0 & H0 & H). inversion H0; subst w0; clear H0.
  apply bind_ok in H as (ctx & w0 & H0 & H). apply get_ctx_ok in H0 as [-> ->].
  apply bind_ok in H as (found & w0 & H0 & H). apply lift_ok in H0 as [Es ->].
  destruct found as [[r n]|]; [|now apply ret_ok in H as [_ ->]].
  destruct (Hcb r (search_command_in _ _ _ _ _ Es)) as (Hx & Hr & Hw).
  apply bind_ok in H as ([] & w0 & H0 & H). inversion H0; subst w0; clear H0.
  apply bind_ok in H as (marker & w0 & H0 & H). apply lift_ok in H0 as [_ ->].
  destruct (Ascii.eqb marker AT_COMMAND_MARKER_EXECUTION).
  { destruct (execution_callback (AT_deref r)) as [cb|] eqn:E.
    - eapply (Hx cb code eq_refl) in H; [exact H|exact Q].
    - now apply ret_ok in H as [_ ->]. }
  destruct (Ascii.eqb marker AT_COMMAND_MARKER_READ_HELP).
  { destruct (read_callback (AT_deref r)) as [cb|] eqn:E.
    - eapply (Hr cb code eq_refl) in H; [exact H|exact Q].
    - now apply ret_ok in H as [_ ->]. }
  destruct (_ || _); [|now apply ret_ok in H as [_ ->]].
  destruct (write_callback (AT_deref r)) as [cb|] eqn:E;
    [|now apply ret_ok in H as [_ ->]].
  cbv zeta in H.
  apply bind_ok in H as ([[argv argc] cells] & w0 & H0 & H).
  apply lift_ok in H0 as [_ ->].
  apply bind_ok in H as ([] & w0 & H0 & H). inversion H0; subst w0; clear H0.
  eapply (Hw cb argc argv code eq_refl) in H; [exact H|exact Q].
Qed.

Lemma AT_process_line_silent :
  forall w r w',
    quiet (flags (at_ctx w)) = true ->
    (forall c, In (Some c) (commands_list (at_ctx w)) -> callbacks_silent (AT_deref c)) ->
    AT_process_line w = Ok (r, w') ->
    hw_tx w' = hw_tx w.
Proof.
  intros w r w' Q Hcb H. unfold AT_process_line in H. cbv zeta in H.
  apply bind_ok in H as (ctx & w0 & H0 & H). apply get_ctx_ok in H0 as [-> ->].
  apply bind_ok in H as (header & w0 & H0 & H). apply lift_ok in H0 as [_ ->].
  destruct header; [|now apply ret_ok in H as [_ ->]].
  apply bind_ok in H as (marker & w0 & H0 & H). apply lift_ok in H0 as [_ ->].
  destruct (Ascii.eqb marker AT_COMMAND_MARKER_EXECUTION);
    [now apply ret_ok in H as [_ ->]|].
  destruct (Ascii.eqb marker AT_COMMAND_MARKER_READ_HELP).
  { apply bind_ok in H as (next & w0 & H0 & H). apply lift_ok in H0 as [_ ->].
    destruct (Ascii.eqb next AT_COMMAND_MARKER_EXECUTION);
      [|now apply ret_ok in H as [_ ->]].
    apply bind_ok in H as (st & w1 & H1 & H). apply ret_ok in H as [_ ->].
    assert (P : prints (check _print_line (c_str "Basic commands") ;;
                        check _print_help AT_COMMAND_TYPE_BASIC ;;
                        check _print_line (c_str "Extended commands") ;;
                        check _print_help AT_COMMAND_TYPE_EXTENDED ;;
                        check _print_line (c_str "Debug commands") ;;
                        _print_help AT_COMMAND_TYPE_DEBUG)) by prints_auto.
    destruct (P _ _ _ H1) as (_ & _ & out & T & Hq).
    now rewrite T, (Hq Q), app_nil_r. }
  destruct (Ascii.eqb marker AT_COMMAND_HEADER_EXTENDED);
    [exact (_parse_and_execute_command_silent _ _ _ _ _ _ Q Hcb H)|].
  destruct (Ascii.eqb marker AT_COMMAND_HEADER_DEBUG);
    exact (_parse_and_execute_command_silent _ _ _ _ _ _ Q Hcb H).
Qed.

(** C3, amended: a pass entered with the quiet flag set, in which the
    callbacks print through the formatter and which ends with the flag
    still set, hands no byte to the transport: echo, help lines, replies
    and the status line are all suppressed. *)
Theorem quiet_suppresses_output :
  forall (w w' : AT_world) (st : AT_status_t),
    quiet (flags (at_ctx w)) = true ->
    (forall r, In (Some r) (commands_list (at_ctx w)) -> callbacks_silent (AT_deref r)) ->
    AT_process w = Ok (st, w') ->
    quiet (flags (at_ctx w')) = true ->
    hw_tx w' = hw_tx w.
Proof.
  intros w w' st Q Hcb H Q'. unfold AT_process in H.
  apply bind_ok in H as (ctx & w0 & H0 & H). apply get_ctx_ok in H0 as [-> ->].
  destruct (negb (process (flags (at_ctx w))));
    [now apply ret_ok in H as [_ ->]|].
  apply bind_ok in H as ([st1 code] & w1 & Hbody & Hend).
  (* the pass up to the label *)
  assert (T1 : hw_tx w1 = hw_tx w).
  { unfold AT_process_body in Hbody.
    apply bind_ok in Hbody as (ctx & w0 & H0 & H). apply get_ctx_ok in H0 as [-> ->].
    apply bind_ok in H as ([] & wa & Ha & H). inversion Ha; subst wa; clear Ha.
    apply bind_ok in H as ([] & wb & Hb & H).
    assert (P : prints (if echo (flags (at_ctx w))
                        then _print_line (Some (rx_buffer (at_ctx w))) ;; ret tt
                        else ret tt)) by prints_auto.
    destruct (P _ _ _ Hb) as (Cb & _ & out & Tb & Hq).
    rewrite (Hq Q), app_nil_r in Tb. simpl in Tb, Cb.
    rewrite (AT_process_line_silent wb _ _) with (3 := H); [exact Tb| |].
    - rewrite Cb. exact Q.
    - rewrite Cb. exact Hcb. }
  (* the status line and the reset *)
  unfold AT_process_end in Hend. cbn [fst snd] in Hend.
  apply bind_ok in Hend as ([] & w2 & Hstatus & H).
  destruct (_print_command_status_line _ _ _ _ Hstatus) as (C2 & _ & T2).
  run_monad. inversion H; subst w'; clear H. simpl in *.
  rewrite C2 in Q'. rewrite Q' in T2. congruence.
Qed.

(** *** Determinism of the pass in the context *)

Lemma ctx_eqv_fields :
  forall c d, ctx_eqv c d ->
    process_callback c = process_callback d /\ flags c = flags d
    /\ rx_buffer c = rx_buffer d /\ rx_buffer_size c = rx_buffer_size d
    /\ commands_list c = commands_list d /\ commands_count c = commands_count d.
Proof.
  intros c d H. unfold ctx_eqv, with_current_command in H.
  inversion H. repeat split; assumption.
Qed.

Lemma ctx_eqv_eq :
  forall c d, ctx_eqv c d -> current_command c = current_command d -> c = d.
Proof.
  intros [] [] H Hc. apply ctx_eqv_fields in H. simpl in *.
  destruct H as (? & ? & ? & ? & ? & ?). subst. reflexivity.
Qed.

Section Respects.

Variable R : AT_context_t -> AT_context_t -> Prop.
Hypothesis R_eqv : forall c d, R c d -> ctx_eqv c d.

Lemma respects_ret : forall A (a : A), respects R (ret a).
Proof.
  intros A a w v H. simpl. repeat split; auto.
  exists []. now rewrite !app_nil_r.
Qed.

Lemma respects_fault : forall A e, respects R (@fault A e).
Proof. intros A e w v H. reflexivity. Qed.

Lemma respects_lift : forall A (r : AT_result A), respects R (lift r).
Proof.
  intros A [a|e] w v H; simpl; [|reflexivity].
  repeat split; auto. exists []. now rewrite !app_nil_r.
Qed.

Lemma respects_bind :
  forall A B (m : M A) (f : A -> M B),
    respects R m -> (forall a, respects R (f a)) -> respects R (bind m f).
Proof.
  intros A B m f Hm Hf w v H. specialize (Hm w v H). unfold bind.
  destruct (m w) as [[a w1]|e], (m v) as [[b v1]|e']; simpl in Hm;
    try contradiction; [|exact Hm].
  destruct Hm as (-> & HR & out1 & T1 & T1').
  specialize (Hf b w1 v1 HR).
  destruct (f b w1) as [[x w2]|e], (f b v1) as [[y v2]|e']; simpl in *;
    try contradiction; [|exact Hf].
  destruct Hf as (-> & HR2 & out2 & T2 & T2').
  repeat split; auto. exists (out1 ++ out2).
  now rewrite T2, T1, T2', T1', !app_assoc.
Qed.

Lemma respects_check :
  forall (m k : M AT_status_t),
    respects R m -> respects R k ->
    respects R (bind m (fun status => if is_success status then k else ret status)).
Proof.
  intros m k Hm Hk. apply respects_bind; [assumption|].
  intros st. destruct (is_success st); [assumption|apply respects_ret].
Qed.

Lemma respects__print_tab : forall tab n, respects R (_print_tab tab n).
Proof.
  intros tab n w v H. unfold _print_tab. run_monad.
  destruct (ctx_eqv_fields _ _ (R_eqv _ _ H)) as (_ & <- & _).
  destruct (quiet (flags (at_ctx w)) || (n =? 0)).
  - apply (respects_ret _ AT_SUCCESS w v H).
  - destruct (n <=? length tab); [|reflexivity].
    simpl. repeat split; auto. eauto.
Qed.

Create HintDb respects.
Hint Resolve respects_ret respects_fault respects_lift respects__print_tab
  : respects.

Ltac respects_auto :=
  repeat first
    [ solve [auto with respects]
    | apply respects_check
    | apply respects_bind; [|intro]
    | match goal with
      | |- respects _ (match ?x with _ => _ end) => destruct x
      end ].

Lemma respects__print : forall text, respects R (_print text).
Proof. intros text. unfold _print. respects_auto. Qed.

Lemma respects__end_line : respects R _end_line.
Proof. apply respects__print_tab. Qed.

Hint Resolve respects__print respects__end_line : respects.

Lemma respects__print_line : forall line, respects R (_print_line line).
Proof. intros line. unfold _print_line. respects_auto. Qed.

Lemma respects__print_command_header :
  forall t, respects R (_print_command_header t).
Proof. intros t. unfold _print_command_header. respects_auto. Qed.

Hint Resolve respects__print_line respects__print_command_header : respects.

Lemma respects_print_help_form :
  forall d t marker arguments text,
    respects R (print_help_form d t marker arguments text).
Proof. intros. unfold print_help_form. respects_auto. Qed.

Hint Resolve respects_print_help_form : respects.

Lemma respects_print_help_slot :
  forall t slot, respects R (print_help_slot t slot).
Proof. intros. unfold print_help_slot. respects_auto. Qed.

Hint Resolve respects_print_help_slot : respects.

Lemma respects_print_help_loop :
  forall t slots, respects R (print_help_loop t slots).
Proof.
  intros t. induction slots as [|slot rest IH]; simpl; respects_auto.
Qed.

Lemma respects__print_help : forall t, respects R (_print_help t).
Proof.
  intros t w v H.
  pose (K := fun c : AT_context_t =>
               count <- lift (load (commands_count c) (AT_command_type_index t)) ;;
               if (count =? 0)%Z then _print_line (c_str "    None")
               else print_help_loop t (commands_list c)).
  assert (P : forall c, respects R (K c)).
  { intros c. unfold K. apply respects_bind; [apply respects_lift|].
    intros count. destruct (count =? 0)%Z;
      [apply respects__print_line|apply respects_print_help_loop]. }
  assert (Hw : _print_help t w = K (at_ctx w) w) by reflexivity.
  assert (Hv : _print_help t v = K (at_ctx w) v).
  { destruct (ctx_eqv_fields _ _ (R_eqv _ _ H)) as (_ & _ & _ & _ & E1 & E2).
    unfold K. rewrite E1, E2. reflexivity. }
  rewrite Hw, Hv. exact (P _ w v H).
Qed.

End Respects.

Lemma eq_ctx_eqv : forall c d : AT_context_t, c = d -> ctx_eqv c d.
Proof. intros c d ->. reflexivity. Qed.

Lemma ctx_eqv_refl : forall c d : AT_context_t, ctx_eqv c d -> ctx_eqv c d.
Proof. auto. Qed.

Lemma local_get_ctx : respects eq get_ctx.
Proof.
  intros w v H. simpl. repeat split; auto. exists []. now rewrite !app_nil_r.
Qed.

Lemma local_modify_ctx : forall f, respects eq (modify_ctx f).
Proof.
  intros f w v H. simpl. rewrite H. repeat split; auto.
  exists []. now rewrite !app_nil_r.
Qed.

Lemma local_status_text : forall st code, respects eq (status_text st code).
Proof.
  intros st code. destruct st; simpl; try apply respects_ret.
  apply respects_bind; [apply local_get_ctx|]. intros ctx.
  destruct (current_command ctx) as [r|]; [|apply respects_fault].
  destruct (enum_to_str_callback (AT_deref r)) as [cb|]; [|apply respects_ret].
  destruct (cb _) as [s|]; [|apply respects_fault].
  apply respects_bind; [apply respects_lift|]. intros n. apply respects_ret.
Qed.

Lemma local__print_command_status :
  forall st code, respects eq (_print_command_status st code).
Proof.
  intros st code. unfold _print_command_status.
  apply respects_bind; [apply local_get_ctx|]. intros ctx.
  apply respects_bind.
  - destruct (negb (verbose (flags ctx))); [apply respects_ret|].
    destruct (is_success st);
      (apply respects_bind; [apply (respects__print eq eq_ctx_eqv)|]); intros _;
      [apply respects_ret|].
    apply respects_bind; [apply local_status_text|]. intros text.
    apply respects_ret.
  - intros formatted.
    apply respects_bind; [apply (respects__print_tab eq eq_ctx_eqv)|]. intros _.
    apply respects_bind; [apply (respects__end_line eq eq_ctx_eqv)|]. intros _.
    apply respects_ret.
Qed.

Lemma local__parse_and_execute_command :
  (forall r, callbacks_local (AT_deref r)) ->
  forall start t code, respects eq (_parse_and_execute_command start t code).
Proof.
  intros Hcb start t code. unfold _parse_and_execute_command.
  apply respects_bind; [apply local_modify_ctx|]. intros _.
  apply respects_bind; [apply local_get_ctx|]. intros ctx.
  apply respects_bind; [apply respects_lift|].
  intros [[r n]|]; [|apply respects_ret].
  apply respects_bind; [apply local_modify_ctx|]. intros _.
  apply respects_bind; [apply respects_lift|]. intros marker.
  destruct (Hcb r) as (Hx & Hr & Hw).
  destruct (Ascii.eqb marker AT_COMMAND_MARKER_EXECUTION).
  { destruct (execution_callback (AT_deref r)) as [cb|] eqn:E;
      [exact (Hx cb code eq_refl)|apply respects_ret]. }
  destruct (Ascii.eqb marker AT_COMMAND_MARKER_READ_HELP).
  { destruct (read_callback (AT_deref r)) as [cb|] eqn:E;
      [exact (Hr cb code eq_refl)|apply respects_ret]. }
  destruct (_ || _); [|apply respects_ret].
  destruct (write_callback (AT_deref r)) as [cb|] eqn:E; [|apply respects_ret].
  cbv zeta.
  apply respects_bind; [apply respects_lift|]. intros [[argv argc] cells].
  apply respects_bind; [apply local_modify_ctx|]. intros _.
  exact (Hw cb argc argv code eq_refl).
Qed.

(** The built-in callbacks are functions of the context. *)
Lemma builtin_callbacks_local : forall b, callbacks_local (AT_deref (Builtin b)).
Proof.
  assert (Hx : forall f, respects eq (modify_flags f ;; ret (AT_SUCCESS, 0%Z))).
  { intros f. apply respects_bind; [apply local_modify_ctx|]. intros _.
    apply respects_ret. }
  assert (Hw : forall (g : bool -> AT_flags_t -> AT_flags_t) argc argv,
             respects eq
               (r <- lift (_parse_bit argc argv 0) ;;
                if is_success (fst r) then
                  modify_flags (g (bitfield1 (snd r))) ;; ret (AT_SUCCESS, 0%Z)
                else ret (fst r, 0%Z))).
  { intros g argc argv. apply respects_bind; [apply respects_lift|]. intros r.
    destruct (is_success (fst r)); [apply Hx|apply respects_ret]. }
  intros []; repeat split; simpl; intros; try discriminate;
    match goal with H : Some _ = Some _ |- _ => inversion H; subst; clear H end;
    first [apply Hx | apply Hw].
Qed.

Lemma line_rel_ret : forall a, line_rel (ret a).
Proof.
  intros a w v H. simpl. repeat split; auto. exists []. now rewrite !app_nil_r.
Qed.

Lemma line_rel_prints :
  forall (m : M AT_status_t) (code : Z),
    prints m -> respects ctx_eqv m ->
    line_rel (status <- m ;; ret (status, code)).
Proof.
  intros m code Hp Hr w v H. specialize (Hr w v H). unfold bind, ret.
  destruct (m w) as [[a w1]|e] eqn:Ew, (m v) as [[b v1]|e'] eqn:Ev;
    simpl in *; try contradiction; [|exact Hr].
  destruct Hr as (-> & _ & Hout).
  destruct (Hp _ _ _ Ew) as (Cw & _). destruct (Hp _ _ _ Ev) as (Cv & _).
  repeat split; auto. right. rewrite Cw, Cv. auto.
Qed.

Lemma _parse_and_execute_command_reset :
  forall start t code w,
    _parse_and_execute_command start t code (world_with_current None w)
    = _parse_and_execute_command start t code w.
Proof. reflexivity. Qed.

Lemma line_rel_parse :
  (forall r, callbacks_local (AT_deref r)) ->
  forall start t code, line_rel (_parse_and_execute_command start t code).
Proof.
  intros Hcb start t code w v H.
  rewrite <- (_parse_and_execute_command_reset start t code w).
  rewrite <- (_parse_and_execute_command_reset start t code v).
  pose proof (local__parse_and_execute_command Hcb start t code
                (world_with_current None w) (world_with_current None v) H) as L.
  destruct (_parse_and_execute_command start t code (world_with_current None w))
    as [[a w1]|e],
      (_parse_and_execute_command start t code (world_with_current None v))
        as [[b v1]|e']; simpl in *; try contradiction; [|exact L].
  destruct L as (-> & C & Hout). repeat split; auto.
Qed.

Ltac step_get :=
  repeat match goal with
         | |- context [bind get_ctx ?f ?x] =>
             change (bind get_ctx f x) with (f (at_ctx x) x); cbv beta
         end.

Lemma line_rel_lift :
  forall A (r : AT_result A) (k : A -> M (AT_status_t * Z)),
    (forall a, line_rel (k a)) -> line_rel (bind (lift r) k).
Proof.
  intros A [a|e] k Hk w v H; [exact (Hk a w v H)|reflexivity].
Qed.

Lemma AT_process_line_rel :
  (forall r, callbacks_local (AT_deref r)) -> line_rel AT_process_line.
Proof.
  intros Hcb w v H.
  pose proof (ctx_eqv_fields _ _ H) as (_ & _ & Hbuf & _).
  pose (K := fun buf : list ascii =>
    header <- lift (match AT_HEADER with
                    | Some h => memcmp_eq buf h command_start_idx
                    | None => Fault NullDereference
                    end) ;;
    if header then
      marker <- lift (load buf command_start_idx) ;;
      if Ascii.eqb marker AT_COMMAND_MARKER_EXECUTION then ret (AT_SUCCESS, 0%Z)
      else if Ascii.eqb marker AT_COMMAND_MARKER_READ_HELP then
        next <- lift (load buf (command_start_idx + 1)) ;;
        if Ascii.eqb next AT_COMMAND_MARKER_EXECUTION then
          status <- (check _print_line (c_str "Basic commands") ;;
                     check _print_help AT_COMMAND_TYPE_BASIC ;;
                     check _print_line (c_str "Extended commands") ;;
                     check _print_help AT_COMMAND_TYPE_EXTENDED ;;
                     check _print_line (c_str "Debug commands") ;;
                     _print_help AT_COMMAND_TYPE_DEBUG) ;;
          ret (status, 0%Z)
        else ret (AT_ERROR_INTERNAL_COMMAND_PARSING, 0%Z)
      else if Ascii.eqb marker AT_COMMAND_HEADER_EXTENDED then
        _parse_and_execute_command (command_start_idx + 1)
          AT_COMMAND_TYPE_EXTENDED 0%Z
      else if Ascii.eqb marker AT_COMMAND_HEADER_DEBUG then
        _parse_and_execute_command (command_start_idx + 1)
          AT_COMMAND_TYPE_DEBUG 0%Z
      else
        _parse_and_execute_command command_start_idx AT_COMMAND_TYPE_BASIC 0%Z
    else ret (AT_ERROR_INTERNAL_COMMAND_PARSING, 0%Z)).
  assert (Hw : AT_process_line w = K (rx_buffer (at_ctx w)) w) by reflexivity.
  assert (Hv : AT_process_line v = K (rx_buffer (at_ctx w)) v)
    by (rewrite Hbuf; reflexivity).
  rewrite Hw, Hv. generalize (rx_buffer (at_ctx w)). intros buf.
  clear Hw Hv Hbuf. revert w v H. change (line_rel (K buf)). unfold K.
  apply line_rel_lift. intros [|]; [|apply line_rel_ret].
  apply line_rel_lift. intros marker.
  destruct (Ascii.eqb marker AT_COMMAND_MARKER_EXECUTION); [apply line_rel_ret|].
  destruct (Ascii.eqb marker AT_COMMAND_MARKER_READ_HELP).
  { apply line_rel_lift. intros next.
    destruct (Ascii.eqb next AT_COMMAND_MARKER_EXECUTION); [|apply line_rel_ret].
    apply line_rel_prints.
    - prints_auto.
    - repeat first
        [ apply (respects__print_line ctx_eqv ctx_eqv_refl)
        | apply (respects__print_help ctx_eqv ctx_eqv_refl)
        | apply respects_check ]. }
  destruct (Ascii.eqb marker AT_COMMAND_HEADER_EXTENDED);
    [apply (line_rel_parse Hcb)|].
  destruct (Ascii.eqb marker AT_COMMAND_HEADER_DEBUG); apply (line_rel_parse Hcb).
Qed.

Lemma ctx_eqv_with_flags :
  forall f c d, ctx_eqv c d ->
    ctx_eqv (with_flags (f (flags c)) c) (with_flags (f (flags d)) d).
Proof.
  intros f c d H. pose proof (ctx_eqv_fields _ _ H) as (? & Hf & ? & ? & ? & ?).
  unfold ctx_eqv, with_current_command, with_flags in *. simpl.
  inversion H. congruence.
Qed.

Lemma line_rel_modify_flags :
  forall f k, line_rel k -> line_rel (modify_flags f ;; k).
Proof.
  intros f k Hk w v H.
  exact (Hk (world_with_flags f w) (world_with_flags f v)
            (ctx_eqv_with_flags f _ _ H)).
Qed.

Lemma line_rel_after_prints :
  forall (m : M unit) k,
    prints m -> respects ctx_eqv m -> line_rel k -> line_rel (m ;; k).
Proof.
  intros m k Hp Hr Hk w v H. specialize (Hr w v H). unfold bind.
  destruct (m w) as [[[] w1]|e] eqn:Ew, (m v) as [[[] v1]|e'] eqn:Ev;
    simpl in Hr; try contradiction; [|exact Hr].
  destruct Hr as (_ & H1 & out1 & T1 & T1').
  destruct (Hp _ _ _ Ew) as (Cw & _). destruct (Hp _ _ _ Ev) as (Cv & _).
  specialize (Hk w1 v1 H1).
  destruct (k w1) as [[a w2]|e], (k v1) as [[b v2]|e']; simpl in *;
    try contradiction; [|exact Hk].
  destruct Hk as (-> & (out2 & T2 & T2') & Hc). repeat split; auto.
  - exists (out1 ++ out2). now rewrite T2, T1, T2', T1', !app_assoc.
  - rewrite <- Cw, <- Cv. exact Hc.
Qed.

Lemma AT_process_body_rel :
  (forall r, callbacks_local (AT_deref r)) -> line_rel AT_process_body.
Proof.
  intros Hcb w v H.
  pose proof (ctx_eqv_fields _ _ H) as (_ & Hf & Hbuf & _).
  pose (K := fun (e : bool) (buf : list ascii) =>
               modify_flags (set_process false) ;;
               (if e then _print_line (Some buf) ;; ret tt else ret tt) ;;
               AT_process_line).
  assert (Hw : AT_process_body w
               = K (echo (flags (at_ctx w))) (rx_buffer (at_ctx w)) w)
    by reflexivity.
  assert (Hv : AT_process_body v
               = K (echo (flags (at_ctx w))) (rx_buffer (at_ctx w)) v)
    by (rewrite Hf, Hbuf; reflexivity).
  rewrite Hw, Hv. generalize (echo (flags (at_ctx w))) (rx_buffer (at_ctx w)).
  intros e buf. clear Hw Hv Hf Hbuf. revert w v H.
  change (line_rel (K e buf)). unfold K.
  apply line_rel_modify_flags. apply line_rel_after_prints.
  - prints_auto.
  - destruct e; [|apply respects_ret].
    apply respects_bind; [apply (respects__print_line ctx_eqv ctx_eqv_refl)|].
    intros _. apply respects_ret.
  - apply AT_process_line_rel, Hcb.
Qed.

Lemma AT_process_end_ok :
  forall st code w st' w',
    AT_process_end st code w = Ok (st', w') ->
    st' = st
    /\ exists w2, _print_command_status st code w = Ok (tt, w2)
                  /\ hw_tx w' = hw_tx w2
                  /\ current_command (at_ctx w') = current_command (at_ctx w).
Proof.
  intros st code w st' w' H. unfold AT_process_end in H.
  apply bind_ok in H as ([] & w2 & Hs & H).
  destruct (_print_command_status_line _ _ _ _ Hs) as (C & _).
  run_monad. inversion H; subst. split; [reflexivity|].
  exists w2. simpl. rewrite C. auto.
Qed.

(** Two passes from contexts that differ at most in the current
    command, the second one entered with the current command that the
    first one leaves: the same status and the same bytes. *)
Lemma AT_process_rel :
  (forall r, callbacks_local (AT_deref r)) ->
  forall w v st w',
    ctx_eqv (at_ctx w) (at_ctx v) ->
    AT_process w = Ok (st, w') ->
    current_command (at_ctx v) = current_command (at_ctx w') ->
    exists v' out,
      AT_process v = Ok (st, v')
      /\ hw_tx w' = hw_tx w ++ out /\ hw_tx v' = hw_tx v ++ out.
Proof.
  intros Hcb w v st w' H Hrun Hcur.
  pose proof (ctx_eqv_fields _ _ H) as (_ & Hf & _).
  unfold AT_process in *. unfold bind at 1 in Hrun. unfold bind at 1.
  unfold get_ctx in *. rewrite <- Hf.
  destruct (negb (process (flags (at_ctx w)))).
  { inversion Hrun; subst. exists v, []. now rewrite !app_nil_r. }
  apply bind_ok in Hrun as ([st1 code] & w1 & Hbody & Hend).
  cbn [fst snd] in Hend.
  apply AT_process_end_ok in Hend as (<- & w2 & Hs & T2 & C2).
  pose proof (AT_process_body_rel Hcb w v H) as Hrel.
  rewrite Hbody in Hrel. unfold bind.
  destruct (AT_process_body v) as [[[st2 code2] v1]|e]; simpl in Hrel;
    [|contradiction].
  destruct Hrel as (Heq & (out1 & T1 & T1') & Hc). inversion Heq; subst st2 code2.
  assert (Hctx : at_ctx w1 = at_ctx v1).
  { destruct Hc as [Hc|(He & Cw & Cv)]; [exact Hc|].
    apply ctx_eqv_eq; [exact He|]. congruence. }
  cbn [fst snd]. unfold AT_process_end. unfold bind at 1.
  pose proof (local__print_command_status st code w1 v1 Hctx) as L.
  rewrite Hs in L.
  destruct (_print_command_status st code v1) as [[[] v2]|e]; simpl in L;
    [|contradiction].
  destruct L as (_ & _ & out2 & T3 & T3').
  run_monad. eexists. exists (out1 ++ out2). split; [reflexivity|]. simpl.
  rewrite T2, T3, T1, T3', T1', !app_assoc. auto.
Qed.

Lemma _rx_irq_callback_rel :
  forall b w v w',
    ctx_eqv (at_ctx w) (at_ctx v) ->
    _rx_irq_callback b w = Ok (tt, w') ->
    exists v',
      _rx_irq_callback b v = Ok (tt, v')
      /\ ctx_eqv (at_ctx w') (at_ctx v')
      /\ hw_tx w' = hw_tx w /\ hw_tx v' = hw_tx v
      /\ current_command (at_ctx v') = current_command (at_ctx v).
Proof.
  intros b w v w' H Hrun.
  pose proof (ctx_eqv_fields _ _ H) as (Hp & Hf & Hb & Hs & _).
  unfold _rx_irq_callback in *. run_monad. rewrite <- Hp, <- Hf, <- Hb, <- Hs.
  destruct (Ascii.eqb b NUL || pending (flags (at_ctx w))).
  { inversion Hrun; subst. eauto 6. }
  destruct (Ascii.eqb b AT_COMMAND_MARKER_END).
  { destruct (process_callback (at_ctx w)); inversion Hrun; subst; simpl;
      eexists; (split; [reflexivity|]); simpl; repeat split; auto;
        unfold ctx_eqv, with_current_command in *; simpl;
          inversion H; congruence. }
  destruct (store (rx_buffer (at_ctx w)) (rx_buffer_size (at_ctx w)) b);
    [|discriminate].
  inversion Hrun; subst; simpl. eexists. split; [reflexivity|]. simpl.
  repeat split; auto.
  unfold ctx_eqv, with_current_command in *; simpl. inversion H. congruence.
Qed.

Lemma AT_receive_rel :
  forall bytes w v w',
    ctx_eqv (at_ctx w) (at_ctx v) ->
    AT_receive bytes w = Ok (tt, w') ->
    exists v',
      AT_receive bytes v = Ok (tt, v')
      /\ ctx_eqv (at_ctx w') (at_ctx v')
      /\ hw_tx w' = hw_tx w /\ hw_tx v' = hw_tx v
      /\ current_command (at_ctx v') = current_command (at_ctx v).
Proof.
  induction bytes as [|b rest IH]; intros w v w' H Hrun; simpl in *.
  - inversion Hrun; subst. exists v. auto.
  - apply bind_ok in Hrun as ([] & w1 & H1 & H2).
    destruct (_rx_irq_callback_rel b w v w1 H H1) as (v1 & E1 & He & T & T' & C).
    destruct (IH w1 v1 w' He H2) as (v' & E2 & He' & T2 & T2' & C2).
    exists v'. unfold bind. rewrite E1. repeat split; auto; congruence.
Qed.

Lemma all_callbacks_local :
  (forall n, callbacks_local (user_commands n)) ->
  forall r, callbacks_local (AT_deref r).
Proof.
  intros Hu [b|n]; [apply builtin_callbacks_local|apply Hu].
Qed.

(** C8, amended: when every callback of the application is a function
    of the context, and the first run of a line returns the context to
    what it was before the line arrived (same mode flags, same registry,
    idle line buffer; the current command apart), then the second run
    of the same line returns the same status and hands the same bytes
    to the transport. *)
Theorem same_line_twice_same_output :
  (forall n, callbacks_local (user_commands n)) ->
  forall (line : list ascii) (w w1 : AT_world) (st : AT_status_t),
    AT_run line w = Ok (st, w1) ->
    ctx_eqv (at_ctx w1) (at_ctx w) ->
    exists out w2,
      hw_tx w1 = hw_tx w ++ out
      /\ AT_run line w1 = Ok (st, w2)
      /\ hw_tx w2 = hw_tx w1 ++ out.
Proof.
  intros Hu line w w1 st Hrun Hctx.
  pose proof (all_callbacks_local Hu) as Hcb.
  unfold AT_run in *. apply bind_ok in Hrun as ([] & wr & Hrecv & Hproc).
  assert (Hsym : ctx_eqv (at_ctx w) (at_ctx w1)) by (symmetry; exact Hctx).
  destruct (AT_receive_rel _ w w1 wr Hsym Hrecv) as (vr & Ev & He & T & T' & C).
  destruct (AT_process_rel Hcb wr vr st w1 He Hproc C) as (w2 & out & E2 & T1 & T2).
  exists out, w2. unfold bind. rewrite Ev. repeat split; auto; congruence.
Qed.

(** The built-in callbacks never call the transport. *)
Lemma builtin_callbacks_silent : forall b, callbacks_silent (AT_deref (Builtin b)).
Proof.
  assert (Hx : forall f, callback_silent (modify_flags f ;; ret (AT_SUCCESS, 0%Z))).
  { intros f w a w' _ H. run_monad. now inversion H. }
  assert (Hw : forall (g : bool -> AT_flags_t -> AT_flags_t) argc argv,
             callback_silent
               (r <- lift (_parse_bit argc argv 0) ;;
                if is_success (fst r) then
                  modify_flags (g (bitfield1 (snd r))) ;; ret (AT_SUCCESS, 0%Z)
                else ret (fst r, 0%Z))).
  { intros g argc argv w a w' _ H. run_monad.
    destruct (_parse_bit argc argv 0) as [[st bit]|e]; [|discriminate].
    simpl in H. destruct (is_success st); now inversion H. }
  intros []; repeat split; simpl; intros; try discriminate;
    match goal with H : Some _ = Some _ |- _ => inversion H; subst; clear H end;
    first [apply Hx | apply Hw].
Qed.

(** *** Receive accumulator: the stored line *)

Lemma store_at :
  forall A (a : list A) i v, i < length a ->
    store a i v = Ok (firstn i a ++ v :: skipn (S i) a).
Proof.
  induction a as [|h t IH]; intros i v H; simpl in H; [lia|].
  destruct i as [|j]; [reflexivity|].
  cbn [store]. rewrite IH by lia. reflexivity.
Qed.

Lemma buffer_with_nil :
  forall buf size, buffer_with buf size [] = buf.
Proof.
  intros buf size. unfold buffer_with. cbn [length app].
  rewrite Nat.add_0_r. apply firstn_skipn.
Qed.

Lemma buffer_with_length :
  forall buf size data, size + length data <= length buf ->
    length (buffer_with buf size data) = length buf.
Proof.
  intros buf size data H. unfold buffer_with.
  rewrite !length_app, length_firstn, length_skipn. lia.
Qed.

Lemma firstn_past :
  forall (a t : list ascii) b, firstn (S (length a)) (a ++ b :: t) = a ++ [b].
Proof.
  induction a as [|x a IH]; intros t b; [reflexivity|].
  change (x :: firstn (S (length a)) (a ++ b :: t) = x :: a ++ [b]).
  now rewrite IH.
Qed.

Lemma skipn_past :
  forall (a t : list ascii) b k, skipn (S (length a) + k) (a ++ b :: t) = skipn k t.
Proof.
  induction a as [|x a IH]; intros t b k; [reflexivity|].
  cbn [length app]. exact (IH t b k).
Qed.

Lemma buffer_with_cons :
  forall buf size b data, size < length buf ->
    buffer_with (buffer_with buf size [b]) (S size) data
    = buffer_with buf size (b :: data).
Proof.
  intros buf size b data H. unfold buffer_with. cbn [length app].
  assert (L : length (firstn size buf) = size) by (rewrite length_firstn; lia).
  replace (skipn (size + S (length data)) buf)
    with (skipn (length data) (skipn (size + 1) buf))
    by (rewrite skipn_skipn; f_equal; lia).
  generalize (skipn (size + 1) buf) as t. intros t.
  revert L. generalize (firstn size buf) as a. intros a L. subst size.
  rewrite firstn_past, skipn_past, <- app_assoc. reflexivity.
Qed.

(** A byte that is neither null nor the end marker goes to the cell at
    the fill length, which then advances modulo the size of the buffer. *)
Lemma _rx_irq_callback_data :
  forall data w,
    pending (flags (at_ctx w)) = false ->
    data <> NUL -> data <> AT_COMMAND_MARKER_END ->
    rx_buffer_size (at_ctx w) < length (rx_buffer (at_ctx w)) ->
    _rx_irq_callback data w
    = Ok (tt, world_with_ctx
                (with_rx_buffer_size
                   ((rx_buffer_size (at_ctx w) + 1) mod AT_BUFFER_SIZE)
                   (with_rx_buffer
                      (buffer_with (rx_buffer (at_ctx w))
                         (rx_buffer_size (at_ctx w)) [data])
                      (at_ctx w)))
                w).
Proof.
  intros data w Hp Hn Hm Hlt. unfold _rx_irq_callback, bind, get_ctx.
  apply ascii_eqb_false in Hn, Hm. rewrite Hn, Hp, Hm. cbn [orb].
  rewrite (store_at _ _ _ _ Hlt). unfold lift, modify_ctx.
  unfold buffer_with. cbn [length app]. rewrite Nat.add_1_r. reflexivity.
Qed.

Lemma _rx_irq_callback_null :
  forall w, _rx_irq_callback NUL w = Ok (tt, w).
Proof. intros w. reflexivity. Qed.

Lemma _rx_irq_callback_pending :
  forall data w, pending (flags (at_ctx w)) = true ->
    _rx_irq_callback data w = Ok (tt, w).
Proof.
  intros data w Hp. unfold _rx_irq_callback, bind, get_ctx.
  rewrite Hp, orb_true_r. reflexivity.
Qed.

Lemma _rx_irq_callback_marker :
  forall w, pending (flags (at_ctx w)) = false ->
    _rx_irq_callback AT_COMMAND_MARKER_END w
    = Ok (tt, mk_world (line_ready (at_ctx w)) (hw_tx w)
                (notified w ++ match process_callback (at_ctx w) with
                               | Some h => [h]
                               | None => []
                               end)).
Proof.
  intros [c tx n] Hp. unfold _rx_irq_callback, bind, get_ctx.
  cbn [at_ctx] in *. rewrite Hp.
  change (Ascii.eqb AT_COMMAND_MARKER_END NUL) with false.
  rewrite Ascii.eqb_refl. cbn [orb].
  unfold modify_flags, modify_ctx, line_ready. cbn [at_ctx hw_tx notified].
  destruct (process_callback c) as [h|]; unfold notify, ret;
    cbn [at_ctx hw_tx notified flags with_flags process_callback];
    rewrite ?app_nil_r; reflexivity.
Qed.

Lemma AT_receive_pending :
  forall bytes w, pending (flags (at_ctx w)) = true ->
    AT_receive bytes w = Ok (tt, w).
Proof.
  induction bytes as [|b rest IH]; intros w Hp; [reflexivity|].
  cbn [AT_receive]. unfold bind. rewrite _rx_irq_callback_pending by exact Hp.
  apply IH, Hp.
Qed.

Lemma AT_receive_app :
  forall a b, forall w,
    AT_receive (a ++ b) w = bind (AT_receive a) (fun _ => AT_receive b) w.
Proof.
  induction a as [|x a IH]; intros b w; [reflexivity|].
  cbn [AT_receive app]. unfold bind.
  destruct (_rx_irq_callback x w) as [[[] w1]|e]; [|reflexivity].
  rewrite IH. reflexivity.
Qed.

(** Bytes without an end marker, as long as they fit: the stored ones
    follow each other from the fill length on. *)
Lemma AT_receive_data :
  forall bytes w,
    pending (flags (at_ctx w)) = false ->
    ~ In AT_COMMAND_MARKER_END bytes ->
    length (rx_buffer (at_ctx w)) = AT_BUFFER_SIZE ->
    rx_buffer_size (at_ctx w) < AT_BUFFER_SIZE ->
    rx_buffer_size (at_ctx w) + length (stored_bytes bytes) <= AT_BUFFER_SIZE ->
    AT_receive bytes w
    = Ok (tt, world_with_ctx
                (with_rx_buffer_size
                   ((rx_buffer_size (at_ctx w) + length (stored_bytes bytes))
                      mod AT_BUFFER_SIZE)
                   (with_rx_buffer
                      (buffer_with (rx_buffer (at_ctx w))
                         (rx_buffer_size (at_ctx w)) (stored_bytes bytes))
                      (at_ctx w)))
                w).
Proof.
  induction bytes as [|b rest IH]; intros w Hp Hm Hlen Hlt Hfit.
  - cbn [AT_receive stored_bytes filter length]. unfold ret.
    rewrite Nat.add_0_r, Nat.mod_small, buffer_with_nil by exact Hlt.
    destruct w as [[cb f buf size cur cl cc] tx n]. reflexivity.
  - assert (Hm' : ~ In AT_COMMAND_MARKER_END rest) by (intros H; apply Hm; now right).
    assert (Hb : b <> AT_COMMAND_MARKER_END) by (intros ->; apply Hm; now left).
    cbn [AT_receive]. unfold bind.
    unfold stored_bytes in *. cbn [filter] in *.
    destruct (Ascii.eqb_spec b NUL) as [->|Hn]; cbn [negb] in *.
    + rewrite _rx_irq_callback_null. apply IH; assumption.
    + cbn [length] in Hfit.
      rewrite _rx_irq_callback_data by (try assumption; lia).
      set (size := rx_buffer_size (at_ctx w)) in *.
      set (buf := rx_buffer (at_ctx w)) in *.
      set (kept := filter (fun c => negb (Ascii.eqb c NUL)) rest) in *.
      set (size1 := (size + 1) mod AT_BUFFER_SIZE).
      set (buf1 := buffer_with buf size [b]).
      assert (Hlen1 : length buf1 = AT_BUFFER_SIZE).
      { unfold buf1. rewrite buffer_with_length; [exact Hlen|cbn [length]; lia]. }
      assert (Hlt1 : size1 < AT_BUFFER_SIZE).
      { unfold size1. apply Nat.mod_upper_bound. discriminate. }
      assert (H1 : size1 + length kept <= AT_BUFFER_SIZE
                   /\ (size1 + length kept) mod AT_BUFFER_SIZE
                      = (size + S (length kept)) mod AT_BUFFER_SIZE
                   /\ buffer_with buf1 size1 kept = buffer_with buf size (b :: kept)).
      { destruct (Nat.eq_dec (size + 1) AT_BUFFER_SIZE) as [Hfull|Hroom].
        - (* the last cell: the fill length wraps *)
          assert (Hk : kept = []) by (destruct kept; [reflexivity|simpl in Hfit; lia]).
          assert (Hs : size1 = 0) by (unfold size1; rewrite Hfull; apply Nat.Div0.mod_same).
          rewrite Hk, Hs. cbn [length]. rewrite buffer_with_nil.
          replace (size + 1) with AT_BUFFER_SIZE by lia.
          rewrite Nat.Div0.mod_same.
          repeat split; try reflexivity. lia.
        - assert (Hs : size1 = S size).
          { unfold size1. rewrite Nat.mod_small by lia. lia. }
          rewrite Hs. unfold buf1. rewrite buffer_with_cons by (fold buf; lia).
          repeat split; try reflexivity; [lia|f_equal; lia]. }
      destruct H1 as (Hfit1 & Hsize & Hbuf).
      rewrite IH; cbn [at_ctx world_with_ctx with_rx_buffer_size with_rx_buffer
                         rx_buffer rx_buffer_size flags hw_tx notified];
        try assumption.
      fold kept. fold size1 buf1. rewrite Hsize, Hbuf. reflexivity.
Qed.

(** X1: a line received while no line is pending.  The bytes before the
    end marker are stored in order from the fill length on, null bytes
    left out; the end marker raises both flags and calls the hook once;
    whatever follows the end marker is dropped. *)
Theorem AT_receive_completes_line :
  forall (line later : list ascii) (w : AT_world),
    pending (flags (at_ctx w)) = false ->
    ~ In AT_COMMAND_MARKER_END line ->
    length (rx_buffer (at_ctx w)) = AT_BUFFER_SIZE ->
    rx_buffer_size (at_ctx w) + length (stored_bytes line) < AT_BUFFER_SIZE ->
    AT_receive (line ++ AT_COMMAND_MARKER_END :: later) w
    = Ok (tt, mk_world
                (line_ready
                   (with_rx_buffer_size
                      (rx_buffer_size (at_ctx w) + length (stored_bytes line))
                      (with_rx_buffer
                         (buffer_with (rx_buffer (at_ctx w))
                            (rx_buffer_size (at_ctx w)) (stored_bytes line))
                         (at_ctx w))))
                (hw_tx w)
                (notified w ++ match process_callback (at_ctx w) with
                               | Some h => [h]
                               | None => []
                               end)).
Proof.
  intros line later w Hp Hm Hlen Hfit.
  rewrite AT_receive_app. unfold bind.
  rewrite AT_receive_data by (try assumption; lia).
  rewrite Nat.mod_small by exact Hfit.
  cbn [AT_receive]. unfold bind.
  rewrite _rx_irq_callback_marker by exact Hp.
  rewrite AT_receive_pending by reflexivity.
  reflexivity.
Qed.

(** *** Receive accumulator: bounds *)

Lemma _rx_irq_callback_in_bounds :
  forall data w,
    length (rx_buffer (at_ctx w)) = AT_BUFFER_SIZE ->
    rx_buffer_size (at_ctx w) < AT_BUFFER_SIZE ->
    exists w',
      _rx_irq_callback data w = Ok (tt, w')
      /\ length (rx_buffer (at_ctx w')) = AT_BUFFER_SIZE
      /\ rx_buffer_size (at_ctx w') < AT_BUFFER_SIZE
      /\ hw_tx w' = hw_tx w
      /\ commands_list (at_ctx w') = commands_list (at_ctx w)
      /\ commands_count (at_ctx w') = commands_count (at_ctx w).
Proof.
  intros data w Hlen Hlt.
  destruct (pending (flags (at_ctx w))) eqn:Hp.
  { exists w. rewrite _rx_irq_callback_pending by exact Hp.
    repeat split; assumption. }
  destruct (Ascii.eqb_spec data NUL) as [->|Hn].
  { exists w. rewrite _rx_irq_callback_null. repeat split; assumption. }
  destruct (Ascii.eqb_spec data AT_COMMAND_MARKER_END) as [->|Hm].
  { eexists. rewrite _rx_irq_callback_marker by exact Hp.
    split; [reflexivity|]. cbn [at_ctx line_ready with_flags rx_buffer
      rx_buffer_size hw_tx commands_list commands_count].
    repeat split; assumption. }
  eexists. rewrite _rx_irq_callback_data by (try assumption; lia).
  split; [reflexivity|].
  cbn [at_ctx world_with_ctx with_rx_buffer_size with_rx_buffer rx_buffer
         rx_buffer_size hw_tx commands_list commands_count].
  rewrite buffer_with_length by (cbn [length]; lia).
  repeat split; try assumption.
  apply Nat.mod_upper_bound. discriminate.
Qed.

(** X2: the accumulator never writes outside the line buffer.  Whatever
    bytes arrive, each one is handled, the buffer keeps its 128 cells and
    the fill length stays below 128 (it wraps to zero after the last
    cell); nothing is sent and the registry is not touched. *)
Theorem AT_receive_stays_in_buffer :
  forall (bytes : list ascii) (w : AT_world),
    length (rx_buffer (at_ctx w)) = AT_BUFFER_SIZE ->
    rx_buffer_size (at_ctx w) < AT_BUFFER_SIZE ->
    exists w',
      AT_receive bytes w = Ok (tt, w')
      /\ length (rx_buffer (at_ctx w')) = AT_BUFFER_SIZE
      /\ rx_buffer_size (at_ctx w') < AT_BUFFER_SIZE
      /\ hw_tx w' = hw_tx w
      /\ commands_list (at_ctx w') = commands_list (at_ctx w)
      /\ commands_count (at_ctx w') = commands_count (at_ctx w).
Proof.
  induction bytes as [|b rest IH]; intros w Hlen Hlt.
  - exists w. repeat split; assumption.
  - destruct (_rx_irq_callback_in_bounds b w Hlen Hlt)
      as (w1 & E1 & L1 & S1 & T1 & R1 & C1).
    destruct (IH w1 L1 S1) as (w' & E & L & S & T & R & C).
    exists w'. cbn [AT_receive]. unfold bind. rewrite E1.
    repeat split; try assumption; congruence.
Qed.


Lemma stored_bytes_all :
  forall bytes, ~ In NUL bytes -> stored_bytes bytes = bytes.
Proof.
  induction bytes as [|b rest IH]; intros Hn; [reflexivity|].
  unfold stored_bytes in *. cbn [filter].
  destruct (Ascii.eqb_spec b NUL) as [->|Hb].
  - exfalso. apply Hn. now left.
  - cbn [negb]. rewrite IH; [reflexivity|]. intros H. apply Hn. now right.
Qed.





(** *** Registry: the two loops *)

Lemma is_registered_In :
  forall command slots, is_registered command slots = true <-> In command slots.
Proof.
  intros command. induction slots as [|slot rest IH]; simpl.
  - split; [discriminate|contradiction].
  - destruct (ptr_eqb slot command) eqn:E.
    + apply ptr_eqb_eq in E. subst. split; auto.
    + rewrite IH. split; [auto|]. intros [->|H]; [|exact H].
      rewrite ptr_eqb_refl in E. discriminate.
Qed.

Lemma is_registered_not_In :
  forall command slots, is_registered command slots = false <-> ~ In command slots.
Proof.
  intros command slots. rewrite <- is_registered_In.
  destruct (is_registered command slots); split; congruence.
Qed.

Lemma fill_first_free_split :
  forall command before after,
    ~ In None before ->
    fill_first_free command (before ++ None :: after)
    = Some (before ++ command :: after).
Proof.
  induction before as [|s before IH]; intros after Hfull; [reflexivity|].
  cbn [app fill_first_free]. destruct s as [r|].
  - rewrite IH; [reflexivity|]. intros H. apply Hfull. now right.
  - exfalso. apply Hfull. now left.
Qed.

Lemma first_free_slot :
  forall slots : list (option AT_command_ref),
    In None slots ->
    exists before after, slots = before ++ None :: after /\ ~ In None before.
Proof.
  induction slots as [|s rest IH]; intros Hin; [contradiction|].
  destruct s as [r|].
  - destruct Hin as [H|H]; [discriminate|].
    destruct (IH H) as (before & after & -> & Hfull).
    exists (Some r :: before), after. split; [reflexivity|].
    intros [E|E]; [discriminate|auto].
  - exists [], rest. split; [reflexivity|]. intros [].
Qed.

Lemma release_first_split :
  forall command before after,
    ~ In command before ->
    release_first command (before ++ command :: after)
    = Some (before ++ None :: after).
Proof.
  induction before as [|s before IH]; intros after Hnot.
  - cbn [app release_first]. now rewrite ptr_eqb_refl.
  - cbn [app release_first]. destruct (ptr_eqb s command) eqn:E.
    + apply ptr_eqb_eq in E. exfalso. apply Hnot. now left.
    + rewrite IH; [reflexivity|]. intros H. apply Hnot. now right.
Qed.

Lemma release_first_unknown :
  forall command slots,
    is_registered command slots = false -> release_first command slots = None.
Proof.
  intros command. induction slots as [|s rest IH]; intros H; [reflexivity|].
  cbn [is_registered release_first] in *.
  destruct (ptr_eqb s command); [discriminate|]. now rewrite IH.
Qed.

Lemma first_occurrence :
  forall (command : option AT_command_ref) slots,
    In command slots ->
    exists before after, slots = before ++ command :: after /\ ~ In command before.
Proof.
  intros command. induction slots as [|s rest IH]; intros Hin; [contradiction|].
  destruct (ptr_eqb s command) eqn:E.
  - apply ptr_eqb_eq in E. subst s. exists [], rest. split; [reflexivity|]. intros [].
  - destruct Hin as [H|H].
    + subst s. rewrite ptr_eqb_refl in E. discriminate.
    + destruct (IH H) as (before & after & -> & Hnot).
      exists (s :: before), after. split; [reflexivity|].
      intros [<-|H']; [|auto]. rewrite ptr_eqb_refl in E. discriminate.
Qed.

(** A descriptor that passes the three checks on its fields. *)
Lemma register_checks_pass :
  forall r X (a b : X),
    (write_callback (AT_deref r) <> None -> write_arguments (AT_deref r) <> None) ->
    match write_callback (AT_deref r), write_arguments (AT_deref r) with
    | Some _, None => a
    | _, _ => b
    end = b.
Proof.
  intros r X a b Hargs. destruct (write_callback (AT_deref r)); [|reflexivity].
  destruct (write_arguments (AT_deref r)); [reflexivity|].
  exfalso. apply Hargs; congruence.
Qed.

Lemma count_add_counted :
  forall delta t b e d,
    t <> AT_COMMAND_TYPE_LAST ->
    count_add delta t [b; e; d] = Ok (counted delta t b e d).
Proof. intros delta [] b e d H; try reflexivity. congruence. Qed.

(** X4: registration with room in the list.  A valid descriptor that is
    not yet registered is stored in the free slot of lowest index; the
    other slots keep their content, the counter of the descriptor's kind
    goes up by one (on [uint8_t]) and nothing else in the world changes. *)
Theorem register_takes_first_free_slot :
  forall (r : AT_command_ref) (w : AT_world)
         (before after : list (option AT_command_ref)) (b e d : Z),
    commands_list (at_ctx w) = before ++ None :: after ->
    ~ In None before ->
    ~ In (Some r) (commands_list (at_ctx w)) ->
    commands_count (at_ctx w) = [b; e; d] ->
    type (AT_deref r) <> AT_COMMAND_TYPE_LAST ->
    (write_callback (AT_deref r) <> None -> write_arguments (AT_deref r) <> None) ->
    AT_register_command (Some r) w
    = Ok (AT_SUCCESS,
          world_with_ctx
            (with_commands_count (counted 1 (type (AT_deref r)) b e d)
               (with_commands_list (before ++ Some r :: after) (at_ctx w)))
            w).
Proof.
  intros r w before after b e d Hslots Hfull Hnew Hcounts Htype Hargs.
  apply is_registered_not_In in Hnew.
  unfold AT_register_command. rewrite register_checks_pass by exact Hargs.
  destruct (type (AT_deref r)) eqn:Et; try congruence;
    unfold bind, get_ctx; rewrite Hnew, Hslots,
      (fill_first_free_split _ _ _ Hfull), Hcounts;
    reflexivity.
Qed.

(** Every outcome of [AT_register_command]: a refusal that leaves the
    world as it is, a success on a full list that leaves it as it is,
    or the insertion in the first free slot. *)
Lemma AT_register_command_inv :
  forall command w st w',
    AT_register_command command w = Ok (st, w') ->
    (w' = w
     /\ ((st = AT_ERROR_NULL_PARAMETER /\ command = None)
         \/ (st = AT_ERROR_WRITE_CALLBACK_WITHOUT_PARAMETER
             /\ exists r, command = Some r
                          /\ write_callback (AT_deref r) <> None
                          /\ write_arguments (AT_deref r) = None)
         \/ (st = AT_ERROR_COMMAND_TYPE
             /\ exists r, command = Some r
                          /\ type (AT_deref r) = AT_COMMAND_TYPE_LAST)
         \/ (st = AT_ERROR_COMMAND_ALREADY_REGISTERED
             /\ In command (commands_list (at_ctx w)))
         \/ (st = AT_SUCCESS /\ ~ In None (commands_list (at_ctx w)))))
    \/ (st = AT_SUCCESS
        /\ exists r before after c counts,
             command = Some r
             /\ type (AT_deref r) <> AT_COMMAND_TYPE_LAST
             /\ (write_callback (AT_deref r) <> None ->
                 write_arguments (AT_deref r) <> None)
             /\ ~ In (Some r) (commands_list (at_ctx w))
             /\ commands_list (at_ctx w) = before ++ None :: after
             /\ ~ In None before
             /\ load (commands_count (at_ctx w))
                  (AT_command_type_index (type (AT_deref r))) = Ok c
             /\ store (commands_count (at_ctx w))
                  (AT_command_type_index (type (AT_deref r)))
                  ((c + 1) mod 256)%Z = Ok counts
             /\ w' = world_with_ctx
                       (with_commands_count counts
                          (with_commands_list (before ++ Some r :: after)
                             (at_ctx w)))
                       w).
Proof.
  intros command w st w' H. unfold AT_register_command in H.
  destruct command as [r|].
  2:{ apply ret_ok in H as [-> ->]. left. split; [reflexivity|]. now left. }
  assert (Hcases :
            (write_callback (AT_deref r) <> None
             /\ write_arguments (AT_deref r) = None)
            \/ (write_callback (AT_deref r) <> None ->
                write_arguments (AT_deref r) <> None)).
  { destruct (write_callback (AT_deref r)); [|right; congruence].
    destruct (write_arguments (AT_deref r)); [right; congruence|].
    left. split; congruence. }
  destruct Hcases as [[Hcb Hargs]|Hargs].
  { destruct (write_callback (AT_deref r)) eqn:Ecb; [|congruence].
    rewrite Hargs in H.
    apply ret_ok in H as [-> ->]. left. split; [reflexivity|].
    right. left. split; [reflexivity|]. exists r. repeat split; congruence. }
  rewrite register_checks_pass in H by exact Hargs.
  assert (Hgo :
            type (AT_deref r) <> AT_COMMAND_TYPE_LAST ->
            (ctx <- get_ctx ;;
             if is_registered (Some r) (commands_list ctx) then
               ret AT_ERROR_COMMAND_ALREADY_REGISTERED
             else
               match fill_first_free (Some r) (commands_list ctx) with
               | Some slots =>
                   modify_ctx (with_commands_list slots) ;;
                   counts <- lift (count_add 1 (type (AT_deref r))
                                     (commands_count ctx)) ;;
                   modify_ctx (with_commands_count counts) ;;
                   ret AT_SUCCESS
               | None => ret AT_SUCCESS
               end) w = Ok (st, w')).
  { intros Ht. revert H. destruct (type (AT_deref r)); try congruence; auto. }
  assert (Ht : type (AT_deref r) = AT_COMMAND_TYPE_LAST
               \/ type (AT_deref r) <> AT_COMMAND_TYPE_LAST).
  { destruct (type (AT_deref r)); (left; reflexivity) || (right; discriminate). }
  destruct Ht as [Ht|Ht].
  { rewrite Ht in H. apply ret_ok in H as [-> ->]. left. split; [reflexivity|].
    right. right. left. split; [reflexivity|]. exists r. split; congruence. }
  specialize (Hgo Ht). clear H. rename Hgo into H.
  unfold bind at 1 in H. unfold get_ctx at 1 in H.
  destruct (is_registered (Some r) (commands_list (at_ctx w))) eqn:Er.
  { apply ret_ok in H as [-> ->]. left. split; [reflexivity|].
    do 3 right. left. split; [reflexivity|]. now apply is_registered_In. }
  apply is_registered_not_In in Er.
  destruct (is_registered None (commands_list (at_ctx w))) eqn:Ef.
  - apply is_registered_In in Ef.
    destruct (first_free_slot _ Ef) as (before & after & Hs & Hb).
    rewrite Hs, (fill_first_free_split _ _ _ Hb) in H.
    apply bind_ok in H as ([] & w0 & H0 & H).
    inversion H0; subst w0; clear H0.
    apply bind_ok in H as (counts & w0 & H0 & H).
    apply lift_ok in H0 as [Hc ->].
    apply bind_ok in H as ([] & w0 & H0 & H).
    inversion H0; subst w0; clear H0.
    apply ret_ok in H as [-> ->].
    unfold count_add in Hc.
    match type of Hc with
    | match load ?l ?i with _ => _ end = _ =>
        destruct (load l i) as [c|] eqn:El; [|discriminate]
    end.
    right. split; [reflexivity|].
    exists r, before, after, c, counts.
    rewrite <- Hs. repeat split; assumption.
  - apply is_registered_not_In in Ef.
    rewrite (fill_first_free_full _ _ Ef) in H.
    apply ret_ok in H as [-> ->]. left. split; [reflexivity|].
    do 4 right. split; [reflexivity|assumption].
Qed.


Lemma AT_register_command_known :
  forall r w,
    type (AT_deref r) <> AT_COMMAND_TYPE_LAST ->
    (write_callback (AT_deref r) <> None -> write_arguments (AT_deref r) <> None) ->
    In (Some r) (commands_list (at_ctx w)) ->
    AT_register_command (Some r) w = Ok (AT_ERROR_COMMAND_ALREADY_REGISTERED, w).
Proof.
  intros r w Htype Hargs Hin. apply is_registered_In in Hin.
  unfold AT_register_command. rewrite register_checks_pass by exact Hargs.
  destruct (type (AT_deref r)); try congruence;
    unfold bind, get_ctx; rewrite Hin; reflexivity.
Qed.

(** X6: a descriptor is registered once.  After a registration that found
    a free slot, registering the same descriptor again is refused with
    [AT_ERROR_COMMAND_ALREADY_REGISTERED] and changes nothing. *)
Theorem register_twice_is_refused :
  forall (r : AT_command_ref) (w w1 : AT_world),
    In None (commands_list (at_ctx w)) ->
    AT_register_command (Some r) w = Ok (AT_SUCCESS, w1) ->
    AT_register_command (Some r) w1
    = Ok (AT_ERROR_COMMAND_ALREADY_REGISTERED, w1).
Proof.
  intros r w w1 Hfree H.
  destruct (AT_register_command_inv _ _ _ _ H)
    as [[_ [[E _]|[[E _]|[[E _]|[[E _]|[_ Hfull]]]]]]|[_ Hins]];
    try discriminate; [contradiction|].
  destruct Hins as (r' & before & after & c & counts & Er & Htype & Hargs
                    & _ & _ & _ & _ & _ & ->).
  inversion Er; subst r'.
  apply AT_register_command_known; try assumption.
  cbn [at_ctx world_with_ctx with_commands_count with_commands_list commands_list].
  rewrite in_app_iff. right. now left.
Qed.

Lemma store_load_same :
  forall A (a a' : list A) i v, store a i v = Ok a' -> load a' i = Ok v.
Proof.
  induction a as [|h t IH]; intros a' i v H; [discriminate|].
  destruct i as [|j]; cbn [store] in H.
  - inversion H; subst. reflexivity.
  - destruct (store t j v) as [t'|] eqn:E; [|discriminate].
    inversion H; subst. unfold load. cbn [nth_error].
    exact (IH _ _ _ E).
Qed.

Lemma store_store_back :
  forall A (a a' : list A) i c v,
    load a i = Ok c -> store a i v = Ok a' -> store a' i c = Ok a.
Proof.
  induction a as [|h t IH]; intros a' i c v Hl H; [discriminate|].
  destruct i as [|j]; cbn [store] in H.
  - inversion H; subst. unfold load in Hl. cbn [nth_error] in Hl.
    inversion Hl; subst. reflexivity.
  - destruct (store t j v) as [t'|] eqn:E; [|discriminate].
    inversion H; subst. cbn [store].
    unfold load in Hl. cbn [nth_error] in Hl.
    rewrite (IH _ _ _ _ Hl E). reflexivity.
Qed.

Lemma load_In : forall A (a : list A) i c, load a i = Ok c -> In c a.
Proof.
  intros A a i c H. unfold load in H.
  destruct (nth_error a i) eqn:E; [|discriminate].
  inversion H; subst. eapply nth_error_In; eauto.
Qed.

(** The call on a pointer that a slot holds: the first such slot is
    released and the counter of the kind is decremented. *)
Lemma AT_unregister_command_releases :
  forall r w before after c counts,
    commands_list (at_ctx w) = before ++ Some r :: after ->
    ~ In (Some r) before ->
    load (commands_count (at_ctx w))
      (AT_command_type_index (type (AT_deref r))) = Ok c ->
    store (commands_count (at_ctx w))
      (AT_command_type_index (type (AT_deref r))) ((c + -1) mod 256)%Z
    = Ok counts ->
    AT_unregister_command (Some r) w
    = Ok (AT_SUCCESS,
          world_with_ctx
            (with_commands_count counts
               (with_commands_list (before ++ None :: after) (at_ctx w)))
            w).
Proof.
  intros r w before after c counts Hs Hb Hl Hst.
  unfold AT_unregister_command, bind, get_ctx.
  rewrite Hs, (release_first_split _ _ _ Hb).
  unfold modify_ctx at 1. unfold count_add. rewrite Hl, Hst. reflexivity.
Qed.

(** X7: registration undone.  After a registration that found a free
    slot, unregistering the same descriptor returns [AT_SUCCESS] and
    gives back the world before the registration: the slot is free
    again and the counter has its former value. *)
Theorem register_then_unregister_restores :
  forall (r : AT_command_ref) (w w1 : AT_world),
    In None (commands_list (at_ctx w)) ->
    Forall (fun c => 0 <= c < 256)%Z (commands_count (at_ctx w)) ->
    AT_register_command (Some r) w = Ok (AT_SUCCESS, w1) ->
    AT_unregister_command (Some r) w1 = Ok (AT_SUCCESS, w).
Proof.
  intros r w w1 Hfree Hrange H.
  destruct (AT_register_command_inv _ _ _ _ H)
    as [[_ [[E _]|[[E _]|[[E _]|[[E _]|[_ Hfull]]]]]]|[_ Hins]];
    try discriminate; [contradiction|].
  destruct Hins as (r' & before & after & c & counts & Er & Htype & Hargs
                    & Hnew & Hs & Hb & Hl & Hst & ->).
  inversion Er; subst r'. clear Er.
  assert (Hc : (0 <= c < 256)%Z).
  { rewrite Forall_forall in Hrange. apply Hrange. eapply load_In; eauto. }
  rewrite (AT_unregister_command_releases r _ before after
             ((c + 1) mod 256)%Z (commands_count (at_ctx w))).
  - destruct w as [[cb f buf size cur cl cc] tx n]. cbn in Hs |- *.
    rewrite Hs. reflexivity.
  - reflexivity.
  - intros Hin. apply Hnew. rewrite Hs, in_app_iff. now left.
  - cbn [at_ctx world_with_ctx with_commands_count commands_count].
    eapply store_load_same; eauto.
  - cbn [at_ctx world_with_ctx with_commands_count commands_count].
    replace (((c + 1) mod 256 + -1) mod 256)%Z with c.
    + eapply store_store_back; eauto.
    + rewrite Zplus_mod_idemp_l. replace (c + 1 + -1)%Z with c by lia.
      symmetry. apply Z.mod_small. exact Hc.
Qed.

Lemma AT_unregister_command_inv :
  forall r w st w',
    AT_unregister_command (Some r) w = Ok (st, w') ->
    (st = AT_ERROR_COMMAND_NOT_REGISTERED
     /\ ~ In (Some r) (commands_list (at_ctx w)) /\ w' = w)
    \/ (st = AT_SUCCESS
        /\ exists before after c counts,
             commands_list (at_ctx w) = before ++ Some r :: after
             /\ ~ In (Some r) before
             /\ load (commands_count (at_ctx w))
                  (AT_command_type_index (type (AT_deref r))) = Ok c
             /\ store (commands_count (at_ctx w))
                  (AT_command_type_index (type (AT_deref r)))
                  ((c + -1) mod 256)%Z = Ok counts
             /\ w' = world_with_ctx
                       (with_commands_count counts
                          (with_commands_list (before ++ None :: after)
                             (at_ctx w)))
                       w).
Proof.
  intros r w st w' H.
  destruct (is_registered (Some r) (commands_list (at_ctx w))) eqn:Er.
  - apply is_registered_In in Er.
    destruct (first_occurrence _ _ Er) as (before & after & Hs & Hb).
    right. unfold AT_unregister_command, bind, get_ctx in H.
    rewrite Hs, (release_first_split _ _ _ Hb) in H.
    unfold modify_ctx at 1 in H. unfold count_add in H.
    match type of H with
    | context [load ?l ?i] => destruct (load l i) as [c|] eqn:El; [|discriminate]
    end.
    match type of H with
    | context [store ?l ?i ?v] =>
        destruct (store l i v) as [counts|] eqn:Est; [|discriminate]
    end.
    cbn in H. inversion H; subst st w'; clear H.
    split; [reflexivity|]. exists before, after, c, counts.
    cbn in El, Est. rewrite <- Hs. repeat split; assumption.
  - left. unfold AT_unregister_command, bind, get_ctx in H.
    rewrite (release_first_unknown _ _ Er) in H.
    apply ret_ok in H as [-> ->].
    apply is_registered_not_In in Er. auto.
Qed.

(** X8: unregistration of a registered descriptor.  The first slot that
    holds the pointer is released, the other slots keep their content,
    the counter of the descriptor's kind goes down by one (on
    [uint8_t]) and nothing else in the world changes. *)
Theorem unregister_releases_first_slot :
  forall (r : AT_command_ref) (w : AT_world)
         (before after : list (option AT_command_ref)) (b e d : Z),
    commands_list (at_ctx w) = before ++ Some r :: after ->
    ~ In (Some r) before ->
    commands_count (at_ctx w) = [b; e; d] ->
    type (AT_deref r) <> AT_COMMAND_TYPE_LAST ->
    AT_unregister_command (Some r) w
    = Ok (AT_SUCCESS,
          world_with_ctx
            (with_commands_count (counted (-1) (type (AT_deref r)) b e d)
               (with_commands_list (before ++ None :: after) (at_ctx w)))
            w).
Proof.
  intros r w before after b e d Hs Hb Hc Ht.
  unfold AT_unregister_command, bind, get_ctx.
  rewrite Hs, (release_first_split _ _ _ Hb), Hc.
  unfold modify_ctx at 1. rewrite count_add_counted by exact Ht.
  reflexivity.
Qed.

(** X9: unregistration of an unknown pointer.  When no slot holds the
    pointer (a descriptor that is not registered, or the null pointer
    with a full list) the call returns [AT_ERROR_COMMAND_NOT_REGISTERED]
    and the world is the one before. *)
Theorem unregister_unknown_is_refused :
  forall (command : option AT_command_ref) (w : AT_world),
    ~ In command (commands_list (at_ctx w)) ->
    AT_unregister_command command w = Ok (AT_ERROR_COMMAND_NOT_REGISTERED, w).
Proof.
  intros command w Hnot. apply is_registered_not_In in Hnot.
  unfold AT_unregister_command, bind, get_ctx.
  rewrite (release_first_unknown _ _ Hnot). reflexivity.
Qed.

(** *** Registry: the counters *)

Lemma registered_app :
  forall a b, registered (a ++ b) = registered a ++ registered b.
Proof.
  induction a as [|[r|] a IH]; intros b; cbn [app registered];
    [reflexivity|now rewrite IH|apply IH].
Qed.

Lemma In_registered :
  forall r slots, In r (registered slots) <-> In (Some r) slots.
Proof.
  intros r. induction slots as [|[x|] rest IH]; cbn [registered In].
  - tauto.
  - rewrite IH. split; intros [H|H]; auto; left; congruence.
  - rewrite IH. split; [auto|]. intros [H|H]; [discriminate|exact H].
Qed.

Lemma count_kind_le :
  forall t slots, count_kind t slots <= length slots.
Proof.
  intros t. unfold count_kind.
  induction slots as [|[r|] rest IH]; cbn [registered filter length]; [lia| |lia].
  destruct (has_kind t r); cbn [length]; lia.
Qed.

Lemma count_kind_insert :
  forall t r before after,
    count_kind t (before ++ Some r :: after)
    = count_kind t (before ++ None :: after) + (if has_kind t r then 1 else 0).
Proof.
  intros t r before after. unfold count_kind.
  rewrite !registered_app. cbn [registered].
  rewrite !filter_app, !length_app. cbn [filter].
  destruct (has_kind t r); cbn [length]; lia.
Qed.

(** The counters of a registry in which the slot between [before] and
    [after] has changed from free to [r] or back. *)
Lemma counts_after_change :
  forall r before after (delta : Z) (filled : bool),
    type (AT_deref r) <> AT_COMMAND_TYPE_LAST ->
    length (before ++ None :: after) = AT_COMMAND_LIST_SIZE ->
    delta = (if filled then -1 else 1)%Z ->
    let old := if filled then Some r else None in
    let new := if filled then None else Some r in
    counted delta (type (AT_deref r))
      (Z.of_nat (count_kind AT_COMMAND_TYPE_BASIC (before ++ old :: after)))
      (Z.of_nat (count_kind AT_COMMAND_TYPE_EXTENDED (before ++ old :: after)))
      (Z.of_nat (count_kind AT_COMMAND_TYPE_DEBUG (before ++ old :: after)))
    = [Z.of_nat (count_kind AT_COMMAND_TYPE_BASIC (before ++ new :: after));
       Z.of_nat (count_kind AT_COMMAND_TYPE_EXTENDED (before ++ new :: after));
       Z.of_nat (count_kind AT_COMMAND_TYPE_DEBUG (before ++ new :: after))].
Proof.
  intros r before after delta filled Ht Hlen -> old new.
  assert (Hle : forall t, count_kind t (before ++ Some r :: after)
                          <= AT_COMMAND_LIST_SIZE).
  { intros t. rewrite <- Hlen.
    replace (length (before ++ None :: after))
      with (length (before ++ Some r :: after))
      by (rewrite !length_app; reflexivity).
    apply count_kind_le. }
  pose proof (Hle AT_COMMAND_TYPE_BASIC) as HB.
  pose proof (Hle AT_COMMAND_TYPE_EXTENDED) as HE.
  pose proof (Hle AT_COMMAND_TYPE_DEBUG) as HD.
  unfold AT_COMMAND_LIST_SIZE in HB, HE, HD.
  rewrite !count_kind_insert in HB, HE, HD.
  subst old new. unfold counted.
  destruct filled; rewrite !count_kind_insert; unfold has_kind in *;
    destruct (type (AT_deref r)); try congruence;
    cbn [AT_command_type_eqb AT_command_type_index Nat.eqb] in *;
    rewrite ?Nat.add_0_r;
    repeat f_equal;
    rewrite Z.mod_small by lia; lia.
Qed.

Lemma NoDup_registered_insert :
  forall r before after,
    NoDup (registered (before ++ None :: after)) ->
    ~ In (Some r) (before ++ None :: after) ->
    NoDup (registered (before ++ Some r :: after)).
Proof.
  intros r before after Hnd Hnew.
  rewrite registered_app in *. cbn [registered] in *.
  apply (Permutation_NoDup (Permutation_middle _ _ r)).
  constructor; [|exact Hnd].
  rewrite <- registered_app, In_registered. intros H. apply Hnew.
  rewrite in_app_iff in *. cbn [In]. tauto.
Qed.

Lemma NoDup_registered_release :
  forall r before after,
    NoDup (registered (before ++ Some r :: after)) ->
    NoDup (registered (before ++ None :: after))
    /\ ~ In (Some r) (before ++ None :: after).
Proof.
  intros r before after Hnd.
  rewrite registered_app in *. cbn [registered] in *.
  apply NoDup_remove in Hnd as [H1 H2]. split; [exact H1|].
  intros H. apply H2. rewrite <- registered_app, In_registered.
  rewrite in_app_iff in *. cbn [In] in H. destruct H as [H|[H|H]];
    [now left|discriminate|now right].
Qed.

(** X10: the registry invariant.  Both registry operations, whatever
    their argument and outcome, keep the list at its 64 slots with no
    descriptor in two slots and only descriptors of a valid kind, and
    keep each of the three counters equal to the number of registered
    descriptors of its kind. *)
Theorem registry_operations_keep_counts :
  forall (command : option AT_command_ref) (w w' : AT_world) (st : AT_status_t),
    registry_ok (at_ctx w) ->
    AT_register_command command w = Ok (st, w')
    \/ AT_unregister_command command w = Ok (st, w') ->
    registry_ok (at_ctx w').
Proof.
  intros command w w' st Hok [H|H].
  - (* registration *)
    destruct (AT_register_command_inv _ _ _ _ H) as [[-> _]|[_ Hins]];
      [exact Hok|].
    destruct Hins as (r & before & after & c & counts & -> & Htype & _
                      & Hnew & Hs & Hb & Hl & Hst & ->).
    destruct Hok as (Hlen & Hnd & Hty & Hcnt).
    rewrite Hs in *.
    assert (Hcounts : counts
                      = counted 1 (type (AT_deref r))
                          (Z.of_nat (count_kind AT_COMMAND_TYPE_BASIC
                                       (before ++ None :: after)))
                          (Z.of_nat (count_kind AT_COMMAND_TYPE_EXTENDED
                                       (before ++ None :: after)))
                          (Z.of_nat (count_kind AT_COMMAND_TYPE_DEBUG
                                       (before ++ None :: after)))).
    { match type of Hcnt with
      | _ = [?b; ?e; ?d] =>
          pose proof (count_add_counted 1 (type (AT_deref r)) b e d Htype) as Hca
      end.
      rewrite <- Hcnt in Hca. unfold count_add in Hca.
      rewrite Hl, Hst in Hca. congruence. }
    unfold registry_ok.
    cbn [at_ctx world_with_ctx with_commands_count with_commands_list
           commands_list commands_count].
    repeat split.
    + rewrite <- Hlen, !length_app. reflexivity.
    + apply NoDup_registered_insert; assumption.
    + intros x Hx. rewrite in_app_iff in Hx. cbn [In] in Hx.
      destruct Hx as [Hx|[Hx|Hx]].
      * apply Hty. rewrite in_app_iff. now left.
      * inversion Hx; subst x. exact Htype.
      * apply Hty. rewrite in_app_iff. right. now right.
    + rewrite Hcounts.
      exact (counts_after_change r before after 1 false Htype Hlen eq_refl).
  - (* unregistration *)
    destruct command as [r|].
    2:{ unfold AT_unregister_command, bind, get_ctx in H.
        destruct (is_registered None (commands_list (at_ctx w))) eqn:E.
        - apply is_registered_In in E.
          destruct (release_first_free _ E) as [slots Hr].
          rewrite Hr in H. discriminate.
        - rewrite (release_first_unknown _ _ E) in H.
          apply ret_ok in H as [_ ->]. exact Hok. }
    destruct (AT_unregister_command_inv _ _ _ _ H) as [(_ & _ & ->)|[_ Hrel]];
      [exact Hok|].
    destruct Hrel as (before & after & c & counts & Hs & Hb & Hl & Hst & ->).
    destruct Hok as (Hlen & Hnd & Hty & Hcnt).
    rewrite Hs in *.
    assert (Htype : type (AT_deref r) <> AT_COMMAND_TYPE_LAST).
    { apply Hty. rewrite in_app_iff. right. now left. }
    assert (Hlen' : length (before ++ None :: after) = AT_COMMAND_LIST_SIZE).
    { rewrite <- Hlen, !length_app. reflexivity. }
    assert (Hcounts : counts
                      = counted (-1) (type (AT_deref r))
                          (Z.of_nat (count_kind AT_COMMAND_TYPE_BASIC
                                       (before ++ Some r :: after)))
                          (Z.of_nat (count_kind AT_COMMAND_TYPE_EXTENDED
                                       (before ++ Some r :: after)))
                          (Z.of_nat (count_kind AT_COMMAND_TYPE_DEBUG
                                       (before ++ Some r :: after)))).
    { match type of Hcnt with
      | _ = [?b; ?e; ?d] =>
          pose proof (count_add_counted (-1) (type (AT_deref r)) b e d Htype) as Hca
      end.
      rewrite <- Hcnt in Hca. unfold count_add in Hca.
      rewrite Hl, Hst in Hca. congruence. }
    destruct (NoDup_registered_release _ _ _ Hnd) as [Hnd' _].
    unfold registry_ok.
    cbn [at_ctx world_with_ctx with_commands_count with_commands_list
           commands_list commands_count].
    repeat split.
    + exact Hlen'.
    + exact Hnd'.
    + intros x Hx. apply Hty. rewrite in_app_iff in *. cbn [In] in *.
      destruct Hx as [Hx|[Hx|Hx]]; [now left|discriminate|right; now right].
    + rewrite Hcounts.
      exact (counts_after_change r before after (-1) true Htype Hlen' eq_refl).
Qed.

(** X11: a descriptor that has been unregistered is not known any more.
    In a registry that holds no descriptor twice, a second call of
    [AT_unregister_command] on the same descriptor is refused with
    [AT_ERROR_COMMAND_NOT_REGISTERED] and changes nothing. *)
Theorem unregister_twice_is_refused :
  forall (r : AT_command_ref) (w w1 : AT_world),
    NoDup (registered (commands_list (at_ctx w))) ->
    AT_unregister_command (Some r) w = Ok (AT_SUCCESS, w1) ->
    AT_unregister_command (Some r) w1
    = Ok (AT_ERROR_COMMAND_NOT_REGISTERED, w1).
Proof.
  intros r w w1 Hnd H.
  destruct (AT_unregister_command_inv _ _ _ _ H) as [(E & _)|[_ Hrel]];
    [discriminate|].
  destruct Hrel as (before & after & c & counts & Hs & Hb & Hl & Hst & ->).
  rewrite Hs in Hnd.
  destruct (NoDup_registered_release _ _ _ Hnd) as [_ Hgone].
  apply is_registered_not_In in Hgone.
  unfold AT_unregister_command, bind, get_ctx.
  cbn [at_ctx world_with_ctx with_commands_count with_commands_list commands_list].
  rewrite (release_first_unknown _ _ Hgone). reflexivity.
Qed.

Lemma count_kind_zero :
  forall t slots,
    (Z.of_nat (count_kind t slots) =? 0)%Z
    = negb (existsb (has_kind t) (registered slots)).
Proof.
  intros t slots. unfold count_kind.
  induction (registered slots) as [|r rest IH]; [reflexivity|].
  cbn [filter existsb]. destruct (has_kind t r); [reflexivity|exact IH].
Qed.

(** X12: the help of a kind and the registry.  In a registry that the
    two operations have kept, the counter that [_print_help] tests is
    zero exactly when no descriptor of the kind is registered: the
    ["    None"] line is printed in that case and only then; otherwise
    the slots are listed in index order. *)
Theorem help_prints_none_for_empty_kind :
  forall (t : AT_command_type_t) (w : AT_world),
    registry_ok (at_ctx w) ->
    t <> AT_COMMAND_TYPE_LAST ->
    _print_help t w
    = if existsb (has_kind t) (registered (commands_list (at_ctx w)))
      then print_help_loop t (commands_list (at_ctx w)) w
      else _print_line (c_str "    None") w.
Proof.
  intros t w (_ & _ & _ & Hcnt) Ht.
  unfold _print_help, bind, get_ctx. rewrite Hcnt.
  destruct t; try congruence;
    cbn [AT_command_type_index load nth_error lift];
    rewrite count_kind_zero;
    destruct (existsb _ _); reflexivity.
Qed.

(** *** Initialisation *)

Lemma is_success_eq : forall st, is_success st = true -> st = AT_SUCCESS.
Proof. intros []; simpl; congruence. Qed.

(** X13: initialisation of the static context.  With a process hook in
    the configuration, [AT_init] stores the hook and the three mode
    flags (any non-zero default counts as set), and returns the status
    of the hardware initialisation.  When that status is [AT_SUCCESS]
    the commands E, V and Q are in slots 0, 1 and 2 and the Basic
    counter is 3; otherwise no command is registered. *)
Theorem AT_init_registers_mode_commands :
  forall (config : AT_config_t) (h : AT_process_cb_t)
         (tx : list ascii) (hooks : list AT_process_cb_t),
    config_process_callback config = Some h ->
    AT_init config (mk_world at_ctx_initial tx hooks)
    = Ok (AT_HW_API_init_status,
          mk_world
            (mk_ctx (Some h)
               (mk_flags false false
                  (negb (default_quiet_flag config =? 0)%Z)
                  (negb (default_verbose_flag config =? 0)%Z)
                  (negb (default_echo_flag config =? 0)%Z))
               (repeat NUL AT_BUFFER_SIZE) 0 None
               (if is_success AT_HW_API_init_status then builtin_slots
                else repeat None AT_COMMAND_LIST_SIZE)
               (if is_success AT_HW_API_init_status then [3; 0; 0]%Z
                else [0; 0; 0]%Z))
            tx hooks).
Proof.
  intros config h tx hooks Hcb. unfold AT_init. rewrite Hcb.
  unfold bind, modify_flags, modify_ctx, AT_HW_API_init, ret.
  cbn [at_ctx hw_tx notified flags with_flags with_process_callback].
  destruct (is_success AT_HW_API_init_status) eqn:E.
  - rewrite (is_success_eq _ E). reflexivity.
  - reflexivity.
Qed.

(** X14: initialisation is not repeatable.  [AT_de_init] releases the
    hardware only and unregisters nothing, so once E is registered a
    new [AT_init], after [AT_de_init] or not, stores the hook and the
    flags, initialises the hardware and then stops on the first
    registration with [AT_ERROR_COMMAND_ALREADY_REGISTERED]. *)
Theorem AT_init_again_is_refused :
  forall (config : AT_config_t) (h : AT_process_cb_t) (w : AT_world),
    config_process_callback config = Some h ->
    AT_HW_API_init_status = AT_SUCCESS ->
    In (Some (Builtin BUILTIN_ECHO)) (commands_list (at_ctx w)) ->
    let configured :=
      world_with_ctx
        (with_process_callback (Some h)
           (with_flags
              (set_echo (negb (default_echo_flag config =? 0)%Z)
                 (set_verbose (negb (default_verbose_flag config =? 0)%Z)
                    (set_quiet (negb (default_quiet_flag config =? 0)%Z)
                       (flags (at_ctx w)))))
              (at_ctx w)))
        w in
    AT_init config w = Ok (AT_ERROR_COMMAND_ALREADY_REGISTERED, configured)
    /\ (AT_de_init ;; AT_init config) w
       = Ok (AT_ERROR_COMMAND_ALREADY_REGISTERED, configured).
Proof.
  intros config h w Hcb Hhw Hin configured.
  assert (Hinit : AT_init config w
                  = Ok (AT_ERROR_COMMAND_ALREADY_REGISTERED, configured)).
  { unfold AT_init. rewrite Hcb.
    unfold bind at 1 2 3 4 5. unfold modify_flags, modify_ctx, AT_HW_API_init, ret.
    rewrite Hhw. cbn [is_success].
    unfold bind. rewrite AT_register_command_known.
    - destruct w as [[cb f buf size cur cl cc] tx n]. reflexivity.
    - discriminate.
    - discriminate.
    - exact Hin. }
  split; [exact Hinit|].
  unfold AT_de_init, AT_HW_API_de_init, bind, ret. exact Hinit.
Qed.

(** *** Formatter: the bytes sent *)

Lemma transmit_nil : forall w, transmit [] w = w.
Proof. intros [c tx n]. unfold transmit. cbn. now rewrite app_nil_r. Qed.

Lemma audible_nil : forall w, audible w [] = [].
Proof. intros w. unfold audible. now destruct (quiet _). Qed.

Lemma transmit_audible_app :
  forall w a b,
    transmit (audible (transmit (audible w a) w) b) (transmit (audible w a) w)
    = transmit (audible w (a ++ b)) w.
Proof.
  intros [c tx n] a b. unfold transmit, audible. cbn.
  destruct (quiet (flags c)); cbn; now rewrite <- app_assoc.
Qed.

Lemma _print_tab_text :
  forall text pad w,
    _print_tab (text ++ pad) (length text) w
    = Ok (print_status w text, transmit (audible w text) w).
Proof.
  intros text pad w. unfold _print_tab, bind, get_ctx, print_status, audible.
  destruct (quiet (flags (at_ctx w))) eqn:Q; cbn [orb].
  - unfold ret. now rewrite transmit_nil.
  - destruct text as [|c t].
    + cbn. unfold ret. now rewrite transmit_nil.
    + cbn [length Nat.eqb].
      assert (L : (S (length t) <=? length ((c :: t) ++ pad)) = true).
      { apply Nat.leb_le. rewrite length_app. cbn [length]. lia. }
      rewrite L. unfold AT_HW_API_write, transmit.
      change (S (length t)) with (length (c :: t)).
      rewrite firstn_app, firstn_all, Nat.sub_diag. cbn [firstn].
      rewrite app_nil_r. reflexivity.
Qed.

Lemma _print_tab_empty :
  forall tab w, _print_tab tab 0 w = Ok (AT_SUCCESS, w).
Proof.
  intros tab w. unfold _print_tab, bind, get_ctx. cbn [Nat.eqb].
  now rewrite orb_true_r.
Qed.

Lemma until_nul_split :
  forall s, In NUL s ->
    exists rest, s = until_nul s ++ NUL :: rest /\ ~ In NUL (until_nul s).
Proof.
  induction s as [|c t IH]; intros Hin; [contradiction|].
  cbn [until_nul]. destruct (Ascii.eqb_spec c NUL) as [->|Hc].
  - exists t. split; [reflexivity|]. intros [].
  - destruct Hin as [H|H]; [congruence|].
    destruct (IH H) as (rest & E & Hn). exists rest. split.
    + cbn [app]. now rewrite <- E.
    + intros [H'|H']; [congruence|auto].
Qed.

Lemma until_nul_text :
  forall text rest, ~ In NUL text -> until_nul (text ++ NUL :: rest) = text.
Proof.
  induction text as [|c t IH]; intros rest Hn; cbn [app until_nul].
  - now rewrite Ascii.eqb_refl.
  - destruct (Ascii.eqb_spec c NUL) as [->|Hc].
    + exfalso. apply Hn. now left.
    + rewrite IH; [reflexivity|]. intros H. apply Hn. now right.
Qed.

(** Printing a terminated string sends its characters. *)
Lemma _print_string :
  forall s w, In NUL s ->
    _print (Some s) w
    = Ok (print_status w (until_nul s), transmit (audible w (until_nul s)) w).
Proof.
  intros s w Hin. destruct (until_nul_split s Hin) as (rest & E & Hn).
  unfold _print, bind, lift. rewrite E at 1.
  rewrite (strlen_terminated _ rest Hn). rewrite E at 1.
  apply _print_tab_text.
Qed.

Lemma _end_line_text :
  forall w, _end_line w
            = Ok (print_status w AT_REPLY_END, transmit (audible w AT_REPLY_END) w).
Proof. intros w. exact (_print_tab_text AT_REPLY_END [] w). Qed.

Lemma status_text_local :
  forall st code w text w',
    status_text st code w = Ok (text, w') ->
    w' = w
    /\ forall v, at_ctx v = at_ctx w -> status_text st code v = Ok (text, v).
Proof.
  intros st code w text w' H.
  destruct st; unfold status_text in *;
    try (apply ret_ok in H as [-> ->]; split; [reflexivity|intros; reflexivity]).
  unfold bind, get_ctx in *.
  destruct (current_command (at_ctx w)) as [r|] eqn:Ec; [|discriminate].
  destruct (enum_to_str_callback (AT_deref r)) as [cb|] eqn:Ecb.
  - destruct (cb (code mod 2 ^ 32)%Z) as [s|] eqn:Es; [|discriminate].
    unfold lift in *. destruct (strlen s) as [n|] eqn:En; [|discriminate].
    apply ret_ok in H as [-> ->]. split; [reflexivity|].
    intros v ->. rewrite Ec, Ecb, Es, En. reflexivity.
  - apply ret_ok in H as [-> ->]. split; [reflexivity|].
    intros v ->. rewrite Ec, Ecb. reflexivity.
Qed.

Lemma snprintf_short :
  forall text, length text < AT_BUFFER_SIZE ->
    snprintf text
    = (text ++ repeat NUL (AT_BUFFER_SIZE - length text), length text).
Proof.
  intros text H. unfold snprintf.
  rewrite firstn_all2 by (unfold AT_BUFFER_SIZE in *; lia). reflexivity.
Qed.

Lemma status_value_short :
  forall st, length (format_d (AT_status_value st)) < AT_BUFFER_SIZE.
Proof. intros []; vm_compute; repeat constructor. Qed.

(** The status line as sent: see [status_line]. *)
Lemma _print_command_status_text :
  forall st code w text,
    (verbose (flags (at_ctx w)) = true -> is_success st = false ->
     status_text st code w = Ok (text, w) /\ length text < AT_BUFFER_SIZE) ->
    _print_command_status st code w
    = Ok (tt, transmit
                (audible w (status_line (verbose (flags (at_ctx w))) st text)) w).
Proof.
  intros st code w text Htext.
  unfold _print_command_status, status_line.
  unfold bind at 1. unfold get_ctx at 1.
  destruct (verbose (flags (at_ctx w))) eqn:V; cbn [negb].
  - destruct (is_success st) eqn:S.
    + unfold bind, c_str. rewrite _print_string by (simpl; tauto).
      change (until_nul (text_of "OK" ++ [NUL])) with (text_of "OK").
      unfold ret at 1. cbn [fst snd]. rewrite _print_tab_empty.
      rewrite _end_line_text. unfold ret.
      now rewrite transmit_audible_app.
    + destruct (Htext eq_refl eq_refl) as [Hst Hlen].
      destruct (status_text_local _ _ _ _ _ Hst) as [_ Hany].
      unfold bind, c_str. rewrite _print_string by (simpl; tauto).
      change (until_nul (text_of "ERROR:" ++ [NUL])) with (text_of "ERROR:").
      rewrite (Hany (transmit (audible w (text_of "ERROR:")) w) eq_refl).
      unfold ret at 1.
      rewrite snprintf_short by exact Hlen. cbn [fst snd].
      rewrite _print_tab_text, _end_line_text. unfold ret.
      now rewrite !transmit_audible_app, <- app_assoc.
  - unfold bind. unfold ret at 1.
    rewrite snprintf_short by apply status_value_short. cbn [fst snd].
    rewrite _print_tab_text, _end_line_text. unfold ret.
    now rewrite transmit_audible_app.
Qed.

(** X15: the status line.  [_print_command_status] sends exactly one
    line: in numeric mode the decimal value of the status, in verbose
    mode ["OK"] for a success and ["ERROR:"] followed by the name of the
    status otherwise, each closed by CR LF; in quiet mode it sends
    nothing.  The context is not changed, and a failure of the transport
    is not reported. *)
Theorem status_line_content :
  forall (st : AT_status_t) (code : Z) (w : AT_world) (text : list ascii),
    (verbose (flags (at_ctx w)) = true -> is_success st = false ->
     status_text st code w = Ok (text, w) /\ length text < AT_BUFFER_SIZE) ->
    _print_command_status st code w
    = Ok (tt,
          mk_world (at_ctx w)
            (hw_tx w
             ++ (if quiet (flags (at_ctx w)) then []
                 else if verbose (flags (at_ctx w)) then
                        if is_success st then text_of "OK" ++ AT_REPLY_END
                        else text_of "ERROR:" ++ text ++ AT_REPLY_END
                      else format_d (AT_status_value st) ++ AT_REPLY_END))
            (notified w)).
Proof.
  intros st code w text Htext.
  rewrite (_print_command_status_text st code w text Htext).
  unfold transmit, audible, status_line.
  destruct (quiet (flags (at_ctx w))); [reflexivity|].
  destruct (verbose (flags (at_ctx w))); [|reflexivity].
  destruct (is_success st); [reflexivity|].
  now rewrite <- app_assoc.
Qed.

(** X16: a long error name overruns the status buffer.  The status text
    is formatted into a buffer of 128 bytes, but the length given to the
    transport is the length that [snprintf] returns, which is the one
    of the whole text.  In verbose mode, a core error whose name (as the
    descriptor's [enum_to_str_callback] gives it) has more than 109
    characters makes the printer hand over more bytes than the buffer
    has. *)
Theorem long_error_name_overruns_status_buffer :
  forall (code : Z) (w : AT_world) (r : AT_command_ref)
         (cb : AT_command_error_enum_to_str_cb_t) (s : list ascii) (n : nat),
    quiet (flags (at_ctx w)) = false ->
    verbose (flags (at_ctx w)) = true ->
    current_command (at_ctx w) = Some r ->
    enum_to_str_callback (AT_deref r) = Some cb ->
    cb (code mod 2 ^ 32)%Z = Some s ->
    strlen s = Ok n ->
    AT_BUFFER_SIZE < length (text_of "COMMAND_CORE_ERROR:") + n ->
    _print_command_status AT_ERROR_EXTERNAL_COMMAND_CORE_ERROR code w
    = Fault OutOfBounds.
Proof.
  intros code w r cb s n Q V Hcur Hcb Hs Hn Hlong.
  destruct (strlen_spec _ _ Hn) as (rest & _ & _ & Hlen).
  unfold _print_command_status.
  unfold bind at 1. unfold get_ctx at 1. rewrite V. cbn [negb is_success].
  unfold bind, c_str. rewrite _print_string by (simpl; tauto).
  unfold status_text, bind, get_ctx. cbn [at_ctx transmit].
  rewrite Hcur, Hcb, Hs. unfold lift. rewrite Hn. unfold ret at 1 2.
  unfold _print_tab, bind, get_ctx. cbn [at_ctx transmit]. rewrite Q.
  set (text := text_of "COMMAND_CORE_ERROR:" ++ firstn n s).
  assert (Ltext : length text = length (text_of "COMMAND_CORE_ERROR:") + n).
  { unfold text. rewrite length_app, Hlen. reflexivity. }
  unfold snprintf. cbn [fst snd]. rewrite Ltext.
  assert (Lkept : length (firstn (AT_BUFFER_SIZE - 1) text) = AT_BUFFER_SIZE - 1).
  { rewrite length_firstn. lia. }
  rewrite length_app, repeat_length, Lkept.
  cbn [orb]. cbn [length text_of list_ascii_of_string] in *.
  unfold AT_BUFFER_SIZE in *.
  destruct (19 + n =? 0) eqn:E0; [apply Nat.eqb_eq in E0; lia|].
  destruct (19 + n <=? 128 - 1 + (128 - (128 - 1))) eqn:E1;
    [apply Nat.leb_le in E1; lia|].
  reflexivity.
Qed.

(** *** Replies *)

Lemma print_status_accepted :
  (forall data, AT_HW_API_write_status data = AT_SUCCESS) ->
  forall w text, print_status w text = AT_SUCCESS.
Proof.
  intros Hw w text. unfold print_status. destruct (audible w text); auto.
Qed.

Lemma _print_command_header_text :
  (forall data, AT_HW_API_write_status data = AT_SUCCESS) ->
  forall t w, t <> AT_COMMAND_TYPE_LAST ->
    _print_command_header t w
    = Ok (AT_SUCCESS, transmit (audible w (header_text t)) w).
Proof.
  intros Hw t w Ht. unfold _print_command_header.
  destruct t; try congruence;
    unfold bind, lift; cbn [AT_COMMAND_HEADER AT_command_type_index load nth_error];
    rewrite _print_string by (simpl; tauto);
    rewrite print_status_accepted by exact Hw; reflexivity.
Qed.

(** X17: the reply line.  With a transport that accepts every write,
    [AT_send_reply] on a non-empty reply sends one line: for the given
    descriptor, or the current command when none is given, the kind
    character (none for Basic), the syntax and a colon; then the reply;
    then CR LF.  Without a descriptor and without a current command it
    sends the reply and CR LF only.  In quiet mode it sends nothing.
    The context is not changed. *)
Theorem AT_send_reply_line :
  (forall data, AT_HW_API_write_status data = AT_SUCCESS) ->
  forall (command : option AT_command_ref) (text rest : list ascii) (w : AT_world),
    text <> [] -> ~ In NUL text ->
    let target :=
      match command with
      | Some _ => command
      | None => current_command (at_ctx w)
      end in
    (forall r, target = Some r ->
               type (AT_deref r) <> AT_COMMAND_TYPE_LAST
               /\ exists s, syntax (AT_deref r) = Some s /\ In NUL s) ->
    AT_send_reply command (Some (text ++ NUL :: rest)) w
    = Ok (AT_SUCCESS,
          transmit (audible w (reply_prefix target ++ text ++ AT_REPLY_END)) w).
Proof.
  intros Hw command text rest w Hne Hn target Htarget.
  destruct text as [|c t]; [congruence|].
  assert (Hc : Ascii.eqb c NUL = false).
  { apply ascii_eqb_false. intros ->. apply Hn. now left. }
  unfold AT_send_reply. unfold bind at 1. unfold lift, load.
  cbn [app nth_error]. rewrite Hc.
  unfold bind at 1. unfold get_ctx at 1. cbv zeta. fold target.
  assert (Hprefix :
            (match target with
             | Some r =>
                 check _print_command_header (type (AT_deref r)) ;;
                 check _print (syntax (AT_deref r)) ;;
                 _print (c_str ":")
             | None => ret AT_SUCCESS
             end) w
            = Ok (AT_SUCCESS, transmit (audible w (reply_prefix target)) w)).
  { destruct target as [r|]; unfold reply_prefix.
    - destruct (Htarget r eq_refl) as (Ht & s & Hs & Hin).
      rewrite Hs. unfold bind.
      rewrite (_print_command_header_text Hw) by exact Ht. cbn [is_success].
      rewrite _print_string by exact Hin.
      rewrite print_status_accepted by exact Hw. cbn [is_success].
      unfold c_str. rewrite _print_string by (simpl; tauto).
      rewrite print_status_accepted by exact Hw.
      change (until_nul (text_of ":" ++ [NUL])) with (text_of ":").
      now rewrite !transmit_audible_app.
    - unfold ret. now rewrite audible_nil, transmit_nil. }
  unfold bind at 1. rewrite Hprefix. cbn [is_success].
  unfold bind.
  change (c :: t ++ NUL :: rest) with ((c :: t) ++ NUL :: rest).
  rewrite _print_string by (rewrite in_app_iff; right; now left).
  rewrite print_status_accepted by exact Hw. cbn [is_success].
  rewrite _end_line_text, print_status_accepted by exact Hw. cbn [is_success].
  unfold ret. rewrite until_nul_text by exact Hn.
  now rewrite !transmit_audible_app.
Qed.

(** *** Processing pass: lines handled without dispatch *)

(** A pass whose line is settled before any dispatch: the outcome and
    the bytes sent. *)
Lemma AT_process_without_dispatch :
  (forall data, AT_HW_API_write_status data = AT_SUCCESS) ->
  forall (w : AT_world) (st : AT_status_t) (code : Z) (text : list ascii),
    process (flags (at_ctx w)) = true ->
    In NUL (rx_buffer (at_ctx w)) ->
    (forall v,
        at_ctx v = with_flags (set_process false (flags (at_ctx w))) (at_ctx w) ->
        AT_process_line v = Ok ((st, code), v)) ->
    (is_success st = false ->
     length text < AT_BUFFER_SIZE
     /\ forall v, status_text st code v = Ok (text, v)) ->
    AT_process w
    = Ok (st,
          mk_world
            (line_reset
               (with_flags (set_process false (flags (at_ctx w))) (at_ctx w)))
            (hw_tx w
             ++ transcript (flags (at_ctx w)) (until_nul (rx_buffer (at_ctx w)))
                  st text)
            (notified w)).
Proof.
  intros Hw w st code text Hp Hin Hline Htext.
  unfold AT_process. unfold bind at 1. unfold get_ctx at 1.
  rewrite Hp. cbn [negb]. unfold bind at 1.
  set (w1 := world_with_ctx
               (with_flags (set_process false (flags (at_ctx w))) (at_ctx w)) w).
  assert (Hbody :
            AT_process_body w
            = Ok ((st, code),
                  transmit
                    (audible w1
                       (if echo (flags (at_ctx w))
                        then until_nul (rx_buffer (at_ctx w)) ++ AT_REPLY_END
                        else []))
                    w1)).
  { unfold AT_process_body. unfold bind at 1. unfold get_ctx at 1.
    unfold bind at 1. unfold modify_flags, modify_ctx at 1. fold w1.
    unfold bind at 1.
    destruct (echo (flags (at_ctx w))).
    - unfold bind at 1. unfold _print_line, bind.
      rewrite _print_string by exact Hin.
      rewrite print_status_accepted by exact Hw. cbn [is_success].
      rewrite _end_line_text. unfold ret at 1.
      rewrite transmit_audible_app. apply Hline. reflexivity.
    - rewrite audible_nil, transmit_nil. unfold ret at 1. apply Hline.
      reflexivity. }
  rewrite Hbody. cbn [fst snd]. unfold AT_process_end. unfold bind at 1.
  rewrite (_print_command_status_text st code _ text).
  2:{ intros _ Hs. destruct (Htext Hs) as [Hlen Hst]. split; [apply Hst|exact Hlen]. }
  unfold bind, modify_flags, modify_ctx, ret.
  destruct w as [[cb [pr pe q v e] buf size cur cl cc] tx n].
  unfold w1, transmit, audible, transcript, line_reset, world_with_ctx.
  cbn [at_ctx hw_tx notified flags quiet verbose echo rx_buffer with_flags
         set_process set_pending with_rx_buffer with_rx_buffer_size
         process_callback rx_buffer_size current_command commands_list
         commands_count process pending].
  destruct q; cbn [app]; rewrite ?app_nil_r, <- ?app_assoc; reflexivity.
Qed.

(** The pass over a line that does not start with ["AT"]. *)
Lemma line_without_header :
  (forall data, AT_HW_API_write_status data = AT_SUCCESS) ->
  forall w : AT_world,
    process (flags (at_ctx w)) = true ->
    In NUL (rx_buffer (at_ctx w)) ->
    2 <= length (rx_buffer (at_ctx w))
    /\ firstn 2 (rx_buffer (at_ctx w)) <> text_of "AT" ->
    AT_process w
    = Ok (AT_ERROR_INTERNAL_COMMAND_PARSING,
          mk_world
            (line_reset
               (with_flags (set_process false (flags (at_ctx w))) (at_ctx w)))
            (hw_tx w
             ++ transcript (flags (at_ctx w)) (until_nul (rx_buffer (at_ctx w)))
                  AT_ERROR_INTERNAL_COMMAND_PARSING (text_of "COMMAND_PARSING"))
            (notified w)).
Proof.
  intros Hw w Hp Hin [Hlen Hhead].
  apply (AT_process_without_dispatch Hw w _ 0%Z); try assumption.
  - intros v Hv. unfold AT_process_line. cbv zeta.
    unfold bind at 1. unfold get_ctx at 1. rewrite Hv.
    cbn [rx_buffer with_flags].
    destruct (rx_buffer (at_ctx w)) as [|a [|b buf]]; cbn [length] in Hlen;
      try lia.
    cbn [firstn] in Hhead. unfold bind, lift, AT_HEADER, c_str, command_start_idx.
    cbn [text_of list_ascii_of_string app memcmp_eq].
    destruct (Ascii.eqb_spec a "A"%char) as [->|Ha]; [|reflexivity].
    destruct (Ascii.eqb_spec b "T"%char) as [->|Hb]; [|reflexivity].
    exfalso. apply Hhead. reflexivity.
  - intros _. split; [vm_compute; repeat constructor|reflexivity].
Qed.

(** X18: a line that is not a command.  With a transport that accepts
    every write, a pass over a line that does not start with ["AT"], or
    that starts with ["AT?"] followed by another character, returns
    [AT_ERROR_INTERNAL_COMMAND_PARSING]; no command is searched; the
    bytes sent are the echo of the line if echo is on and the status
    line (["ERROR:COMMAND_PARSING"], or ["1"] in numeric mode), nothing
    in quiet mode; the buffer is reset and both flags are cleared. *)
Theorem line_without_command_is_rejected :
  (forall data, AT_HW_API_write_status data = AT_SUCCESS) ->
  forall w : AT_world,
    process (flags (at_ctx w)) = true ->
    In NUL (rx_buffer (at_ctx w)) ->
    (2 <= length (rx_buffer (at_ctx w))
     /\ firstn 2 (rx_buffer (at_ctx w)) <> text_of "AT")
    \/ (exists x rest, rx_buffer (at_ctx w) = text_of "AT?" ++ x :: rest
                       /\ x <> NUL) ->
    AT_process w
    = Ok (AT_ERROR_INTERNAL_COMMAND_PARSING,
          mk_world
            (line_reset
               (with_flags (set_process false (flags (at_ctx w))) (at_ctx w)))
            (hw_tx w
             ++ transcript (flags (at_ctx w)) (until_nul (rx_buffer (at_ctx w)))
                  AT_ERROR_INTERNAL_COMMAND_PARSING (text_of "COMMAND_PARSING"))
            (notified w)).
Proof.
  intros Hw w Hp Hin [Hhead|(x & rest & Hbuf & Hx)].
  - now apply line_without_header.
  - apply (AT_process_without_dispatch Hw w _ 0%Z); try assumption.
    + intros v Hv. unfold AT_process_line. cbv zeta.
      unfold bind at 1. unfold get_ctx at 1. rewrite Hv.
      cbn [rx_buffer with_flags]. rewrite Hbuf. apply ascii_eqb_false in Hx.
      unfold bind, lift, AT_HEADER, c_str, command_start_idx.
      cbn. unfold AT_COMMAND_MARKER_EXECUTION. rewrite Hx. reflexivity.
    + intros _. split; [vm_compute; repeat constructor|reflexivity].
Qed.

(** X19: the ping.  With a transport that accepts every write, a pass
    over the line ["AT"] returns [AT_SUCCESS] without searching any
    command; the bytes sent are the echo of the line if echo is on and
    the status line (["OK"], or ["0"] in numeric mode), nothing in quiet
    mode; the buffer is reset and both flags are cleared. *)
Theorem ping_line_is_acknowledged :
  (forall data, AT_HW_API_write_status data = AT_SUCCESS) ->
  forall (w : AT_world) (rest : list ascii),
    process (flags (at_ctx w)) = true ->
    rx_buffer (at_ctx w) = text_of "AT" ++ NUL :: rest ->
    AT_process w
    = Ok (AT_SUCCESS,
          mk_world
            (line_reset
               (with_flags (set_process false (flags (at_ctx w))) (at_ctx w)))
            (hw_tx w ++ transcript (flags (at_ctx w)) (text_of "AT") AT_SUCCESS [])
            (notified w)).
Proof.
  intros Hw w rest Hp Hbuf.
  replace (text_of "AT") with (until_nul (rx_buffer (at_ctx w))) at 1
    by (rewrite Hbuf; reflexivity).
  apply (AT_process_without_dispatch Hw w _ 0%Z); try assumption.
  - rewrite Hbuf. cbn. tauto.
  - intros v Hv. unfold AT_process_line. cbv zeta.
    unfold bind at 1. unfold get_ctx at 1. rewrite Hv.
    cbn [rx_buffer with_flags]. rewrite Hbuf. reflexivity.
  - discriminate.
Qed.

(** *** Tokenizer: the line buffer after the loops *)

Lemma overwritten_refl : forall s, Forall2 overwritten s s.
Proof. induction s; constructor; [now left|assumption]. Qed.

Lemma strtok_token_cells :
  forall s tok d rest,
    strtok_token s = Ok (tok, d, rest) ->
    s = tok ++ d :: rest /\ (is_separator d = true \/ d = NUL).
Proof.
  induction s as [|c t IH]; intros tok d rest H; [discriminate|].
  cbn [strtok_token] in H.
  destruct (is_separator c) eqn:Ec; cbn [orb] in H.
  - inversion H; subst. auto.
  - destruct (Ascii.eqb_spec c NUL) as [->|Hc].
    + inversion H; subst. auto.
    + destruct (strtok_token t) as [[[tok' d'] rest']|] eqn:E; [|discriminate].
      inversion H; subst. destruct (IH _ _ _ eq_refl) as [-> Hd]. auto.
Qed.

(** [strtok_r] leaves the cells from the new [content] on as they were
    and changes the cells behind it in one place at most: the separator
    that ends the token. *)
Lemma strtok_r_cells :
  forall s tok b rest,
    strtok_r s = Ok (tok, b, rest) ->
    exists sb, s = sb ++ rest /\ Forall2 overwritten sb b.
Proof.
  induction s as [|c t IH]; intros tok b rest H; [discriminate|].
  cbn [strtok_r] in H. destruct (is_separator c) eqn:Ec.
  - destruct (strtok_r t) as [[[tok' b'] rest']|] eqn:E; [|discriminate].
    inversion H; subst. destruct (IH _ _ _ eq_refl) as (sb & -> & F).
    exists (c :: sb). split; [reflexivity|]. constructor; [now left|exact F].
  - destruct (Ascii.eqb c NUL) eqn:En.
    + inversion H; subst. exists []. split; [reflexivity|constructor].
    + destruct (strtok_token (c :: t)) as [[[tok' d] rest']|] eqn:E; [|discriminate].
      destruct (strtok_token_cells _ _ _ _ E) as [Hs Hd].
      destruct (Ascii.eqb_spec d NUL) as [->|Hdn];
        injection H as E1 E2 E3; subst tok b rest.
      * exists tok'. split; [exact Hs|apply overwritten_refl].
      * exists (tok' ++ [d]). split; [now rewrite Hs, <- app_assoc|].
        apply Forall2_app; [apply overwritten_refl|].
        constructor; [|constructor]. right. split; [|reflexivity].
        destruct Hd as [Hd|Hd]; [exact Hd|congruence].
Qed.

Lemma skip_separators_cells :
  forall s argv argc a n b rest,
    skip_separators argv argc s = Ok (a, n, b, rest) -> s = b ++ rest.
Proof.
  induction s as [|c t IH]; intros argv argc a n b rest H; [discriminate|].
  cbn [skip_separators] in H. destruct (is_separator c).
  - destruct (store argv argc None) as [argv'|]; [|discriminate].
    destruct (skip_separators argv' (S argc) t) as [[[[a' n'] b'] rest']|] eqn:E;
      [|discriminate].
    inversion H; subst. now rewrite (IH _ _ _ _ _ _ E).
  - inversion H; subst. reflexivity.
Qed.

Lemma parse_parameters_cells :
  forall fuel argv argc behind s pre a n cells,
    Forall2 overwritten pre behind ->
    parse_parameters fuel argv argc behind s = Ok (a, n, cells) ->
    Forall2 overwritten (pre ++ s) cells.
Proof.
  induction fuel as [|f IH]; intros argv argc behind s pre a n cells Hpre H;
    [discriminate|].
  cbn [parse_parameters] in H.
  destruct (strtok_r s) as [[[[tok|] b] rest]|] eqn:E; [| |discriminate].
  - destruct (strtok_r_cells _ _ _ _ E) as (sb & -> & Fb).
    destruct (store argv argc (Some (tok ++ [NUL]))) as [argv1|]; [|discriminate].
    destruct (skip_separators argv1 (S argc) rest) as [[[[a2 n2] b2] rest2]|] eqn:E2;
      [|discriminate].
    rewrite (skip_separators_cells _ _ _ _ _ _ _ E2).
    replace (pre ++ sb ++ b2 ++ rest2) with ((pre ++ sb ++ b2) ++ rest2)
      by (now rewrite <- !app_assoc).
    eapply IH; [|exact H].
    repeat apply Forall2_app; try assumption. apply overwritten_refl.
  - destruct (strtok_r_cells _ _ _ _ E) as (sb & -> & Fb).
    inversion H; subst.
    repeat apply Forall2_app; try assumption. apply overwritten_refl.
Qed.

(** X20: the tokenizer works in place and changes separators only.  Cell
    by cell, the line buffer after the two loops holds what it held
    before, except that a separator may have become a terminator; in
    particular the buffer keeps its length. *)
Theorem tokenizer_overwrites_separators_only :
  forall (s : list ascii) (argv : list c_ptr) (argc : nat) (cells : list ascii),
    tokenize s = Ok (argv, argc, cells) ->
    Forall2 overwritten s cells.
Proof.
  intros s argv argc cells H. unfold tokenize in H.
  destruct (skip_separators _ 0 s) as [[[[a n] b] rest]|] eqn:E; [|discriminate].
  rewrite (skip_separators_cells _ _ _ _ _ _ _ E).
  eapply parse_parameters_cells; [apply overwritten_refl|exact H].
Qed.

(** *** Tokenizer: the argument string read back *)

Lemma split_fields_head_in :
  forall s f fs, split_fields s = f :: fs -> forall x, In x f -> In x s.
Proof.
  induction s as [|c t IH]; intros f fs H x Hx; cbn [split_fields] in H.
  - inversion H; subst. contradiction.
  - destruct (is_separator c).
    + inversion H; subst. contradiction.
    + destruct (split_fields t) as [|g gs] eqn:E.
      * inversion H; subst. destruct Hx as [<-|[]]. now left.
      * inversion H; subst. destruct Hx as [<-|Hx]; [now left|].
        right. eapply IH; eauto.
Qed.

Lemma argument_text_field :
  forall f, ~ In NUL f -> argument_text (slot_of_field f) = f.
Proof.
  intros [|c t] Hn; [reflexivity|].
  unfold slot_of_field, argument_text. apply until_nul_text. exact Hn.
Qed.

Lemma join_arguments_fields :
  forall s, ~ In NUL s ->
    join_arguments (map slot_of_field (split_fields s)) = s.
Proof.
  induction s as [|c t IH]; intros Hn; [reflexivity|].
  assert (Hn' : ~ In NUL t) by (intros H; apply Hn; now right).
  specialize (IH Hn'). cbn [split_fields].
  destruct (is_separator c) eqn:Ec.
  - apply is_separator_true in Ec. subst c.
    cbn [map join_arguments]. pose proof (split_fields_not_nil t) as Hne.
    destruct (split_fields t) as [|g gs]; [congruence|].
    cbn [map] in *. cbn [argument_text slot_of_field app].
    now rewrite IH.
  - pose proof (split_fields_head_in t) as Hhead.
    pose proof (split_fields_not_nil t) as Hne.
    destruct (split_fields t) as [|f fs]; [congruence|].
    assert (Hf : ~ In NUL f) by (intros H; apply Hn'; eapply Hhead; eauto).
    assert (Hcf : ~ In NUL (c :: f)).
    { intros [H|H]; [apply Hn; now left|contradiction]. }
    cbn [map join_arguments] in *.
    rewrite argument_text_field in * by assumption.
    destruct (map slot_of_field fs); cbn [app]; now rewrite <- IH.
Qed.

(** X21: the argument string can be read back from the argument array.
    For an argument string of at most ten fields whose last field is not
    empty, the tokenizer returns, and joining the texts of its first
    [argc] cells with separators, a null cell counting as an empty
    text, gives the argument string again: no position and no character
    is lost. *)
Theorem tokenizer_arguments_join_back :
  forall (s junk : list ascii),
    ~ In NUL s ->
    length (split_fields s) <= AT_COMMAND_PARAMETER_MAX_NUMBER ->
    last (split_fields s) [] <> [] ->
    exists argv argc cells,
      tokenize (s ++ NUL :: junk) = Ok (argv, argc, cells)
      /\ join_arguments (firstn argc argv) = s.
Proof.
  intros s junk Hn Hle Hlast.
  destruct (tokenize_slots s junk Hn) as [cells Ht].
  { pose proof (argument_slots_length s). lia. }
  exists (argv_of (argument_slots s)), (length (argument_slots s)), cells.
  split; [exact Ht|].
  unfold argv_of. rewrite firstn_app, firstn_all, Nat.sub_diag. cbn [firstn].
  rewrite app_nil_r. unfold argument_slots.
  rewrite drop_last_empty_keeps by exact Hlast.
  apply join_arguments_fields. exact Hn.
Qed.

(** *** Tokenizer: more arguments than the array has cells *)







(** *** Built-in mode commands: every outcome *)

Lemma _parse_bit_inv :
  forall argc argv bit st v,
    _parse_bit argc argv bit = Ok (st, v) ->
    (st = AT_SUCCESS
     /\ exists s n, argc = 1 /\ nth_error argv 0 = Some (Some s)
                    /\ sscanf_d s = Ok (Some n) /\ (n <= 1)%Z
                    /\ v = (n mod 256)%Z)
    \/ (st = AT_ERROR_EXTERNAL_COMMAND_BAD_PARAMETER_NUMBER /\ argc <> 1)
    \/ (st = AT_ERROR_EXTERNAL_COMMAND_BAD_PARAMETER_PARSING
        /\ exists s, argc = 1 /\ nth_error argv 0 = Some (Some s)
                     /\ sscanf_d s = Ok None)
    \/ (st = AT_ERROR_EXTERNAL_COMMAND_BAD_PARAMETER_VALUE
        /\ exists s n, argc = 1 /\ nth_error argv 0 = Some (Some s)
                       /\ sscanf_d s = Ok (Some n) /\ (1 < n)%Z).
Proof.
  intros argc argv bit st v H. unfold _parse_bit in H.
  destruct (Nat.eqb_spec argc 1) as [->|Hargc]; cbn [negb] in H.
  2:{ inversion H; subst. right. left. auto. }
  unfold load in H. destruct (nth_error argv 0) as [[s|]|] eqn:E0;
    try discriminate.
  destruct (sscanf_d s) as [[n|]|] eqn:Es; try discriminate.
  - destruct (Z.gtb_spec n 1) as [Hn|Hn]; inversion H; subst.
    + do 3 right. split; [reflexivity|]. exists s, n. auto.
    + left. split; [reflexivity|]. exists s, n. repeat split; auto.
  - inversion H; subst. right. right. left. split; [reflexivity|].
    exists s. auto.
Qed.

(** X23: what the write form of E, V and Q can do.  Whatever the
    arguments, a call that returns leaves 0 in the error code, and
    either succeeds, on a single argument that reads as an integer not
    above 1, and changes the one flag of the command (to the low bit of
    the value) and nothing else; or is refused for the number of
    arguments, for an argument that does not read as an integer, or for
    a value above 1, and changes nothing. *)
Theorem mode_write_touches_one_flag :
  forall (cb : AT_command_write_cb_t) (set : bool -> AT_flags_t -> AT_flags_t),
    In (cb, set) mode_write_callbacks ->
    forall (argc : nat) (argv : list c_ptr) (code : Z) (w w' : AT_world)
           (st : AT_status_t) (c : Z),
      cb argc argv code w = Ok ((st, c), w') ->
      c = 0%Z
      /\ ((st = AT_SUCCESS
           /\ exists s n, argc = 1 /\ nth_error argv 0 = Some (Some s)
                          /\ sscanf_d s = Ok (Some n) /\ (n <= 1)%Z
                          /\ w' = world_with_flags (set (bitfield1 (n mod 256))) w)
          \/ (w' = w
              /\ ((st = AT_ERROR_EXTERNAL_COMMAND_BAD_PARAMETER_NUMBER
                   /\ argc <> 1)
                  \/ st = AT_ERROR_EXTERNAL_COMMAND_BAD_PARAMETER_PARSING
                  \/ st = AT_ERROR_EXTERNAL_COMMAND_BAD_PARAMETER_VALUE))).
Proof.
  intros cb set Hin argc argv code w w' st c H.
  assert (Hcb : cb = fun argc argv _ =>
                       r <- lift (_parse_bit argc argv 0) ;;
                       if is_success (fst r) then
                         modify_flags (set (bitfield1 (snd r))) ;;
                         ret (AT_SUCCESS, 0%Z)
                       else ret (fst r, 0%Z)).
  { destruct Hin as [E|[E|[E|[]]]]; inversion E; reflexivity. }
  subst cb. cbv beta in H.
  apply bind_ok in H as ([st0 v] & w0 & H0 & H).
  apply lift_ok in H0 as [Hp ->]. cbn [fst snd] in H.
  destruct (_parse_bit_inv _ _ _ _ _ Hp)
    as [(-> & s & n & Hargc & Harg & Hs & Hn & ->)
       |[(-> & Hargc)|[(-> & _)|(-> & _)]]];
    cbn [is_success] in H.
  - unfold bind, modify_flags, modify_ctx, ret in H. inversion H; subst.
    split; [reflexivity|]. left. split; [reflexivity|].
    exists s, n. repeat split; assumption.
  - apply ret_ok in H as [E ->]. inversion E; subst. auto 6.
  - apply ret_ok in H as [E ->]. inversion E; subst. auto 6.
  - apply ret_ok in H as [E ->]. inversion E; subst. auto 6.
Qed.

(** *** Dispatcher: a descriptor without syntax *)

Lemma search_command_app :
  forall input t a b,
    search_command input t (a ++ b)
    = match search_command input t a with
      | Ok None => search_command input t b
      | found => found
      end.
Proof.
  intros input t. induction a as [|slot a IH]; intros b; [reflexivity|].
  cbn [app search_command]. destruct slot as [r|]; [|apply IH].
  destruct (negb _); [apply IH|].
  destruct (syntax (AT_deref r)) as [s|]; [|reflexivity].
  destruct (strlen s) as [n|]; [|reflexivity].
  destruct (memcmp_eq input s n) as [[|]|]; [reflexivity|apply IH|reflexivity].
Qed.

(** X24: the syntax of a descriptor is not checked at registration.  A
    descriptor of a valid kind whose syntax pointer is null is
    registered like any other; from then on, a line of its kind that
    matches no descriptor in the slots before it makes the search
    measure the null pointer: the dispatch returns no status. *)
Theorem null_syntax_is_registered_and_breaks_dispatch :
  forall (r : AT_command_ref) (w w1 : AT_world) (start : nat) (code : Z),
    In None (commands_list (at_ctx w)) ->
    syntax (AT_deref r) = None ->
    AT_register_command (Some r) w = Ok (AT_SUCCESS, w1) ->
    search_command (skipn start (rx_buffer (at_ctx w))) (type (AT_deref r))
      (commands_list (at_ctx w)) = Ok None ->
    _parse_and_execute_command start (type (AT_deref r)) code w1
    = Fault NullDereference.
Proof.
  intros r w w1 start code Hfree Hsyn H Hnone.
  destruct (AT_register_command_inv _ _ _ _ H)
    as [[_ [[E _]|[[E _]|[[E _]|[[E _]|[_ Hfull]]]]]]|[_ Hins]];
    try discriminate; [contradiction|].
  destruct Hins as (r' & before & after & c & counts & Er & Htype & _
                    & _ & Hs & _ & _ & _ & ->).
  inversion Er; subst r'. clear Er.
  rewrite Hs, search_command_app in Hnone.
  destruct (search_command _ _ before) as [[found|]|] eqn:Eb; try discriminate.
  unfold _parse_and_execute_command, bind, modify_ctx, get_ctx, lift.
  cbn [at_ctx world_with_ctx with_commands_count with_commands_list
         with_current_command rx_buffer commands_list].
  rewrite search_command_app, Eb. cbn [search_command].
  assert (Et : AT_command_type_eqb (type (AT_deref r)) (type (AT_deref r)) = true)
    by now apply AT_command_type_eqb_eq.
  rewrite Et, Hsyn. reflexivity.
Qed.

(** *** A whole cycle *)

Lemma skipn_repeat_cells :
  forall (x : ascii) n m, skipn n (repeat x m) = repeat x (m - n).
Proof.
  intros x. induction n as [|n IH]; intros m.
  - now rewrite Nat.sub_0_r.
  - destruct m as [|m]; [reflexivity|]. cbn [repeat skipn Nat.sub]. apply IH.
Qed.

(** X25: a line that is not a command, from reception to the idle link.
    On an idle link (no line pending, buffer reset) and with a transport
    that accepts every write, a line shorter than the buffer that does
    not start with ["AT"] is received, rejected with
    [AT_ERROR_INTERNAL_COMMAND_PARSING] and answered with its echo (if
    echo is on) and the status line; the hook has been called once, and
    the context after the pass is exactly the one before the line. *)
Theorem rejected_line_leaves_link_idle :
  (forall data, AT_HW_API_write_status data = AT_SUCCESS) ->
  forall (line : list ascii) (w : AT_world),
    pending (flags (at_ctx w)) = false ->
    process (flags (at_ctx w)) = false ->
    rx_buffer (at_ctx w) = repeat NUL AT_BUFFER_SIZE ->
    rx_buffer_size (at_ctx w) = 0 ->
    ~ In NUL line -> ~ In AT_COMMAND_MARKER_END line ->
    length line < AT_BUFFER_SIZE ->
    firstn 2 line <> text_of "AT" ->
    AT_run line w
    = Ok (AT_ERROR_INTERNAL_COMMAND_PARSING,
          mk_world (at_ctx w)
            (hw_tx w
             ++ transcript (flags (at_ctx w)) line
                  AT_ERROR_INTERNAL_COMMAND_PARSING (text_of "COMMAND_PARSING"))
            (notified w ++ match process_callback (at_ctx w) with
                           | Some h => [h]
                           | None => []
                           end)).
Proof.
  intros Hw line w Hp Hpr Hbuf Hsize Hn Hm Hlen Hhead.
  unfold AT_run. unfold bind at 1. rewrite AT_receive_app. unfold bind at 1.
  rewrite AT_receive_data; try assumption;
    rewrite ?stored_bytes_all by exact Hn; rewrite ?Hsize, ?Hbuf;
    [|apply repeat_length|unfold AT_BUFFER_SIZE; lia|cbn [Nat.add]; lia].
  cbn [Nat.add]. rewrite Nat.mod_small by exact Hlen.
  cbn [AT_receive]. unfold bind at 1.
  rewrite _rx_irq_callback_marker by exact Hp. unfold ret at 1.
  assert (Hcells : buffer_with (repeat NUL AT_BUFFER_SIZE) 0 line
                   = line ++ NUL :: repeat NUL (AT_BUFFER_SIZE - S (length line))).
  { unfold buffer_with. cbn [firstn app Nat.add].
    rewrite skipn_repeat_cells.
    replace (AT_BUFFER_SIZE - length line)
      with (S (AT_BUFFER_SIZE - S (length line))) by lia.
    reflexivity. }
  rewrite (line_without_header Hw).
  - destruct w as [[cb [pr pe q v e] buf size cur cl cc] tx n].
    cbn [at_ctx flags pending process rx_buffer rx_buffer_size] in *.
    subst pr pe buf size.
    cbn [at_ctx hw_tx notified flags line_ready line_reset world_with_ctx
           with_flags with_rx_buffer with_rx_buffer_size set_process set_pending
           process_callback rx_buffer rx_buffer_size current_command
           commands_list commands_count process pending quiet verbose echo].
    rewrite Hcells, until_nul_text by exact Hn. reflexivity.
  - reflexivity.
  - cbn [at_ctx world_with_ctx line_ready with_flags with_rx_buffer
           with_rx_buffer_size rx_buffer].
    rewrite Hcells, in_app_iff. right. now left.
  - cbn [at_ctx world_with_ctx line_ready with_flags with_rx_buffer
           with_rx_buffer_size rx_buffer].
    rewrite Hcells. split.
    + rewrite length_app. cbn [length]. rewrite repeat_length.
      unfold AT_BUFFER_SIZE in *. lia.
    + destruct line as [|a [|b rest]]; cbn [app firstn] in *.
      * intros E. inversion E.
      * intros E. inversion E.
      * exact Hhead.
Qed.

(** *** Replies and the transport *)

(** X26: a reply that the transport refuses.  When the transport
    returns a failure for every write, [AT_send_reply] without a
    descriptor and without a current command hands the reply over,
    returns the status of the transport and does not send the end of
    the line. *)
Theorem AT_send_reply_reports_transport_failure :
  forall (e : AT_status_t) (text rest : list ascii) (w : AT_world),
    (forall data, AT_HW_API_write_status data = e) ->
    e <> AT_SUCCESS ->
    quiet (flags (at_ctx w)) = false ->
    current_command (at_ctx w) = None ->
    text <> [] -> ~ In NUL text ->
    AT_send_reply None (Some (text ++ NUL :: rest)) w
    = Ok (e, transmit text w).
Proof.
  intros e text rest w Hw He Q Hcur Hne Hn.
  destruct text as [|c t]; [congruence|].
  assert (Hc : Ascii.eqb c NUL = false).
  { apply ascii_eqb_false. intros ->. apply Hn. now left. }
  unfold AT_send_reply. unfold bind at 1. unfold lift, load.
  cbn [app nth_error]. rewrite Hc.
  unfold bind at 1. unfold get_ctx at 1. cbv zeta. rewrite Hcur.
  unfold bind at 1. unfold ret at 1. cbn [is_success].
  unfold bind at 1.
  change (c :: t ++ NUL :: rest) with ((c :: t) ++ NUL :: rest).
  rewrite _print_string by (rewrite in_app_iff; right; now left).
  rewrite until_nul_text by exact Hn.
  unfold print_status, audible. rewrite Q, Hw.
  destruct e; try congruence; reflexivity.
Qed.

End AT.

(** ** The properties at concrete inputs *)

(** The example worlds are the ones the code produces. *)
Example AT_init_leaves_idle_world :
  AT_init AT_SUCCESS no_user_commands (mk_config 0%Z 1%Z 0%Z (Some 0))
          (mk_world at_ctx_initial [] [])
  = Ok (AT_SUCCESS, idle_world false true false).
Proof. vm_compute. reflexivity. Qed.

Example receive_makes_ready :
  AT_receive (text_of "ATE1" ++ [CR]) (idle_world false true false)
  = Ok (tt, ready_world false true false "ATE1").
Proof. vm_compute. reflexivity. Qed.

(** C1 at a full list of 64 application descriptors: registering a
    65th returns [AT_SUCCESS] and changes nothing. *)
Lemma register_on_full_list_witness :
  AT_register_command plain_user_commands (Some (User 64)) full_world
  = Ok (AT_SUCCESS, full_world).
Proof.
  apply register_on_full_list_returns_success.
  - vm_compute. intros H.
    repeat (destruct H as [H|H]; [discriminate H|]). exact H.
  - vm_compute. reflexivity.
  - simpl. discriminate.
  - intros H. exfalso. apply H. reflexivity.
Defined.


(** C3 fails as stated: in quiet mode the line ["ATQ"] clears the flag
    and its status line reaches the transport. *)
Lemma quiet_status_line_after_Q :
  quiet (flags (at_ctx (ready_world true true false "ATQ"))) = true
  /\ exists w',
      AT_process hw_ok no_user_commands (ready_world true true false "ATQ")
      = Ok (AT_SUCCESS, w')
      /\ hw_tx w' = hw_tx (ready_world true true false "ATQ")
                    ++ text_of "OK" ++ AT_REPLY_END
      /\ hw_tx w' <> hw_tx (ready_world true true false "ATQ").
Proof.
  split; [reflexivity|].
  eexists. split; [vm_compute; reflexivity|].
  split; [reflexivity|]. simpl. discriminate.
Qed.

(** C3, amended, at the line ["ATE1"] in quiet mode with echo on. *)
Lemma quiet_suppresses_output_witness :
  exists w',
    AT_process hw_ok no_user_commands (ready_world true true true "ATE1")
    = Ok (AT_SUCCESS, w')
    /\ hw_tx w' = hw_tx (ready_world true true true "ATE1").
Proof.
  eexists. split; [vm_compute; reflexivity|].
  eapply (quiet_suppresses_output hw_ok no_user_commands).
  - reflexivity.
  - intros [b|n] _.
    + apply builtin_callbacks_silent.
    + repeat split; intros; discriminate.
  - vm_compute. reflexivity.
  - reflexivity.
Defined.


(** C5 at ["ATE1"]: Basic kind, so the write callback of E receives the
    remainder ["1"]. *)
Lemma call_form_follows_marker_witness :
  _parse_and_execute_command no_user_commands 2 AT_COMMAND_TYPE_BASIC 0%Z
    (ready_world false true false "ATE1")
  = _echo_write_callback 1 (argv_of [Some (text_of "1" ++ [NUL])]) 0%Z
      (world_with_current (Some (Builtin BUILTIN_ECHO))
         (ready_world false true false "ATE1")).
Proof.
  rewrite (call_form_follows_marker no_user_commands
             (ready_world false true false "ATE1") 2 AT_COMMAND_TYPE_BASIC 0%Z
             (Builtin BUILTIN_ECHO) 1 "1"%char).
  - vm_compute. reflexivity.
  - vm_compute. reflexivity.
  - vm_compute. reflexivity.
Defined.

(** C6 at ["1,,3"]. *)
Lemma tokenizer_keeps_positions_witness :
  exists cells,
    tokenize (text_of "1,,3" ++ [NUL])
    = Ok ([Some (text_of "1" ++ [NUL]); None; Some (text_of "3" ++ [NUL]);
           None; None; None; None; None; None; None], 3, cells).
Proof.
  destruct (tokenizer_keeps_positions (text_of "1,,3") []) as [[cells H] _].
  - simpl. intuition discriminate.
  - vm_compute. lia.
  - exists cells. exact H.
Defined.

(** C7: a whole line received while another one is pending. *)
Lemma rx_dropped_while_pending_witness :
  AT_receive (text_of "ATE1" ++ [CR]) (ready_world false true false "ATV0")
  = Ok (tt, ready_world false true false "ATV0").
Proof. apply rx_dropped_while_pending. reflexivity. Defined.

(** C8 fails as stated: ["ATE1"] leaves the registry alone, and with echo
    off the first run writes [OK] while the second run writes the echoed
    line and then [OK]. *)
Lemma echo_line_only_on_second_run :
  exists w1 w2,
    AT_run hw_ok no_user_commands (text_of "ATE1") (idle_world false true false)
    = Ok (AT_SUCCESS, w1)
    /\ hw_tx w1 = hw_tx (idle_world false true false) ++ text_of "OK" ++ AT_REPLY_END
    /\ commands_list (at_ctx w1) = commands_list (at_ctx (idle_world false true false))
    /\ commands_count (at_ctx w1) = commands_count (at_ctx (idle_world false true false))
    /\ AT_run hw_ok no_user_commands (text_of "ATE1") w1 = Ok (AT_SUCCESS, w2)
    /\ hw_tx w2
       = hw_tx w1 ++ text_of "ATE1" ++ AT_REPLY_END ++ text_of "OK" ++ AT_REPLY_END
    /\ text_of "OK" ++ AT_REPLY_END
       <> text_of "ATE1" ++ AT_REPLY_END ++ text_of "OK" ++ AT_REPLY_END.
Proof.
  eexists. eexists.
  split; [vm_compute; reflexivity|].
  split; [reflexivity|].
  split; [vm_compute; reflexivity|].
  split; [reflexivity|].
  split; [vm_compute; reflexivity|].
  split; [reflexivity|].
  simpl. discriminate.
Qed.

(** C8, amended, at the help line ["AT?"]. *)
Lemma same_line_twice_same_output_witness :
  exists out w1 w2,
    AT_run hw_ok no_user_commands (text_of "AT?") (idle_world false true false)
    = Ok (AT_SUCCESS, w1)
    /\ hw_tx w1 = hw_tx (idle_world false true false) ++ out
    /\ AT_run hw_ok no_user_commands (text_of "AT?") w1 = Ok (AT_SUCCESS, w2)
    /\ hw_tx w2 = hw_tx w1 ++ out.
Proof.
  assert (H1 : exists w1,
             AT_run hw_ok no_user_commands (text_of "AT?")
                    (idle_world false true false) = Ok (AT_SUCCESS, w1)
             /\ ctx_eqv (at_ctx w1) (at_ctx (idle_world false true false))).
  { eexists. split; [vm_compute; reflexivity|reflexivity]. }
  destruct H1 as (w1 & Hrun & Heqv).
  destruct (same_line_twice_same_output hw_ok no_user_commands) with
    (line := text_of "AT?") (w := idle_world false true false) (w1 := w1)
    (st := AT_SUCCESS) as (out & w2 & T1 & Hrun2 & T2).
  - intros n. repeat split; intros; discriminate.
  - exact Hrun.
  - exact Heqv.
  - exists out, w1, w2. auto.
Defined.

(** C9 after [AT_init]: slots 3 to 63 are free. *)
Lemma unregister_null_dereferences_witness :
  AT_unregister_command no_user_commands None (idle_world false true false)
  = Fault NullDereference.
Proof.
  apply unregister_null_dereferences. vm_compute. do 3 right. left. reflexivity.
Defined.

(** C10 at the argument ["-1"]: 255 after the conversion, low bit 1. *)
Lemma mode_write_accepts_negative_witness :
  _echo_write_callback 1 [Some (text_of "-1" ++ [NUL])] 0%Z (idle_world false true false)
  = Ok ((AT_SUCCESS, 0%Z), world_with_flags (set_echo true) (idle_world false true false)).
Proof.
  apply (mode_write_accepts_negative (text_of "-1" ++ [NUL]) (-1)%Z [] 0%Z
           (idle_world false true false)); [reflexivity|lia].
Defined.

(** The line ["ATE-1"] end to end: status OK and echo enabled. *)
Example ATE_minus_one_enables_echo :
  exists w',
    AT_run hw_ok no_user_commands (text_of "ATE-1") (idle_world false true false)
    = Ok (AT_SUCCESS, w')
    /\ hw_tx w' = text_of "OK" ++ AT_REPLY_END
    /\ echo (flags (at_ctx w')) = true.
Proof. eexists. split; [vm_compute; reflexivity|]. split; reflexivity. Qed.

(** The lines ["ATE"] and ["ATE1"] of the specification. *)
Example ATE_disables_and_ATE1_enables_echo :
  exists w1 w2,
    AT_run hw_ok no_user_commands (text_of "ATE") (idle_world false true true)
    = Ok (AT_SUCCESS, w1)
    /\ echo (flags (at_ctx w1)) = false
    /\ AT_run hw_ok no_user_commands (text_of "ATE1") w1 = Ok (AT_SUCCESS, w2)
    /\ echo (flags (at_ctx w2)) = true.
Proof.
  eexists. eexists.
  split; [vm_compute; reflexivity|].
  split; [reflexivity|].
  split; [vm_compute; reflexivity|].
  reflexivity.
Qed.

(** An omitted argument reaches [sscanf] as a null pointer. *)
Example ATE_comma_dereferences_null :
  AT_run hw_ok no_user_commands (text_of "ATE,") (idle_world false true false)
  = Fault NullDereference.
Proof. vm_compute. reflexivity. Qed.

(** An eleventh argument is stored outside the argument array. *)
Example eleven_arguments_overflow :
  tokenize (text_of "1,2,3,4,5,6,7,8,9,10,11" ++ [NUL]) = Fault OutOfBounds.
Proof. vm_compute. reflexivity. Qed.

(** Nothing follows a last separator: no slot stands for it. *)
Example trailing_separator_has_no_slot :
  exists cells,
    tokenize (text_of "1," ++ [NUL]) = Ok (argv_of [Some (text_of "1" ++ [NUL])], 1, cells).
Proof. eexists. vm_compute. reflexivity. Qed.

(** Help on an empty registry: three headers, each followed by "None". *)
Example help_on_empty_registry :
  exists w',
    AT_run hw_ok no_user_commands (text_of "AT?")
           (mk_world (with_flags (mk_flags false false false true false) at_ctx_initial)
                     [] [])
    = Ok (AT_SUCCESS, w')
    /\ hw_tx w'
       = text_of "Basic commands" ++ AT_REPLY_END
         ++ text_of "    None" ++ AT_REPLY_END
         ++ text_of "Extended commands" ++ AT_REPLY_END
         ++ text_of "    None" ++ AT_REPLY_END
         ++ text_of "Debug commands" ++ AT_REPLY_END
         ++ text_of "    None" ++ AT_REPLY_END
         ++ text_of "OK" ++ AT_REPLY_END.
Proof. eexists. split; [vm_compute; reflexivity|reflexivity]. Qed.

(** First match, not longest match: ["A"] registered before ["AB"] is
    selected for the input ["AB"], and ["AB"] when it holds the earlier
    slot. *)
Example first_registered_prefix_wins :
  search_command prefix_user_commands (text_of "AB" ++ [NUL])
    AT_COMMAND_TYPE_EXTENDED [None; Some (User 0); Some (User 1)]
  = Ok (Some (User 0, 1))
  /\ search_command prefix_user_commands (text_of "AB" ++ [NUL])
       AT_COMMAND_TYPE_EXTENDED [Some (User 1); None; Some (User 0)]
     = Ok (Some (User 1, 2)).
Proof. split; vm_compute; reflexivity. Qed.

(** *** The receive accumulator *)

(** The line ["AT"] and bytes after its end marker, on an idle link. *)
Lemma AT_receive_completes_line_witness :
  AT_receive (text_of "AT" ++ AT_COMMAND_MARKER_END :: text_of "E1")
    (idle_world false true false)
  = Ok (tt, ready_world false true false "AT").
Proof.
  rewrite AT_receive_completes_line.
  - vm_compute. reflexivity.
  - reflexivity.
  - simpl. intuition discriminate.
  - reflexivity.
  - vm_compute. lia.
Defined.

(** Three hundred bytes without an end marker. *)
Lemma AT_receive_stays_in_buffer_witness :
  exists w',
    AT_receive (repeat "a"%char 300) (idle_world false true false) = Ok (tt, w')
    /\ length (rx_buffer (at_ctx w')) = AT_BUFFER_SIZE
    /\ rx_buffer_size (at_ctx w') < AT_BUFFER_SIZE
    /\ hw_tx w' = hw_tx (idle_world false true false)
    /\ commands_list (at_ctx w') = commands_list (at_ctx (idle_world false true false))
    /\ commands_count (at_ctx w') = commands_count (at_ctx (idle_world false true false)).
Proof.
  apply AT_receive_stays_in_buffer.
  - reflexivity.
  - vm_compute. lia.
Defined.


(** *** The registry *)

(** A first application descriptor goes to slot 3, after E, V and Q. *)
Lemma register_takes_first_free_slot_witness :
  AT_register_command plain_user_commands (Some (User 0))
    (idle_world false true false)
  = Ok (AT_SUCCESS, with_user_command (idle_world false true false)).
Proof.
  apply (register_takes_first_free_slot plain_user_commands (User 0)
           (idle_world false true false)
           [Some (Builtin BUILTIN_ECHO); Some (Builtin BUILTIN_VERBOSE);
            Some (Builtin BUILTIN_QUIET)]
           (repeat None 60) 3%Z 0%Z 0%Z).
  - reflexivity.
  - simpl. intuition discriminate.
  - vm_compute. intros H.
    repeat (destruct H as [H|H]; [discriminate H|]). exact H.
  - reflexivity.
  - simpl. discriminate.
  - intros H. exfalso. apply H. reflexivity.
Defined.


Lemma register_twice_is_refused_witness :
  AT_register_command plain_user_commands (Some (User 0))
    (with_user_command (idle_world false true false))
  = Ok (AT_ERROR_COMMAND_ALREADY_REGISTERED,
        with_user_command (idle_world false true false)).
Proof.
  apply (register_twice_is_refused plain_user_commands (User 0)
           (idle_world false true false)).
  - vm_compute. do 3 right. left. reflexivity.
  - vm_compute. reflexivity.
Defined.

Lemma register_then_unregister_restores_witness :
  AT_unregister_command plain_user_commands (Some (User 0))
    (with_user_command (idle_world false true false))
  = Ok (AT_SUCCESS, idle_world false true false).
Proof.
  apply register_then_unregister_restores.
  - vm_compute. do 3 right. left. reflexivity.
  - simpl. repeat constructor; discriminate.
  - vm_compute. reflexivity.
Defined.

Lemma unregister_releases_first_slot_witness :
  AT_unregister_command plain_user_commands (Some (User 0))
    (with_user_command (idle_world false true false))
  = Ok (AT_SUCCESS, idle_world false true false).
Proof.
  rewrite (unregister_releases_first_slot plain_user_commands (User 0)
             (with_user_command (idle_world false true false))
             [Some (Builtin BUILTIN_ECHO); Some (Builtin BUILTIN_VERBOSE);
              Some (Builtin BUILTIN_QUIET)]
             (repeat None 60) 3%Z 1%Z 0%Z).
  - vm_compute. reflexivity.
  - reflexivity.
  - simpl. intuition discriminate.
  - reflexivity.
  - simpl. discriminate.
Defined.

Lemma unregister_unknown_is_refused_witness :
  AT_unregister_command plain_user_commands (Some (User 5))
    (idle_world false true false)
  = Ok (AT_ERROR_COMMAND_NOT_REGISTERED, idle_world false true false).
Proof.
  apply unregister_unknown_is_refused.
  vm_compute. intros H.
  repeat (destruct H as [H|H]; [discriminate H|]). exact H.
Defined.

(** The registry that [AT_init] leaves satisfies the invariant, and so
    does the one with a first application descriptor. *)
Lemma registry_operations_keep_counts_witness :
  registry_ok plain_user_commands
    (at_ctx (with_user_command (idle_world false true false))).
Proof.
  apply (registry_operations_keep_counts plain_user_commands (Some (User 0))
           (idle_world false true false)
           (with_user_command (idle_world false true false)) AT_SUCCESS).
  - repeat split.
    + vm_compute. repeat constructor; simpl; intuition discriminate.
    + intros r H. vm_compute in H.
      repeat (destruct H as [H|H]; [inversion H; subst; simpl; discriminate|]).
      contradiction.
  - left. vm_compute. reflexivity.
Defined.

Lemma unregister_twice_is_refused_witness :
  AT_unregister_command plain_user_commands (Some (User 0))
    (idle_world false true false)
  = Ok (AT_ERROR_COMMAND_NOT_REGISTERED, idle_world false true false).
Proof.
  apply (unregister_twice_is_refused plain_user_commands (User 0)
           (with_user_command (idle_world false true false))).
  - vm_compute. repeat constructor; simpl; intuition discriminate.
  - vm_compute. reflexivity.
Defined.

(** After [AT_init] no Extended command is registered. *)
Lemma help_prints_none_for_empty_kind_witness :
  _print_help hw_ok plain_user_commands AT_COMMAND_TYPE_EXTENDED
    (idle_world false true false)
  = _print_line hw_ok (c_str "    None") (idle_world false true false).
Proof.
  rewrite help_prints_none_for_empty_kind.
  - reflexivity.
  - repeat split.
    + vm_compute. repeat constructor; simpl; intuition discriminate.
    + intros r H. vm_compute in H.
      repeat (destruct H as [H|H]; [inversion H; subst; simpl; discriminate|]).
      contradiction.
  - discriminate.
Defined.

(** *** Initialisation *)

Lemma AT_init_registers_mode_commands_witness :
  AT_init AT_SUCCESS no_user_commands (mk_config 0%Z 7%Z 0%Z (Some 0))
    (mk_world at_ctx_initial [] [])
  = Ok (AT_SUCCESS, idle_world false true false).
Proof.
  rewrite (AT_init_registers_mode_commands AT_SUCCESS no_user_commands
             (mk_config 0%Z 7%Z 0%Z (Some 0)) 0 [] []).
  - reflexivity.
  - reflexivity.
Defined.

Lemma AT_init_again_is_refused_witness :
  AT_init AT_SUCCESS no_user_commands (mk_config 0%Z 1%Z 1%Z (Some 0))
    (idle_world false true false)
  = Ok (AT_ERROR_COMMAND_ALREADY_REGISTERED, idle_world false true true)
  /\ bind (AT_de_init AT_SUCCESS)
       (fun _ => AT_init AT_SUCCESS no_user_commands
                   (mk_config 0%Z 1%Z 1%Z (Some 0)))
       (idle_world false true false)
     = Ok (AT_ERROR_COMMAND_ALREADY_REGISTERED, idle_world false true true).
Proof.
  apply (AT_init_again_is_refused AT_SUCCESS AT_SUCCESS no_user_commands
           (mk_config 0%Z 1%Z 1%Z (Some 0)) 0 (idle_world false true false)).
  - reflexivity.
  - reflexivity.
  - left. reflexivity.
Defined.

(** *** The formatter *)

Lemma status_line_content_witness :
  _print_command_status hw_ok no_user_commands
    AT_ERROR_INTERNAL_COMMAND_NOT_FOUND 0%Z (idle_world false true false)
  = Ok (tt, mk_world (at_ctx (idle_world false true false))
              (text_of "ERROR:COMMAND_NOT_FOUND" ++ AT_REPLY_END) []).
Proof.
  rewrite (status_line_content hw_ok no_user_commands
             AT_ERROR_INTERNAL_COMMAND_NOT_FOUND 0%Z (idle_world false true false)
             (text_of "COMMAND_NOT_FOUND")).
  - reflexivity.
  - intros _ _. split; [reflexivity|vm_compute; lia].
Defined.

Lemma long_error_name_overruns_status_buffer_witness :
  _print_command_status hw_ok long_name_user_commands
    AT_ERROR_EXTERNAL_COMMAND_CORE_ERROR 1%Z
    (world_with_current (Some (User 0)) (idle_world false true false))
  = Fault OutOfBounds.
Proof.
  apply (long_error_name_overruns_status_buffer hw_ok long_name_user_commands
           1%Z _ (User 0) (fun _ => Some long_name) long_name 110).
  - reflexivity.
  - reflexivity.
  - reflexivity.
  - reflexivity.
  - reflexivity.
  - vm_compute. reflexivity.
  - vm_compute. lia.
Defined.

Lemma AT_send_reply_line_witness :
  AT_send_reply hw_ok plain_user_commands (Some (User 0))
    (Some (text_of "42" ++ [NUL])) (idle_world false true false)
  = Ok (AT_SUCCESS,
        transmit (text_of "$X:42" ++ AT_REPLY_END) (idle_world false true false)).
Proof.
  rewrite (AT_send_reply_line hw_ok plain_user_commands).
  - reflexivity.
  - intros data. reflexivity.
  - discriminate.
  - simpl. intuition discriminate.
  - intros r E. inversion E; subst r. split; [simpl; discriminate|].
    eexists. split; [reflexivity|]. simpl. tauto.
Defined.

(** *** The processing pass *)

Lemma line_without_command_is_rejected_witness :
  AT_process hw_ok no_user_commands (ready_world false true true "HELLO")
  = Ok (AT_ERROR_INTERNAL_COMMAND_PARSING,
        mk_world (at_ctx (idle_world false true true))
          (text_of "HELLO" ++ AT_REPLY_END
           ++ text_of "ERROR:COMMAND_PARSING" ++ AT_REPLY_END)
          [0]).
Proof.
  rewrite (line_without_command_is_rejected hw_ok no_user_commands).
  - reflexivity.
  - intros data. reflexivity.
  - reflexivity.
  - vm_compute. do 5 right. left. reflexivity.
  - left. split; [vm_compute; lia|discriminate].
Defined.

Lemma ping_line_is_acknowledged_witness :
  AT_process hw_ok no_user_commands (ready_world false false false "AT")
  = Ok (AT_SUCCESS,
        mk_world (at_ctx (idle_world false false false))
          (text_of "0" ++ AT_REPLY_END) [0]).
Proof.
  rewrite (ping_line_is_acknowledged hw_ok no_user_commands
             (fun _ => eq_refl) _ (repeat NUL 125)).
  - reflexivity.
  - reflexivity.
  - reflexivity.
Defined.

(** *** The tokenizer *)

Lemma tokenizer_overwrites_separators_only_witness :
  Forall2 overwritten (text_of "1,,3" ++ [NUL])
    [ "1"%char; NUL; ","%char; "3"%char; NUL ].
Proof.
  apply (tokenizer_overwrites_separators_only (text_of "1,,3" ++ [NUL])
           [Some (text_of "1" ++ [NUL]); None; Some (text_of "3" ++ [NUL]);
            None; None; None; None; None; None; None] 3).
  vm_compute. reflexivity.
Defined.

Lemma tokenizer_arguments_join_back_witness :
  exists argv argc cells,
    tokenize (text_of ",7,,ab" ++ [NUL]) = Ok (argv, argc, cells)
    /\ join_arguments (firstn argc argv) = text_of ",7,,ab".
Proof.
  apply (tokenizer_arguments_join_back (text_of ",7,,ab") []).
  - simpl. intuition discriminate.
  - vm_compute. lia.
  - vm_compute. discriminate.
Defined.


(** *** The mode commands and the dispatcher *)

(** ["ATQ2"]: the value is refused and the quiet flag is not touched. *)
Lemma mode_write_touches_one_flag_witness :
  0%Z = 0%Z
  /\ ((AT_ERROR_EXTERNAL_COMMAND_BAD_PARAMETER_VALUE = AT_SUCCESS
       /\ exists s n,
            1 = 1 /\ nth_error [Some (text_of "2" ++ [NUL])] 0 = Some (Some s)
            /\ sscanf_d s = Ok (Some n) /\ (n <= 1)%Z
            /\ idle_world false true false
               = world_with_flags (set_quiet (bitfield1 (n mod 256)))
                   (idle_world false true false))
      \/ (idle_world false true false = idle_world false true false
          /\ ((AT_ERROR_EXTERNAL_COMMAND_BAD_PARAMETER_VALUE
               = AT_ERROR_EXTERNAL_COMMAND_BAD_PARAMETER_NUMBER /\ 1 <> 1)
              \/ AT_ERROR_EXTERNAL_COMMAND_BAD_PARAMETER_VALUE
                 = AT_ERROR_EXTERNAL_COMMAND_BAD_PARAMETER_PARSING
              \/ AT_ERROR_EXTERNAL_COMMAND_BAD_PARAMETER_VALUE
                 = AT_ERROR_EXTERNAL_COMMAND_BAD_PARAMETER_VALUE))).
Proof.
  apply (mode_write_touches_one_flag _quiet_write_callback set_quiet
           (or_intror (or_intror (or_introl eq_refl)))
           1 [Some (text_of "2" ++ [NUL])] 5%Z).
  vm_compute. reflexivity.
Defined.

(** A descriptor without syntax, registered while ["AT$X"] waits. *)
Lemma null_syntax_is_registered_and_breaks_dispatch_witness :
  _parse_and_execute_command nameless_user_commands 3 AT_COMMAND_TYPE_EXTENDED 0%Z
    (with_user_command (ready_world false true false "AT$X"))
  = Fault NullDereference.
Proof.
  apply (null_syntax_is_registered_and_breaks_dispatch nameless_user_commands
           (User 0) (ready_world false true false "AT$X")).
  - vm_compute. do 3 right. left. reflexivity.
  - reflexivity.
  - vm_compute. reflexivity.
  - vm_compute. reflexivity.
Defined.

(** *** A whole cycle and a refused reply *)

Lemma rejected_line_leaves_link_idle_witness :
  AT_run hw_ok no_user_commands (text_of "HELLO") (idle_world false true true)
  = Ok (AT_ERROR_INTERNAL_COMMAND_PARSING,
        mk_world (at_ctx (idle_world false true true))
          (text_of "HELLO" ++ AT_REPLY_END
           ++ text_of "ERROR:COMMAND_PARSING" ++ AT_REPLY_END)
          [0]).
Proof.
  rewrite (rejected_line_leaves_link_idle hw_ok no_user_commands).
  - reflexivity.
  - intros data. reflexivity.
  - reflexivity.
  - reflexivity.
  - reflexivity.
  - reflexivity.
  - simpl. intuition discriminate.
  - simpl. intuition discriminate.
  - vm_compute. lia.
  - discriminate.
Defined.

Lemma AT_send_reply_reports_transport_failure_witness :
  AT_send_reply (fun _ => AT_ERROR_AT_HW_API) no_user_commands None
    (Some (text_of "42" ++ [NUL])) (idle_world false true false)
  = Ok (AT_ERROR_AT_HW_API, transmit (text_of "42") (idle_world false true false)).
Proof.
  apply (AT_send_reply_reports_transport_failure
           (fun _ => AT_ERROR_AT_HW_API) no_user_commands).
  - intros data. reflexivity.
  - discriminate.
  - reflexivity.
  - reflexivity.
  - discriminate.
  - simpl. intuition discriminate.
Defined.
